(** * Text-overlay image service: model of the request pipeline

    A shallow embedding of the Node.js overlay server: the path descriptor
    resolver, the resource-URL builder, text decoding, the greedy word-wrap
    of the text layout, the font registration cache and the wildcard request
    handler, then the affection-window service kept beside it, followed by
    the properties established about them.

    Conventions.
    - A JavaScript string is a [string]; a character outside ASCII is
      carried by the bytes of its UTF-8 encoding.  The characters the code
      inspects (slash, space, newline, underscore, percent, question mark)
      are ASCII, and no byte of a multi-byte UTF-8 sequence equals one.
    - A JavaScript number is a rational [Q]; the comparisons the code makes
      on measured widths are the comparisons of [Q].  The coordinates of
      the drawing calls are written with exact arithmetic, where the
      platform rounds each result to a double; the properties of the text
      layout are about which calls are made, in which order and with which
      text.  Where a property is about how computed values compare (the
      gauge of the affection window), each operation is followed by a
      rounding that is only known to keep the order and to leave 0, 1 and
      100 as they are.
    - The handlers are run on the requests the router hands to them: for a
      path whose percent escapes do not decode the router answers 400
      itself ([routed]).
    - A [throw] is the [Throw] branch of [result]; an exception value is a
      constructor of [Exn] that carries the data its message interpolates.
    - A [Set] is a [gset], an object used as a dictionary is a [gmap]. *)

From Stdlib Require Import String Ascii List ZArith QArith Qminmax Bool Lia.
From Stdlib Require Import DecimalString DecimalNat Lqa Qround.
From stdpp Require Import base option gmap strings.

Local Open Scope stdpp_scope.

(** ** JavaScript string and array primitives used by the server *)

Module Js.

(** [!s] is false exactly for the non-empty strings. *)
Definition truthy (s : string) : bool :=
  match s with
  | EmptyString => false
  | String _ _ => true
  end.

(** [s.split(sep)] for a separator of one character. *)
Fixpoint split (sep : ascii) (s : string) : list string :=
  match s with
  | EmptyString => [EmptyString]
  | String c rest =>
      if Ascii.eqb c sep then EmptyString :: split sep rest
      else match split sep rest with
           | [] => [String c EmptyString]
           | w :: ws => String c w :: ws
           end
  end.

(** [parts.join(sep)]. *)
Fixpoint join (sep : string) (parts : list string) : string :=
  match parts with
  | [] => EmptyString
  | [w] => w
  | w :: ws => w +:+ sep +:+ join sep ws
  end.

(** [s.startsWith(p)]. *)
Definition startsWith (s p : string) : bool := String.prefix p s.

(** [s.substring(1)]. *)
Definition substring1 (s : string) : string :=
  match s with
  | EmptyString => EmptyString
  | String _ rest => rest
  end.

(** [arr.slice(1)]. *)
Definition slice1 {A} (l : list A) : list A := List.tl l.

(** [arr.slice(0, -2)]. *)
Definition slice0m2 {A} (l : list A) : list A :=
  List.firstn (length l - 2) l.

(** [arr.filter(Boolean)] on an array of strings. *)
Definition filterBoolean (l : list string) : list string :=
  List.filter truthy l.

(** The number of occurrences of a character. *)
Fixpoint count (c : ascii) (s : string) : nat :=
  match s with
  | EmptyString => 0
  | String d rest => (if Ascii.eqb d c then 1 else 0) + count c rest
  end.

(** [s.includes(c)] for one character. *)
Fixpoint includes (c : ascii) (s : string) : bool :=
  match s with
  | EmptyString => false
  | String d rest => Ascii.eqb d c || includes c rest
  end.

End Js.

(** ** Exceptions and results *)

Inductive Exn : Type :=
  | PathTooShort (urlPathname : string) (pathParts : list string)
  | ImagePathTooShort (imagePath : string)
  | BadFontUrl (fontUrl reason : string)
  | FontHttpStatus (status : Z) (statusText : string)
  | FontFileEmpty
  | ConfigFetchFailed (configUrl : string) (status : Z)
  | ImageFetchFailed (imageUrl : string) (status : Z)
  | URIError
  | PlatformError (message : string).

Inductive result (A : Type) : Type :=
  | Ok (a : A)
  | Throw (e : Exn).
Arguments Ok {A} a.
Arguments Throw {A} e.

(** [result] is the exception monad; [x ← r; k] runs [k] when [r] returned
    and propagates the exception when it threw. *)
#[global] Instance result_ret : MRet result := fun _ a => Ok a.
#[global] Instance result_bind : MBind result := fun _ _ k r =>
  match r with
  | Ok a => k a
  | Throw e => Throw e
  end.

(** ** Path descriptor resolver: [extractPathInfo] *)

Record PathInfo : Type := mkPathInfo {
  bucketName : string;
  imagePath : string;
  configDir : string;
  folderName : string;
  configKey : string
}.

Definition slash : ascii := "/"%char.

(** The segments the resolver works on: the leading slash is removed, the
    rest is split on slashes and the empty segments are dropped. *)
Definition pathParts (urlPathname : string) : list string :=
  let path :=
    if Js.startsWith urlPathname "/" then Js.substring1 urlPathname
    else urlPathname in
  Js.filterBoolean (Js.split slash path).

(** [extractPathInfo].  The array reads [pathParts[0]] and
    [imagePathParts[length - 2]] come after the two length checks, so the
    default of [nth] is never returned. *)
Definition extractPathInfo (urlPathname : string) : result PathInfo :=
  let pathParts := pathParts urlPathname in
  if (length pathParts <? 3)%nat then
    Throw (PathTooShort urlPathname pathParts)
  else
    let bucketName := nth 0 pathParts EmptyString in
    let imagePath := Js.join "/" (Js.slice1 pathParts) in
    let imagePathParts := Js.split slash imagePath in
    if (length imagePathParts <? 2)%nat then
      Throw (ImagePathTooShort imagePath)
    else
      let configDir := Js.join "/" (Js.slice0m2 imagePathParts) in
      let folderName :=
        nth (length imagePathParts - 2) imagePathParts EmptyString in
      let configKey := configDir +:+ "/" +:+ folderName +:+ ".json" in
      Ok (mkPathInfo bucketName imagePath configDir folderName configKey).

(** ** Resource URLs: [buildResourceUrl] *)

Definition buildResourceUrl (baseUrl bucketName resourcePath : string)
  : string :=
  if Js.startsWith baseUrl "http://" || Js.startsWith baseUrl "https://" then
    baseUrl +:+ "/" +:+ bucketName +:+ "/" +:+ resourcePath
  else
    "https://" +:+ baseUrl +:+ "/" +:+ bucketName +:+ "/" +:+ resourcePath.

(** ** Text decoding: [decodeText] *)

Definition newline : ascii := "010"%char.
Definition space : ascii := " "%char.

Module Uri.

(** Value of a hexadecimal digit. *)
Definition hexDigit (c : ascii) : option nat :=
  let n := nat_of_ascii c in
  if (48 <=? n)%nat && (n <=? 57)%nat then Some (n - 48)
  else if (65 <=? n)%nat && (n <=? 70)%nat then Some (n - 55)
  else if (97 <=? n)%nat && (n <=? 102)%nat then Some (n - 87)
  else None.

(** A code unit of the input: a literal character or an escape [%XX]. *)
Inductive token : Type :=
  | Lit (c : ascii)
  | Esc (octet : nat).

(** A percent sign must be followed by two hexadecimal digits. *)
Fixpoint tokens (s : string) : option (list token) :=
  match s with
  | EmptyString => Some []
  | String "%" (String h (String l rest)) =>
      match hexDigit h, hexDigit l, tokens rest with
      | Some a, Some b, Some ts => Some (Esc (16 * a + b) :: ts)
      | _, _, _ => None
      end
  | String "%" _ => None
  | String c rest =>
      match tokens rest with
      | Some ts => Some (Lit c :: ts)
      | None => None
      end
  end.

Definition within (lo hi n : nat) : bool := (lo <=? n)%nat && (n <=? hi)%nat.
Definition cont (n : nat) : bool := within 128 191 n.

(** Well-formed UTF-8 sequences of two, three and four octets. *)
Definition valid2 (a b : nat) : bool := within 194 223 a && cont b.
Definition valid3 (a b c : nat) : bool :=
  ((a =? 224)%nat && within 160 191 b && cont c)
  || (within 225 236 a && cont b && cont c)
  || ((a =? 237)%nat && within 128 159 b && cont c)
  || (within 238 239 a && cont b && cont c).
Definition valid4 (a b c d : nat) : bool :=
  ((a =? 240)%nat && within 144 191 b && cont c && cont d)
  || (within 241 243 a && cont b && cont c && cont d)
  || ((a =? 244)%nat && within 128 143 b && cont c && cont d).

Definition chars (l : list nat) (rest : string) : string :=
  fold_right (fun n acc => String (ascii_of_nat n) acc) rest l.

(** An escaped octet below 128 is that character; a higher one must lead
    a well-formed UTF-8 sequence of escapes, which decodes to the
    character of those octets. *)
Fixpoint decodeTokens (ts : list token) : option string :=
  match ts with
  | [] => Some EmptyString
  | Lit c :: rest => String c <$> decodeTokens rest
  | Esc a :: rest =>
      if (a <? 128)%nat then String (ascii_of_nat a) <$> decodeTokens rest
      else if within 192 223 a then
        match rest with
        | Esc b :: rest' =>
            if valid2 a b then chars [a; b] <$> decodeTokens rest' else None
        | _ => None
        end
      else if within 224 239 a then
        match rest with
        | Esc b :: Esc c :: rest' =>
            if valid3 a b c then chars [a; b; c] <$> decodeTokens rest'
            else None
        | _ => None
        end
      else if within 240 247 a then
        match rest with
        | Esc b :: Esc c :: Esc d :: rest' =>
            if valid4 a b c d then chars [a; b; c; d] <$> decodeTokens rest'
            else None
        | _ => None
        end
      else None
  end.

(** The built-in [decodeURIComponent]; [None] is a thrown [URIError]. *)
Definition decodeURIComponent (s : string) : option string :=
  tokens s ≫= decodeTokens.

End Uri.

(** [.replace(/_/g, ' ')]. *)
Fixpoint replaceUnderscores (s : string) : string :=
  match s with
  | EmptyString => EmptyString
  | String c rest =>
      String (if Ascii.eqb c "_" then space else c) (replaceUnderscores rest)
  end.

(** [.replace(/%0A/gi, '\n')]: matches are taken left to right and do not
    overlap. *)
Fixpoint replacePercent0A (s : string) : string :=
  match s with
  | EmptyString => EmptyString
  | String c rest =>
      match c, rest with
      | "%"%char, String "0" (String a rest') =>
          if Ascii.eqb a "A" || Ascii.eqb a "a"
          then String newline (replacePercent0A rest')
          else String c (replacePercent0A rest)
      | _, _ => String c (replacePercent0A rest)
      end
  end.

(** [decodeText]: an absent or empty text is the empty string; otherwise
    the text is percent-decoded, underscores become spaces and a literal
    [%0A] becomes a line break. *)
Definition decodeText (text : string) : result string :=
  if negb (Js.truthy text) then Ok EmptyString
  else match Uri.decodeURIComponent text with
       | None => Throw URIError
       | Some s => Ok (replacePercent0A (replaceUnderscores s))
       end.

Definition percent : ascii := "%"%char.

(** The code units of a text taken as literal characters. *)
Fixpoint lits (s : string) : list Uri.token :=
  match s with
  | EmptyString => []
  | String c rest => Uri.Lit c :: lits rest
  end.

(** The words of a list of lines: their space-separated pieces, without
    the empty ones. *)
Definition wordsOf (lines : list string) : list string :=
  Js.filterBoolean (flat_map (Js.split space) lines).

(** ** Error messages

    [error.message] of each exception; the exceptions of the platform
    (a rejected fetch, a JSON or image decoding failure, a failed font
    registration) carry the message the platform gave them. *)

Definition dquote : string := String "034"%char EmptyString.

Definition showZ (n : Z) : string := NilEmpty.string_of_int (Z.to_int n).
Definition showNat (n : nat) : string :=
  NilEmpty.string_of_uint (Nat.to_uint n).

Definition message (e : Exn) : string :=
  match e with
  | PathTooShort urlPathname pathParts =>
      "경로 형식이 올바르지 않습니다. "
      +:+ "최소 3개의 경로 요소가 필요합니다. "
      +:+ "(버킷명/경로/이미지파일) 현재 경로: "
      +:+ dquote +:+ urlPathname +:+ dquote +:+ ", 추출된 요소: "
      +:+ showNat (length pathParts) +:+ "개 ["
      +:+ Js.join ", " pathParts +:+ "]"
  | ImagePathTooShort imagePath =>
      "이미지 경로가 올바르지 않습니다. "
      +:+ "최소 폴더명/파일명 구조가 필요합니다. 현재 경로: "
      +:+ dquote +:+ imagePath +:+ dquote
  | BadFontUrl fontUrl reason =>
      "잘못된 폰트 URL: " +:+ fontUrl +:+ " - " +:+ reason
  | FontHttpStatus status statusText =>
      "HTTP " +:+ showZ status +:+ ": " +:+ statusText
  | FontFileEmpty => "폰트 파일이 비어있습니다"
  | ConfigFetchFailed configUrl status =>
      "설정 파일을 가져올 수 없습니다: " +:+ configUrl
      +:+ " (" +:+ showZ status +:+ ")"
  | ImageFetchFailed imageUrl status =>
      "이미지를 가져올 수 없습니다: " +:+ imageUrl
      +:+ " (" +:+ showZ status +:+ ")"
  | URIError => "URI malformed"
  | PlatformError message => message
  end.

(** ** Styles and the layout descriptor *)

Module Style.
(** A style object; an absent key is [None]. *)
Record t : Type := mk {
  x : option Q;
  y : option Q;
  width : option Q;
  height : option Q;
  verticalAlign : option string;
  fontSize : option Q;
  fontFamily : option string;
  fill : option string;
  stroke : option string;
  strokeWidth : option Q;
  textAlign : option string;
  lineHeight : option Q;
  fontWeight : option string;
  backgroundColor : option string;
  padding : option string;
  borderRadius : option string;
  borderWidth : option string;
  borderColor : option string;
  filter : option string;
  whiteSpace : option string
}.

Definition empty : t :=
  mk None None None None None None None None None None
     None None None None None None None None None None.

Definition over {A} (e d : option A) : option A :=
  match e with
  | Some v => Some v
  | None => d
  end.

(** [{ ...defaultStyle, ...elementStyle }]: the element's keys win. *)
Definition spread (defaultStyle elementStyle : t) : t :=
  let pick {A} (f : t -> option A) := over (f elementStyle) (f defaultStyle) in
  mk (pick x) (pick y) (pick width) (pick height) (pick verticalAlign)
     (pick fontSize) (pick fontFamily) (pick fill) (pick stroke)
     (pick strokeWidth) (pick textAlign) (pick lineHeight) (pick fontWeight)
     (pick backgroundColor) (pick padding) (pick borderRadius)
     (pick borderWidth) (pick borderColor) (pick filter) (pick whiteSpace).

(** [style.fontFamily = family]. *)
Definition setFontFamily (family : string) (s : t) : t :=
  mk (x s) (y s) (width s) (height s) (verticalAlign s) (fontSize s)
     (Some family) (fill s) (stroke s) (strokeWidth s) (textAlign s)
     (lineHeight s) (fontWeight s) (backgroundColor s) (padding s)
     (borderRadius s) (borderWidth s) (borderColor s) (filter s)
     (whiteSpace s).
End Style.

Module Descriptor.
(** The parsed configuration document; an absent key is [None]. *)
Record ImageSize : Type := mkImageSize {
  width : option Q;
  height : option Q
}.

Record FontSettings : Type := mkFontSettings {
  mode : option string;
  r2FontFilename : option string
}.

Record Element : Type := mkElement {
  query : option string;
  style : option Style.t;
  useR2Font : bool
}.

Record Config : Type := mkConfig {
  imageSize : option ImageSize;
  elements : list Element;
  defaultStyle : option Style.t;
  fontSettings : option FontSettings
}.
End Descriptor.

Module Img.
(** A decoded base image: only its natural size is inspected. *)
Record t : Type := mk {
  width : Q;
  height : Q
}.
End Img.

(** ** The drawing surface

    A canvas is its size and the drawing calls made on it, oldest first;
    each text call records the context state it was made under.  [DrawBox]
    is the copy of the scratch surface of an element onto the surface: what
    the scratch surface holds (background, filtered pixels, border) follows
    from the style values the call records. *)

Module Font.
(** [ctx.font], the shorthand [weight sizepx family]; the placeholder
    image also uses shorthands without a weight. *)
Record t : Type := mk {
  weight : option string;
  size : Q;
  family : string
}.
End Font.

(** The context state a text call is made under. *)
Record TextState : Type := mkTextState {
  ctxFont : Font.t;
  ctxPaint : string;
  textAlign : string;
  textBaseline : string
}.

Inductive CanvasOp : Type :=
  | DrawImage (image : Img.t) (dx dy dw dh : Q)
  | FillRect (fillStyle : string) (rx ry rw rh : Q)
  | DrawBox (backgroundColor borderRadius borderWidth : option string)
            (borderColor : string) (filter : option string) (bx by_ bw bh : Q)
  | StrokeText (st : TextState) (lineWidth : Q) (line : string) (tx ty : Q)
  | FillText (st : TextState) (line : string) (tx ty : Q).

Record Canvas : Type := mkCanvas {
  canvasWidth : Q;
  canvasHeight : Q;
  ops : list CanvasOp
}.

Definition createCanvas (w h : Q) : Canvas := mkCanvas w h [].

Definition draw (c : Canvas) (new : list CanvasOp) : Canvas :=
  mkCanvas (canvasWidth c) (canvasHeight c) (ops c ++ new).

(** The font families of the text calls made on a canvas, in order. *)
Definition textFamilies (c : Canvas) : list string :=
  flat_map (fun op =>
    match op with
    | FillText st _ _ _ => [Font.family (ctxFont st)]
    | StrokeText st _ _ _ _ => [Font.family (ctxFont st)]
    | _ => []
    end) (ops c).

(** The lines of the [fillText] calls in a list of drawing calls. *)
Definition filledLines (l : list CanvasOp) : list string :=
  flat_map (fun op =>
    match op with
    | FillText _ line _ _ => [line]
    | _ => []
    end) l.

(** The text calls in a list of drawing calls: [true] marks an outline
    ([strokeText]), [false] a filling ([fillText]). *)
Definition textCalls (l : list CanvasOp) : list (bool * string) :=
  flat_map (fun op =>
    match op with
    | StrokeText _ _ line _ _ => [(true, line)]
    | FillText _ line _ _ => [(false, line)]
    | _ => []
    end) l.

(** [canvas.toBuffer(mime)]: the encoding of a canvas, kept symbolic. *)
Inductive Buffer : Type :=
  | Encoded (mime : string) (c : Canvas)
  | Bytes (content : string).

(** ** Greedy word-wrap

    The two nested [forEach] loops shared by [drawTextOnCanvas] and
    [drawElementOnCanvas]; [measure s] is [ctx.measureText(s).width] under
    the font in force and [maxWidth] the width the lines are held to. *)

Definition gt (a b : Q) : bool := negb (Qle_bool a b).

Definition truthyNum (q : Q) : bool := negb (Qeq_bool q 0).

Section Wrap.
Variable measure : string -> Q.
Variable maxWidth : Q.

(** Body of [words.forEach]: the state is the lines pushed so far and the
    line under construction. *)
Definition wrapWord (acc : list string * string) (word : string)
  : list string * string :=
  let '(measuredLines, currentLine) := acc in
  let testLine :=
    currentLine
    +:+ (if Js.truthy currentLine then " " else EmptyString)
    +:+ word in
  if gt (measure testLine) maxWidth && Js.truthy currentLine
  then (measuredLines ++ [currentLine], word)
  else (measuredLines, testLine).

(** The wrapping branch for one hard line. *)
Definition wrapLine (measuredLines : list string) (line : string)
  : list string :=
  let words := Js.split space line in
  let '(measuredLines, currentLine) :=
    fold_left wrapWord words (measuredLines, EmptyString) in
  if Js.truthy currentLine then measuredLines ++ [currentLine]
  else measuredLines.

(** Body of [lines.forEach]: a hard line is wrapped only when it is wider
    than [maxWidth] and [maxWidth] is positive. *)
Definition measureLine (measuredLines : list string) (line : string)
  : list string :=
  if gt (measure line) maxWidth && gt maxWidth 0
  then wrapLine measuredLines line
  else measuredLines ++ [line].
End Wrap.

(** A line fits a width when it measures no more than the width or is a
    single word, a string without a space. *)
Definition fits (measure : string -> Q) (maxWidth : Q) (line : string)
  : Prop :=
  (measure line <= maxWidth)%Q \/ Js.includes space line = false.

(** What the inner loop maintains: the lines pushed so far fit, and so does
    the line under construction. *)
Definition wrapInv (measure : string -> Q) (maxWidth : Q)
    (acc : list string * string) : Prop :=
  Forall (fits measure maxWidth) (fst acc) /\ fits measure maxWidth (snd acc).

(** ** [drawTextOnCanvas] (server.js, and the text-only variant) *)

Definition orDefault {A} (d : A) (o : option A) : A :=
  match o with
  | Some v => v
  | None => d
  end.

Definition ofNat (n : nat) : Q := inject_Z (Z.of_nat n).

Definition isStr (s lit : string) : bool := String.eqb s lit.

(** [ctx.font] as the style sets it. *)
Definition fontOf (style : Style.t) : Font.t :=
  Font.mk (Some (orDefault "normal" (Style.fontWeight style)))
    (orDefault 24%Q (Style.fontSize style))
    (orDefault "sans-serif" (Style.fontFamily style)).

(** The width of the box: the surface width when the style has none. *)
Definition boxWidthOf (ctx : Canvas) (style : Style.t) : Q :=
  orDefault (canvasWidth ctx) (Style.width style).

(** The lines [drawTextOnCanvas] draws: the text is split at line breaks
    and each hard line goes through [measureLine] with the box width. *)
Definition measuredLines (measure : string -> Q) (w : Q) (text : string)
  : list string :=
  fold_left (measureLine measure w) (Js.split newline text) [].

(** [drawTextOnCanvas]: the box and the text attributes are read from the
    style with their defaults, the lines are laid out, aligned, and each is
    stroked, when the style asks for it, and then filled.  The positions
    are those of exact arithmetic; the platform computes them in doubles. *)
Definition drawTextOnCanvas (measureText : Font.t -> string -> Q)
    (ctx : Canvas) (text : string) (style : Style.t) : Canvas :=
  (let x := orDefault 0 (Style.x style) in
  let y := orDefault 0 (Style.y style) in
  let w := boxWidthOf ctx style in
  let h := orDefault (canvasHeight ctx) (Style.height style) in
  let verticalAlign := orDefault "top" (Style.verticalAlign style) in
  let fontSize := orDefault 24 (Style.fontSize style) in
  let fill := orDefault "#000000" (Style.fill style) in
  let stroke := orDefault "#ffffff" (Style.stroke style) in
  let strokeWidth := orDefault 0 (Style.strokeWidth style) in
  let textAlign := orDefault "left" (Style.textAlign style) in
  let lineHeight := orDefault 1.2 (Style.lineHeight style) in
  let font := fontOf style in
  let lineHeightPx := fontSize * lineHeight in
  let measuredLines := measuredLines (measureText font) w text in
  let totalHeight := ofNat (length measuredLines) * lineHeightPx in
  let startY :=
    if isStr verticalAlign "middle" || isStr verticalAlign "center"
    then y + Qmax 0 ((h - totalHeight) / 2)
    else if isStr verticalAlign "bottom"
    then y + Qmax 0 (h - totalHeight)
    else y in
  let textX :=
    if isStr textAlign "center" then x + w / 2
    else if isStr textAlign "right" then x + w
    else x in
  let drawLine (index : nat) (line : string) : list CanvasOp :=
    let lineY := startY + ofNat index * lineHeightPx in
    (if gt strokeWidth 0 && Js.truthy stroke
     then [StrokeText (mkTextState font stroke textAlign "top")
                      strokeWidth line textX lineY]
     else [])
    ++ [FillText (mkTextState font fill textAlign "top") line textX lineY] in
  draw ctx (concat (imap drawLine measuredLines)))%Q.


(** ** The platform and the network

    What the code obtains from outside during one request: the answers of
    the network, the decoders, text measurement and the path and hashing
    helpers of the runtime.  [registerFromPath] is
    [GlobalFonts.registerFromPath]: it reports by the value it returns
    whether the backend took the file as a font ([false] stands for the
    falsy answer of a refusal), and it may throw. *)

Inductive FetchResult : Type :=
  | FetchRejected (reason : string)
  | FetchResponse (status : Z) (statusText : string) (body : string).

Record World : Type := mkWorld {
  fetch : string -> FetchResult;
  json : string -> result Descriptor.Config;
  loadImage : string -> result Img.t;
  measureText : Font.t -> string -> Q;
  md5hex : string -> string;
  urlPathname : string -> result string;
  extname : string -> string;
  registerFromPath : string -> string -> result bool;
  FONT_CACHE_DIR : string;
  envBASE_URL : option string
}.

(** [response.ok]. *)
Definition ok (status : Z) : bool := (200 <=? status)%Z && (status <=? 299)%Z.

(** ** Font cache: [registerFontFromUrl]

    The state that outlives a request is the set of registered family names
    and the files of the cache directory.  Every access to the disk, the
    network and the font backend is recorded, in order. *)

Record ServerState : Type := mkState {
  registeredFonts : gset string;
  files : gmap string string
}.

Inductive IoEvent : Type :=
  | FsExists (path : string)
  | FsRead (path : string)
  | FsWrite (path content : string)
  | NetFetch (url : string)
  | FontRegister (path fontFamily : string).

Definition addRegistered (fontFamily : string) (st : ServerState)
  : ServerState :=
  mkState ({[fontFamily]} ∪ registeredFonts st) (files st).

Definition writeFile (path content : string) (st : ServerState)
  : ServerState :=
  mkState (registeredFonts st) (<[path := content]> (files st)).

(** The last two statements of the [try] block: the answer of the
    backend is not looked at, the family is added whenever the call
    returned. *)
Definition registerCached (w : World) (st : ServerState)
    (cacheFile fontFamily : string) (io : list IoEvent)
  : result unit * ServerState * list IoEvent :=
  match registerFromPath w cacheFile fontFamily with
  | Throw e => (Throw e, st, io ++ [FontRegister cacheFile fontFamily])
  | Ok _ =>
      (Ok tt, addRegistered fontFamily st,
       io ++ [FontRegister cacheFile fontFamily])
  end.

(** [registerFontFromUrl]: the outer [catch] logs and rethrows, so an
    exception leaves the function as it was raised. *)
Definition registerFontFromUrl (w : World) (st : ServerState)
    (fontUrl fontFamily : string)
  : result unit * ServerState * list IoEvent :=
  if bool_decide (fontFamily ∈ registeredFonts st) then (Ok tt, st, [])
  else
    let urlHash := md5hex w fontUrl in
    match urlPathname w fontUrl with
    | Throw urlError => (Throw (BadFontUrl fontUrl (message urlError)), st, [])
    | Ok urlPath =>
        let ext :=
          if Js.truthy (extname w urlPath) then extname w urlPath
          else ".ttf" in
        let cacheFile := FONT_CACHE_DIR w +:+ "/" +:+ urlHash +:+ ext in
        match files st !! cacheFile with
        | Some fontBuffer =>
            registerCached w st cacheFile fontFamily
              [FsExists cacheFile; FsRead cacheFile]
        | None =>
            let io := [FsExists cacheFile; NetFetch fontUrl] in
            match fetch w fontUrl with
            | FetchRejected reason => (Throw (PlatformError reason), st, io)
            | FetchResponse status statusText fontBuffer =>
                if negb (ok status) then
                  (Throw (FontHttpStatus status statusText), st, io)
                else if negb (Js.truthy fontBuffer) then
                  (Throw FontFileEmpty, st, io)
                else
                  registerCached w (writeFile cacheFile fontBuffer st)
                    cacheFile fontFamily
                    (io ++ [FsWrite cacheFile fontBuffer])
            end
        end
    end.

(** The state only grows: every registered family stays registered and
    every cached file stays as it is. *)
Definition grows (st st' : ServerState) : Prop :=
  registeredFonts st ⊆ registeredFonts st' /\ files st ⊆ files st'.

(** An access that is not a network request. *)
Definition offNetwork (ev : IoEvent) : Prop :=
  match ev with
  | NetFetch _ => False
  | _ => True
  end.

(** The file of the cache directory a font URL is kept in. *)
Definition cacheFileOf (w : World) (fontUrl urlPath : string) : string :=
  FONT_CACHE_DIR w +:+ "/" +:+ md5hex w fontUrl
  +:+ (if Js.truthy (extname w urlPath) then extname w urlPath else ".ttf").

(** ** The placeholder image: [createErrorImage] (server.js) *)

Definition plainText (font : Font.t) : TextState :=
  mkTextState font "#000000" "center" "alphabetic".

Definition arial (weight : option string) (size : Q) : Font.t :=
  Font.mk weight size "Arial".

Module ErrorImage.
Section Message.
Variable measure : string -> Q.

(** Body of [words.forEach]: the calls made, the line under
    construction and the height of the next line. *)
Definition step (acc : list CanvasOp * string * Q) (word : string)
  : list CanvasOp * string * Q :=
  let '(out, line, y) := acc in
  let testLine :=
    line +:+ (if Js.truthy line then " " else EmptyString) +:+ word in
  if gt (measure testLine) 750 && Js.truthy line
  then (out ++ [FillText (plainText (arial None 18)) line 400 y],
        word, (y + 25)%Q)
  else (out, testLine, y).

Definition messageOps (message : string) : list CanvasOp :=
  if Js.truthy message then
    let '(out, line, y) :=
      fold_left step (Js.split space message) ([], EmptyString, 450%Q) in
    if Js.truthy line
    then out ++ [FillText (plainText (arial None 18)) line 400 y]
    else out
  else [].
End Message.
End ErrorImage.

Definition createErrorImage (w : World) (message : string) : Buffer :=
  let canvas := createCanvas 800 600 in
  let canvas := draw canvas
    [ FillRect "#C5C5C5" 0 0 800 600;
      FillText (plainText (arial (Some "bold") 120)) "404" 400 200;
      FillText (plainText (arial (Some "bold") 48)) "Not Found" 400 280;
      FillText (plainText (arial None 24))
        "이 이미지는 오류가 발생했을 때 출력되는 이미지입니다." 400 360;
      FillText (plainText (arial None 24)) "!디버깅 필요." 400 400 ] in
  let canvas := draw canvas
    (ErrorImage.messageOps (measureText w (arial None 18)) message) in
  Encoded "image/webp" canvas.

(** ** Requests and responses *)

Record Request : Type := mkRequest {
  originalUrl : string;
  reqQuery : gmap string string
}.

Inductive HeaderValue : Type :=
  | Str (s : string)
  | LengthOf (b : Buffer).

Inductive Body : Type :=
  | NoBody
  | HealthJson (baseUrl : string)
  | Binary (b : Buffer).

Record Response : Type := mkResponse {
  status : Z;
  headers : list (string * HeaderValue);
  body : Body
}.

(** What becomes of a request: a response is sent, or the handler's promise
    rejects and nothing is sent. *)
Inductive Outcome : Type :=
  | Responded (r : Response)
  | Unhandled (e : Exn).

(** [a || d] on strings that may be absent. *)
Definition orString (a : option string) (d : string) : string :=
  match a with
  | Some s => if Js.truthy s then s else d
  | None => d
  end.

Definition BASE_URL (w : World) : string :=
  orString (envBASE_URL w) "https://o.nfarmer.uk".

(** [req.query.baseUrl || process.env.BASE_URL || BASE_URL]. *)
Definition customBaseUrl (w : World) (req : Request) : string :=
  orString (reqQuery req !! "baseUrl") (orString (envBASE_URL w) (BASE_URL w)).

(** The request path without its query string. *)
Definition pathnameOf (req : Request) : string :=
  let pathname := originalUrl req in
  if Js.includes "?" pathname
  then nth 0 (Js.split "?" pathname) EmptyString
  else pathname.

(** The requests the router hands to the wildcard handler: the route
    [/*] captures the path after its first slash and decodes it with
    [decodeURIComponent]; when that throws, the router answers 400 itself
    and the handler is not run. *)
Definition routed (pathname : string) : bool :=
  match Uri.decodeURIComponent (Js.substring1 pathname) with
  | Some _ => true
  | None => false
  end.

(** What the handler answers before any path resolution. *)
Definition reserved (w : World) (pathname : string) : option Response :=
  if isStr pathname "/health" then
    Some (mkResponse 200 [] (HealthJson (BASE_URL w)))
  else if isStr pathname "/favicon.ico" || Js.startsWith pathname "/favicon"
  then Some (mkResponse 404 [] NoBody)
  else if isStr pathname "/robots.txt" then Some (mkResponse 404 [] NoBody)
  else if Js.startsWith pathname "/.well-known"
  then Some (mkResponse 404 [] NoBody)
  else None.

(** [fetch(url).then(r => { if (!r.ok) throw ...; return r })]. *)
Definition fetchOk (w : World) (url : string) (failed : string -> Z -> Exn)
  : result string :=
  match fetch w url with
  | FetchRejected reason => Throw (PlatformError reason)
  | FetchResponse status _ body =>
      if ok status then Ok body else Throw (failed url status)
  end.

Record Fetched : Type := mkFetched {
  pathInfo : PathInfo;
  baseUrlUsed : string;
  config : Descriptor.Config;
  imageBuffer : string
}.

(** Path resolution and the joint fetch of the configuration and the base
    image.  Both requests are issued together; when both fail the model
    reports the failure of the configuration. *)
Definition resolveAndFetch (w : World) (req : Request) (pathname : string)
  : result Fetched :=
  info ← extractPathInfo pathname;
  let customBaseUrl := customBaseUrl w req in
  let imageUrl :=
    buildResourceUrl customBaseUrl (bucketName info) (imagePath info) in
  let configUrl :=
    buildResourceUrl customBaseUrl (bucketName info) (configKey info) in
  configRes ← fetchOk w configUrl ConfigFetchFailed;
  imageRes ← fetchOk w imageUrl ImageFetchFailed;
  config ← json w configRes;
  mret (mkFetched info customBaseUrl config imageRes).

Definition emptyImageSize : Descriptor.ImageSize :=
  Descriptor.mkImageSize None None.
Definition emptyFontSettings : Descriptor.FontSettings :=
  Descriptor.mkFontSettings None None.

Definition imageSizeOf (c : Descriptor.Config) : Descriptor.ImageSize :=
  orDefault emptyImageSize (Descriptor.imageSize c).
Definition fontSettingsOf (c : Descriptor.Config) : Descriptor.FontSettings :=
  orDefault emptyFontSettings (Descriptor.fontSettings c).
Definition defaultStyleOf (c : Descriptor.Config) : Style.t :=
  orDefault Style.empty (Descriptor.defaultStyle c).

(** [a || d] on numbers that may be absent: zero is falsy. *)
Definition orNum (a : option Q) (d : Q) : Q :=
  match a with
  | Some q => if truthyNum q then q else d
  | None => d
  end.

(** [fontSettings.mode === 'r2']. *)
Definition modeIsR2 (fs : Descriptor.FontSettings) : bool :=
  match Descriptor.mode fs with
  | Some m => isStr m "r2"
  | None => false
  end.

(** The font URL, when the configuration declares a font. *)
Definition fontUrlOf (f : Fetched) : option string :=
  let fs := fontSettingsOf (config f) in
  match Descriptor.r2FontFilename fs with
  | Some filename =>
      if modeIsR2 fs && Js.truthy filename then
        let fontPath := configDir (pathInfo f) +:+ "/fonts/" +:+ filename in
        Some (buildResourceUrl (baseUrlUsed f) (bucketName (pathInfo f))
                fontPath)
      else None
  | None => None
  end.

(** [registerFontFromUrl(fontUrl, 'CustomR2Font').catch(... => null)]:
    [true] stands for the value of a registration that returned, [false]
    for the [null] of one that threw or of a configuration without font. *)
Definition loadFont (w : World) (st : ServerState) (fontUrl : option string)
  : bool * ServerState :=
  match fontUrl with
  | Some url =>
      match registerFontFromUrl w st url "CustomR2Font" with
      | (Ok _, st', _) => (true, st')
      | (Throw _, st', _) => (false, st')
      end
  | None => (false, st)
  end.

(** The query parameters without the reserved key. *)
Definition queryParamsOf (req : Request) : gmap string string :=
  delete "baseUrl" (reqQuery req).

(** [el?.query && queryParams.hasOwnProperty(el.query)]. *)
Definition matches (queryParams : gmap string string)
    (el : Descriptor.Element) : bool :=
  match Descriptor.query el with
  | Some q => Js.truthy q && bool_decide (is_Some (queryParams !! q))
  | None => false
  end.

(** [forEach] whose body may throw: the first exception ends the loop. *)
Fixpoint forEach {A S} (body : S -> A -> result S) (l : list A) (s : S)
  : result S :=
  match l with
  | [] => Ok s
  | a :: rest => s' ← body s a; forEach body rest s'
  end.

Definition sendImage (buffer : Buffer) : Response :=
  mkResponse 200
    [ ("Content-Type", Str "image/webp");
      ("Content-Length", LengthOf buffer);
      ("Cache-Control", Str "public, max-age=3600") ]
    (Binary buffer).

(** ** The wildcard handler of server.js *)

Module Server.

(** Body of [textElements.forEach].  The family of the custom font is
    written into the style whenever the element asks for it and the mode
    is [r2]; an empty decoded text ends the iteration before any drawing
    call. *)
Definition drawElement (w : World) (fontSettings : Descriptor.FontSettings)
    (queryParams : gmap string string) (defaultStyle : Style.t)
    (ctx : Canvas) (element : Descriptor.Element) : result Canvas :=
  let style :=
    Style.spread defaultStyle
      (orDefault Style.empty (Descriptor.style element)) in
  let style :=
    if Descriptor.useR2Font element && modeIsR2 fontSettings
    then Style.setFontFamily "CustomR2Font" style
    else style in
  text ← decodeText
    (orDefault EmptyString
       (Descriptor.query element ≫= fun q => queryParams !! q));
  if negb (Js.truthy text) then mret ctx
  else mret (drawTextOnCanvas (measureText w) ctx text style).

(** [imageSize.width || 800] and [imageSize.height || 600]: the size of
    the surface is fixed before the image is decoded. *)
Definition surfaceSize (imageSize : Descriptor.ImageSize) : Q * Q :=
  (orNum (Descriptor.width imageSize) 800,
   orNum (Descriptor.height imageSize) 600).

(** The [try] block after the reserved paths.  The font is registered
    while the image is decoded, so the registration leaves its mark on the
    state also when the decoding fails. *)
Definition render (w : World) (st : ServerState) (req : Request)
    (pathname : string) : result Buffer * ServerState :=
  match resolveAndFetch w req pathname with
  | Throw e => (Throw e, st)
  | Ok f =>
      let '(width, height) := surfaceSize (imageSizeOf (config f)) in
      let '(fontLoaded, st') := loadFont w st (fontUrlOf f) in
      (image ← loadImage w (imageBuffer f);
       let canvas := createCanvas width height in
       let ctx := draw canvas [DrawImage image 0 0 width height] in
       let queryParams := queryParamsOf req in
       let textElements :=
         List.filter (matches queryParams)
           (Descriptor.elements (config f)) in
       ctx ← forEach
         (drawElement w (fontSettingsOf (config f)) queryParams
            (defaultStyleOf (config f)))
         textElements ctx;
       mret (Encoded "image/webp" ctx),
       st')
  end.

(** [app.get('/*', ...)]: the [catch] answers 500 with the placeholder
    drawn from the message of the exception; drawing and encoding the
    placeholder are taken to return, the source has no provision for their
    failure.  The handler is what the router runs on a request it accepts
    ([routed]). *)
Definition handler (w : World) (st : ServerState) (req : Request)
  : Outcome * ServerState :=
  let pathname := pathnameOf req in
  match reserved w pathname with
  | Some res => (Responded res, st)
  | None =>
      match render w st req pathname with
      | (Ok buffer, st') => (Responded (sendImage buffer), st')
      | (Throw error, st') =>
          let errorBuffer := createErrorImage w (message error) in
          (Responded
             (mkResponse 500 [("Content-Type", Str "image/webp")]
                (Binary errorBuffer)),
           st')
      end
  end.

End Server.

(** ** The text-only variant with sequential loading (second program of
       unnamed/part_001): the surface size *)

Module Part001.

(** [imageSize.width || image.width || 800] and the same for the
    height. *)
Definition surfaceSize (imageSize : Descriptor.ImageSize) (image : Img.t)
  : Q * Q :=
  (orNum (Descriptor.width imageSize)
     (orNum (Some (Img.width image)) 800),
   orNum (Descriptor.height imageSize)
     (orNum (Some (Img.height image)) 600)).

End Part001.

(** ** The variant with backgrounds, borders and filters
       (unnamed/part_002) *)

Module Part002.

Record Padding : Type := mkPadding {
  top : Q;
  right : Q;
  bottom : Q;
  left : Q
}.

Definition digit (c : ascii) : option nat :=
  let n := nat_of_ascii c in
  if (48 <=? n)%nat && (n <=? 57)%nat then Some (n - 48) else None.

(** The integers [parseInt] reads exactly: beyond 2^53 it returns the
    nearest number the platform represents, which [pxValues] does not
    follow; the lengths of a padding are taken within this range. *)
Definition safeInteger (n : nat) : Prop := (Z.of_nat n <= 2 ^ 53)%Z.

(** The matches of [/(\d+)px/g], each read by [parseInt]: the maximal
    runs of digits that are followed by [px]. *)
Fixpoint pxValues (s : string) (run : option nat) : list nat :=
  match s with
  | EmptyString => []
  | String c rest =>
      match digit c with
      | Some d => pxValues rest (Some (10 * orDefault 0 run + d))
      | None =>
          match run, c, rest with
          | Some n, "p"%char, String "x" rest' => n :: pxValues rest' None
          | _, _, _ => pxValues rest None
          end
      end
  end.

Definition noPadding : Padding := mkPadding 0 0 0 0.

Definition parsePadding (paddingString : option string) : Padding :=
  match paddingString with
  | None => noPadding
  | Some p =>
      if negb (Js.truthy p) then noPadding
      else match List.map ofNat (pxValues p None) with
           | [a] => mkPadding a a a a
           | [a; b] => mkPadding a b a b
           | [a; b; c; d] => mkPadding a b c d
           | _ => noPadding
           end
  end.

Definition truthyOpt (o : option string) : bool :=
  match o with
  | Some s => Js.truthy s
  | None => false
  end.

(** The hard lines: [nowrap] keeps the text whole, every other mode
    splits it at line breaks. *)
Definition hardLines (whiteSpace text : string) : list string :=
  if isStr whiteSpace "pre" || isStr whiteSpace "pre-wrap"
  then Js.split newline text
  else if isStr whiteSpace "nowrap" then [text]
  else Js.split newline text.

(** Body of [lines.forEach]. *)
Definition layoutLine (measure : string -> Q) (textWidth : Q)
    (whiteSpace : string) (measuredLines : list string) (line : string)
  : list string :=
  if isStr whiteSpace "nowrap" || isStr whiteSpace "pre"
  then measuredLines ++ [line]
  else measureLine measure textWidth measuredLines line.

(** The lines [drawElementOnCanvas] draws. *)
Definition measuredLines (measure : string -> Q) (textWidth : Q)
    (whiteSpace text : string) : list string :=
  fold_left (layoutLine measure textWidth whiteSpace)
    (hardLines whiteSpace text) [].

(** The width left for the text: the box width without the left and
    right padding. *)
Definition textWidthOf (ctx : Canvas) (style : Style.t) : Q :=
  let w := boxWidthOf ctx style in
  let paddingValues := parsePadding (Style.padding style) in
  (w - left paddingValues - right paddingValues)%Q.

Definition whiteSpaceOf (style : Style.t) : string :=
  orDefault "pre-wrap" (Style.whiteSpace style).

(** [drawElementOnCanvas]: the scratch surface is copied onto the surface
    when the style has a filter, a background, a radius or a border; the
    text is then laid out in the box less its padding and drawn as in
    [drawTextOnCanvas]. *)
Definition drawElementOnCanvas (measureText : Font.t -> string -> Q)
    (ctx : Canvas) (text : string) (style : Style.t) : Canvas :=
  (let x := orDefault 0 (Style.x style) in
   let y := orDefault 0 (Style.y style) in
   let w := boxWidthOf ctx style in
   let h := orDefault (canvasHeight ctx) (Style.height style) in
   let verticalAlign := orDefault "top" (Style.verticalAlign style) in
   let fontSize := orDefault 24 (Style.fontSize style) in
   let fill := orDefault "#000000" (Style.fill style) in
   let stroke := orDefault "#ffffff" (Style.stroke style) in
   let strokeWidth := orDefault 0 (Style.strokeWidth style) in
   let textAlign := orDefault "left" (Style.textAlign style) in
   let lineHeight := orDefault 1.2 (Style.lineHeight style) in
   let borderColor := orDefault "#000000" (Style.borderColor style) in
   let needsBgCanvas :=
     truthyOpt (Style.filter style)
     || truthyOpt (Style.backgroundColor style)
     || truthyOpt (Style.borderRadius style)
     || truthyOpt (Style.borderWidth style) in
   let box :=
     if needsBgCanvas
     then [DrawBox (Style.backgroundColor style) (Style.borderRadius style)
             (Style.borderWidth style) borderColor (Style.filter style)
             x y w h]
     else [] in
   let paddingValues := parsePadding (Style.padding style) in
   let textX := x + left paddingValues in
   let textY := y + top paddingValues in
   let textWidth := textWidthOf ctx style in
   let textHeight := h - top paddingValues - bottom paddingValues in
   let font := fontOf style in
   let lineHeightPx := fontSize * lineHeight in
   let measuredLines :=
     measuredLines (measureText font) textWidth (whiteSpaceOf style) text in
   let totalHeight := ofNat (length measuredLines) * lineHeightPx in
   let startY :=
     if isStr verticalAlign "middle" || isStr verticalAlign "center"
     then textY + Qmax 0 ((textHeight - totalHeight) / 2)
     else if isStr verticalAlign "bottom"
     then textY + Qmax 0 (textHeight - totalHeight)
     else textY in
   let textXPos :=
     if isStr textAlign "center" then textX + textWidth / 2
     else if isStr textAlign "right" then textX + textWidth
     else textX in
   let drawLine (index : nat) (line : string) : list CanvasOp :=
     let lineY := startY + ofNat index * lineHeightPx in
     (if gt strokeWidth 0 && Js.truthy stroke
      then [StrokeText (mkTextState font stroke textAlign "top")
              strokeWidth line textXPos lineY]
      else [])
     ++ [FillText (mkTextState font fill textAlign "top")
           line textXPos lineY] in
   draw ctx (box ++ concat (imap drawLine measuredLines)))%Q.

(** [fontUrl && fontLoaded !== null && registeredFonts.has('CustomR2Font')]. *)
Definition r2FontAvailable (fontUrl : option string) (fontLoaded : bool)
    (st : ServerState) : bool :=
  bool_decide (is_Some fontUrl) && fontLoaded
  && bool_decide ("CustomR2Font" ∈ registeredFonts st).

(** The style an element is drawn with: the family of the custom font is
    written only when that font is available; otherwise the merged style
    keeps the family it declares. *)
Definition styleOf (fontSettings : Descriptor.FontSettings)
    (r2FontAvailable : bool) (defaultStyle : Style.t)
    (element : Descriptor.Element) : Style.t :=
  let style :=
    Style.spread defaultStyle
      (orDefault Style.empty (Descriptor.style element)) in
  if Descriptor.useR2Font element && modeIsR2 fontSettings
     && r2FontAvailable
  then Style.setFontFamily "CustomR2Font" style
  else style.

(** Body of [textElements.forEach]. *)
Definition drawElement (w : World) (fontSettings : Descriptor.FontSettings)
    (r2FontAvailable : bool) (queryParams : gmap string string)
    (defaultStyle : Style.t) (ctx : Canvas) (element : Descriptor.Element)
  : result Canvas :=
  let style := styleOf fontSettings r2FontAvailable defaultStyle element in
  text ← decodeText
    (orDefault EmptyString
       (Descriptor.query element ≫= fun q => queryParams !! q));
  if negb (Js.truthy text) then mret ctx
  else mret (drawElementOnCanvas (measureText w) ctx text style).

(** [imageSize.width || 800] and [imageSize.height || 600]. *)
Definition surfaceSize (imageSize : Descriptor.ImageSize) : Q * Q :=
  (orNum (Descriptor.width imageSize) 800,
   orNum (Descriptor.height imageSize) 600).

(** The [try] block after the reserved paths. *)
Definition render (w : World) (st : ServerState) (req : Request)
    (pathname : string) : result Buffer * ServerState :=
  match resolveAndFetch w req pathname with
  | Throw e => (Throw e, st)
  | Ok f =>
      let '(width, height) := surfaceSize (imageSizeOf (config f)) in
      let fontUrl := fontUrlOf f in
      let '(fontLoaded, st') := loadFont w st fontUrl in
      (image ← loadImage w (imageBuffer f);
       let available := r2FontAvailable fontUrl fontLoaded st' in
       let canvas := createCanvas width height in
       let ctx := draw canvas [DrawImage image 0 0 width height] in
       let queryParams := queryParamsOf req in
       let textElements :=
         List.filter (matches queryParams)
           (Descriptor.elements (config f)) in
       ctx ← forEach
         (drawElement w (fontSettingsOf (config f)) available queryParams
            (defaultStyleOf (config f)))
         textElements ctx;
       mret (Encoded "image/webp" ctx),
       st')
  end.

Definition errorImageUrl : string :=
  "https://pub-45268c10da744ce58e66952c8d0c50ba.r2.dev/404.webp".

(** The [catch] block: the placeholder is fetched from a fixed URL and
    its bytes are sent as they arrive, whatever the status of the answer;
    a rejected fetch rejects the handler. *)
Definition sendErrorImage (w : World) : Outcome :=
  match fetch w errorImageUrl with
  | FetchRejected reason => Unhandled (PlatformError reason)
  | FetchResponse _ _ errorBody =>
      let errorBuffer := Bytes errorBody in
      Responded
        (mkResponse 500
           [ ("Content-Type", Str "image/webp");
             ("Content-Length", LengthOf errorBuffer) ]
           (Binary errorBuffer))
  end.

(** [app.get('/*', ...)]. *)
Definition handler (w : World) (st : ServerState) (req : Request)
  : Outcome * ServerState :=
  let pathname := pathnameOf req in
  match reserved w pathname with
  | Some res => (Responded res, st)
  | None =>
      match render w st req pathname with
      | (Ok buffer, st') => (Responded (sendImage buffer), st')
      | (Throw error, st') => (sendErrorImage w, st')
      end
  end.

End Part002.

(** A length in pixels as a configuration writes it. *)
Definition px (n : nat) : string := showNat n +:+ "px".

(** ** A concrete world

    One deployment to evaluate the code on: the bucket [kbd] holds the
    image [A/A/EMO/A/1.webp], a 1024 by 768 picture, and the configuration
    [A/A/EMO/A.json], which declares no image size, the font file [f.ttf]
    in mode [r2] and one element bound to the query key [t], drawn in
    [Arial] unless the custom font takes over.  Every other URL answers 404
    with an empty body.  A character measures 10 pixels; the hash, the URL
    parser and the extension are stand-ins that serve the one font URL. *)

Module Demo.

Definition measureText (f : Font.t) (s : string) : Q :=
  (ofNat (String.length s) * 10)%Q.

Definition declared : Style.t :=
  Style.setFontFamily "Arial" Style.empty.

Definition element : Descriptor.Element :=
  Descriptor.mkElement (Some "t") None true.

Definition config : Descriptor.Config :=
  Descriptor.mkConfig None [element] (Some declared)
    (Some (Descriptor.mkFontSettings (Some "r2") (Some "f.ttf"))).

Definition json (body : string) : result Descriptor.Config :=
  if isStr body "{...}" then Ok config
  else Throw (PlatformError "Unexpected end of JSON input").

Definition loadImage (bytes : string) : result Img.t :=
  if isStr bytes "RIFF" then Ok (Img.mk 1024 768)
  else Throw (PlatformError "Unsupported image type").

Definition fontUrl : string :=
  "https://o.nfarmer.uk/kbd/A/A/EMO/fonts/f.ttf".

(** The network: [fontOnline] tells whether the font file is served. *)
Definition fetch (fontOnline : bool) (url : string) : FetchResult :=
  if isStr url "https://o.nfarmer.uk/kbd/A/A/EMO/A.json"
  then FetchResponse 200 "OK" "{...}"
  else if isStr url "https://o.nfarmer.uk/kbd/A/A/EMO/A/1.webp"
  then FetchResponse 200 "OK" "RIFF"
  else if fontOnline && isStr url fontUrl
  then FetchResponse 200 "OK" "OTTO"
  else FetchResponse 404 "Not Found" EmptyString.

Definition world (fontOnline : bool) : World :=
  mkWorld (fetch fontOnline) json loadImage measureText
    (fun url => showNat (String.length url))
    (fun url => Ok "/kbd/A/A/EMO/fonts/f.ttf")
    (fun path => ".ttf")
    (fun path fontFamily => Ok true)
    "/srv/.font_cache" None.

(** The same deployment when no connection can be made at all. *)
Definition offline : World :=
  mkWorld (fun url => FetchRejected "connect ECONNREFUSED") json loadImage
    measureText
    (fun url => showNat (String.length url))
    (fun url => Ok "/kbd/A/A/EMO/fonts/f.ttf")
    (fun path => ".ttf")
    (fun path fontFamily => Ok true)
    "/srv/.font_cache" None.

(** The same deployment when the font file is served, but is not a font
    the backend can load: the backend refuses it without throwing. *)
Definition refusing : World :=
  mkWorld (fetch true) json loadImage measureText
    (fun url => showNat (String.length url))
    (fun url => Ok "/kbd/A/A/EMO/fonts/f.ttf")
    (fun path => ".ttf")
    (fun path fontFamily => Ok false)
    "/srv/.font_cache" None.

(** A host of the internal network that serves the same bucket, and a
    request that names it as base URL. *)
Definition intranet : World :=
  mkWorld
    (fun url =>
       if isStr url "http://169.254.169.254/latest/kbd/A/A/EMO/A.json"
       then FetchResponse 200 "OK" "{...}"
       else if isStr url
                 "http://169.254.169.254/latest/kbd/A/A/EMO/A/1.webp"
       then FetchResponse 200 "OK" "RIFF"
       else FetchResponse 404 "Not Found" EmptyString)
    json loadImage measureText
    (fun url => showNat (String.length url))
    (fun url => Ok "/kbd/A/A/EMO/fonts/f.ttf")
    (fun path => ".ttf")
    (fun path fontFamily => Ok true)
    "/srv/.font_cache" None.

Definition intranetRequest : Request :=
  mkRequest "/kbd/A/A/EMO/A/1.webp?baseUrl=http://169.254.169.254/latest"
    {["baseUrl" := "http://169.254.169.254/latest"]}.

Definition fresh : ServerState := mkState ∅ ∅.

Definition request : Request :=
  mkRequest "/kbd/A/A/EMO/A/1.webp?t=hi" {["t" := "hi"]}.

(** The element bound to [t] and a query that gives it an underscore, or
    nothing. *)
Definition underscore : gmap string string := {["t" := "_"]}.
Definition blank : gmap string string := {["t" := EmptyString]}.

Definition malformed : Request :=
  mkRequest "/kbd/1.webp" ∅.

Definition localRequest : Request :=
  mkRequest "/kbd/A/A/EMO/A/1.webp?baseUrl=http://localhost:9000"
    {["baseUrl" := "http://localhost:9000"]}.

(** A box of width 20 with 10 pixels of padding on each side. *)
Definition narrow : Style.t :=
  Style.mk None None (Some 20%Q) None None None None None None None
    None None None None (Some "10px") None None None None None.

(** A box of width 100 without padding. *)
Definition box100 : Style.t :=
  Style.mk None None (Some 100%Q) None None None None None None None
    None None None None None None None None None None.

Definition surface : Canvas := createCanvas 800 600.

End Demo.

(** ** The affection window (first program of unnamed/part_001)

    A second service kept in the repository: from a JSON description and
    the [Value] query parameter it draws a status window (a box, a
    portrait, a name, the value and a gauge) and answers with its WebP
    encoding.  The description is read with [layout] and [styles] of each
    part side by side: a missing object reads as the empty object and a
    missing field as [undefined].  What the platform computes by its own
    parsers and printers (number formatting, the rounded percentage,
    [parseInt]) is obtained from the platform, like text measurement.  The
    arithmetic of the gauge is carried out as the platform does it: each
    operation is the exact one followed by the rounding [fl] of its result
    to a number the platform represents.  The coordinates of the other
    calls are written exactly. *)

Module Affection.

Record Container : Type := mkContainer {
  containerWidth : option Q;
  containerHeight : option Q;
  backgroundColor : option string;
  borderWidth : option Q;
  borderColor : option string;
  borderRadius : option Q
}.

Record Portrait : Type := mkPortrait {
  portraitX : option Q;
  portraitY : option Q;
  portraitWidth : option Q;
  portraitHeight : option Q;
  portraitRadius : option Q;
  portraitBorderWidth : option Q;
  portraitBorderColor : option string
}.

Record Label : Type := mkLabel {
  fontWeight : option string;
  fontSize : option Q;
  color : option string;
  labelAlign : option string;
  labelX : option Q;
  labelY : option Q
}.

Record Bar : Type := mkBar {
  barX : option Q;
  barY : option Q;
  barWidth : option Q;
  barHeight : option Q;
  barRadius : option Q;
  barBackgroundColor : option string;
  barFillColor : option string
}.

(** [characterName] is [Some] only for a JSON string; [affectionValue]
    reads the label fields it uses and its [format]. *)
Record Config : Type := mkConfig {
  container : Container;
  imageUrl : option string;
  characterImage : Portrait;
  characterName : option string;
  characterNameStyle : Label;
  affectionValue : Label;
  format : option string;
  maxAffection : option Q;
  affectionBar : Bar
}.

(** The calls made on the window, oldest first: a rounded rectangle traced
    by [drawRoundedRect] and filled or stroked, an image clipped to a
    rounded rectangle ([drawRoundedImage]), a text. *)
Inductive Op : Type :=
  | FillRounded (fillStyle : string) (x y width height radius : Q)
  | StrokeRounded (strokeStyle : string)
                  (lineWidth x y width height radius : Q)
  | RoundedImage (image : Img.t) (x y width height radius : Q)
  | Text (font : Font.t) (fillStyle align text : string) (x y : Q).

Record Surface : Type := mkSurface {
  surfaceWidth : Q;
  surfaceHeight : Q;
  calls : list Op
}.

Record Platform : Type := mkPlatform {
  world : World;
  (** [jsonRes.json()] *)
  parseConfig : string -> result Config;
  (** [loadImage(url)] *)
  loadImageUrl : string -> result Img.t;
  (** [parseInt(req.query.Value)], [None] for [NaN] *)
  parseInt : option string -> option Z;
  (** a number in a template literal *)
  numberToString : Q -> string;
  (** [Math.round((value / max) * 100)] in a template literal *)
  roundedPercent : Q -> Q -> string;
  (** the rounding of the result of an arithmetic operation *)
  fl : Q -> Q;
  (** what [canvas.toBuffer(mime)] throws on a placeholder, if it does *)
  toBufferError : string -> Canvas -> option Exn
}.

Definition formatAffectionValue (p : Platform) (value max : Q)
    (format : string) : string :=
  if isStr format "fraction"
  then numberToString p value +:+ "/" +:+ numberToString p max
  else if isStr format "percent" then roundedPercent p value max +:+ "%"
  else numberToString p value.

(** The family list of both texts. *)
Definition family : string :=
  dquote +:+ "Noto Sans CJK KR" +:+ dquote +:+ ", "
  +:+ dquote +:+ "DejaVu Sans" +:+ dquote +:+ ", "
  +:+ dquote +:+ "Liberation Sans" +:+ dquote +:+ ", sans-serif".

(** The box and its border. *)
Definition frame (c : Container) : list Op :=
  (let containerWidth := orNum (containerWidth c) 400 in
   let containerHeight := orNum (containerHeight c) 200 in
   let bgColor := orString (backgroundColor c) "#f0f0f0" in
   let borderWidth := orNum (borderWidth c) 2 in
   let borderColor := orString (borderColor c) "#333" in
   let borderRadius := orNum (borderRadius c) 10 in
   FillRounded bgColor 0 0 containerWidth containerHeight borderRadius
   :: (if gt borderWidth 0
       then [StrokeRounded borderColor borderWidth
               (borderWidth / 2) (borderWidth / 2)
               (containerWidth - borderWidth)
               (containerHeight - borderWidth)
               (borderRadius - borderWidth / 2)]
       else []))%Q.

(** The portrait: decoded from the downloaded bytes when there are some,
    from the URL otherwise; a failure of the decoder is logged and the
    portrait left out. *)
Definition portrait (p : Platform) (cfg : Config)
    (imageBuffer : option string) : list Op :=
  match imageUrl cfg with
  | Some url =>
      if Js.truthy url then
        let image :=
          match imageBuffer with
          | Some bytes => loadImage (world p) bytes
          | None => loadImageUrl p url
          end in
        match image with
        | Ok image =>
            let imgConfig := characterImage cfg in
            let imgX := orNum (portraitX imgConfig) 10 in
            let imgY := orNum (portraitY imgConfig) 50 in
            let imgWidth := orNum (portraitWidth imgConfig) 100 in
            let imgHeight := orNum (portraitHeight imgConfig) 100 in
            let imgRadius := orNum (portraitRadius imgConfig) 50 in
            let imgBorderWidth := orNum (portraitBorderWidth imgConfig) 2 in
            let imgBorderColor :=
              orString (portraitBorderColor imgConfig) "#cccccc" in
            RoundedImage image imgX imgY imgWidth imgHeight imgRadius
            :: (if gt imgBorderWidth 0
                then [StrokeRounded imgBorderColor imgBorderWidth
                        imgX imgY imgWidth imgHeight imgRadius]
                else [])
        | Throw _ => []
        end
      else []
  | None => []
  end.

Definition nameText (cfg : Config) : list Op :=
  let nameStyles := characterNameStyle cfg in
  let nameText := orDefault EmptyString (characterName cfg) in
  if Js.truthy nameText then
    [Text (Font.mk (Some (orString (fontWeight nameStyles) "bold"))
             (orNum (fontSize nameStyles) 20) family)
       (orString (color nameStyles) "#000000")
       (orString (labelAlign nameStyles) "left")
       nameText
       (orNum (labelX nameStyles) 10) (orNum (labelY nameStyles) 10)]
  else [].

Definition maxAffectionOf (cfg : Config) : Q :=
  orNum (maxAffection cfg) 100.

Definition valueText (p : Platform) (cfg : Config) (value : Q) : list Op :=
  let valueStyles := affectionValue cfg in
  let valueFormat := orString (format cfg) "number" in
  [Text (Font.mk (Some (orString (fontWeight valueStyles) "normal"))
           (orNum (fontSize valueStyles) 18) family)
     (orString (color valueStyles) "#333") "left"
     (formatAffectionValue p value (maxAffectionOf cfg) valueFormat)
     (orNum (labelX valueStyles) 200) (orNum (labelY valueStyles) 100)].

(** What is known of the rounding: it keeps the order of the results, and
    it leaves 0, 1 and 100, which the platform represents, as they are. *)
Definition rounds (p : Platform) : Prop :=
  (forall x y : Q, (x <= y)%Q -> (fl p x <= fl p y)%Q) /\
  (fl p 0 == 0)%Q /\ (fl p 1 == 1)%Q /\ (fl p 100 == 100)%Q.

(** [Math.min(100, Math.max(0, (value / maxAffection) * 100))]. *)
Definition fillPercent (p : Platform) (value maxAffection : Q) : Q :=
  Qmin 100 (Qmax 0 (fl p (fl p (value / maxAffection) * 100))).

(** [(barWidth * fillPercent) / 100]. *)
Definition fillWidth (p : Platform) (barWidth value maxAffection : Q) : Q :=
  fl p (fl p (barWidth * fillPercent p value maxAffection) / 100).

(** The gauge: its track, then the filled part when it has a width. *)
Definition gauge (p : Platform) (bar : Bar) (maxAffection value : Q)
  : list Op :=
  let barX := orNum (barX bar) 200 in
  let barY := orNum (barY bar) 120 in
  let barWidth := orNum (barWidth bar) 180 in
  let barHeight := orNum (barHeight bar) 20 in
  let barRadius := orNum (barRadius bar) 10 in
  let barBgColor := orString (barBackgroundColor bar) "#e0e0e0" in
  let barFillColor := orString (barFillColor bar) "#4CAF50" in
  let fillWidth := fillWidth p barWidth value maxAffection in
  FillRounded barBgColor barX barY barWidth barHeight barRadius
  :: (if gt fillWidth 0
      then [FillRounded barFillColor barX barY fillWidth barHeight barRadius]
      else []).

(** No call on the window throws, so the [catch] that logs and rethrows is
    never entered and a window is always returned. *)
Definition renderAffectionWindow (p : Platform) (cfg : Config) (value : Q)
    (imageBuffer : option string) : Surface :=
  mkSurface (orNum (containerWidth (container cfg)) 400)
    (orNum (containerHeight (container cfg)) 200)
    (frame (container cfg)
     ++ portrait p cfg imageBuffer
     ++ nameText cfg
     ++ valueText p cfg value
     ++ gauge p (affectionBar cfg) (maxAffectionOf cfg) value).

(** *** The placeholder of this program *)

Section Message.
Variable measure : string -> Q.

Definition step (acc : list CanvasOp * string * Q) (word : string)
  : list CanvasOp * string * Q :=
  let '(out, line, y) := acc in
  let testLine :=
    line +:+ (if Js.truthy line then " " else EmptyString) +:+ word in
  if gt (measure testLine) 700 && Js.truthy line
  then (out ++ [FillText (plainText (arial None 24)) line 400 y],
        word, (y + 30)%Q)
  else (out, testLine, y).

Definition messageOps (message : string) : list CanvasOp :=
  let words :=
    Js.split space
      (if Js.truthy message then message else "Unknown error") in
  let '(out, line, y) := fold_left step words ([], EmptyString, 320%Q) in
  if Js.truthy line
  then out ++ [FillText (plainText (arial None 24)) line 400 y]
  else out.
End Message.

(** [canvas.toBuffer(mime)]. *)
Definition toBuffer (p : Platform) (mime : string) (canvas : Canvas)
  : result Buffer :=
  match toBufferError p mime canvas with
  | Some e => Throw e
  | None => Ok (Encoded mime canvas)
  end.

(** The image drawn by the outer [catch]. *)
Definition bareErrorImage : Canvas :=
  draw (createCanvas 800 600)
    [ FillRect "#C5C5C5" 0 0 800 600;
      FillText (plainText (arial (Some "bold") 48)) "Error" 400 300 ].

(** The surface drawn in the [try] block of [createErrorImage]. *)
Definition errorCanvas (w : World) (message : string) : Canvas :=
  let canvas := createCanvas 800 600 in
  let canvas := draw canvas
    [ FillRect "#C5C5C5" 0 0 800 600;
      FillText (plainText (arial (Some "bold") 48)) "Error" 400 250 ] in
  draw canvas (messageOps (measureText w (arial None 24)) message).

(** The placeholder is encoded as WebP, as PNG when the WebP encoder
    throws, and when that throws too the outer [catch] encodes a bare image
    as PNG, outside any [try].  The drawing calls themselves return. *)
Definition createErrorImage (p : Platform) (message : string)
  : result Buffer :=
  let canvas := errorCanvas (world p) message in
  match toBuffer p "image/webp" canvas with
  | Ok buffer => Ok buffer
  | Throw webpError =>
      match toBuffer p "image/png" canvas with
      | Ok buffer => Ok buffer
      | Throw error => toBuffer p "image/png" bareErrorImage
      end
  end.

(** *** The route [/:bucket/:name.json] *)

Record Request : Type := mkRequest {
  bucket : string;
  name : string;
  Value : option string
}.

Inductive Body : Type :=
  | Window (s : Surface)
  | Placeholder (b : Buffer).

(** [ContentLength] is the length of the body sent. *)
Inductive Header : Type :=
  | ContentType (mime : string)
  | ContentLength
  | CacheControl (directive : string).

Record Response : Type := mkResponse {
  status : Z;
  headers : list Header;
  body : Body
}.

(** What becomes of a request: an answer is sent, or the handler rejects
    with what its [catch] block threw and nothing is sent. *)
Inductive Outcome : Type :=
  | Answered (r : Response)
  | Rejected (e : Exn).

(** The [Error] thrown when the description is not served. *)
Definition jsonUnavailable (jsonUrl : string) (status : Z) : Exn :=
  PlatformError
    ("JSON 파일을 가져올 수 없습니다: " +:+ jsonUrl
     +:+ " (" +:+ showZ status +:+ ")").

Definition jsonUrlOf (p : Platform) (req : Request) : string :=
  BASE_URL (world p) +:+ "/" +:+ bucket req +:+ "/" +:+ name req
  +:+ ".json".

(** The bytes of the portrait, downloaded ahead of the rendering; [None]
    is the [null] left by a description without URL or a failed
    download. *)
Definition download (p : Platform) (cfg : Config) : option string :=
  match imageUrl cfg with
  | Some url =>
      if Js.truthy url then
        match fetchOk (world p) url ImageFetchFailed with
        | Ok bytes => Some bytes
        | Throw _ => None
        end
      else None
  | None => None
  end.

(** The [try] block up to the encoding. *)
Definition attempt (p : Platform) (req : Request) : result Surface :=
  let value := inject_Z (orDefault 0%Z (parseInt p (Value req))) in
  jsonRes ← fetchOk (world p) (jsonUrlOf p req) jsonUnavailable;
  config ← parseConfig p jsonRes;
  let imageBuffer := download p config in
  mret (renderAffectionWindow p config value imageBuffer).

(** The window itself is taken to encode; the placeholder goes through
    the fallbacks of [createErrorImage], and whatever it is encoded as, it
    is sent as [image/webp]. *)
Definition handler (p : Platform) (req : Request) : Outcome :=
  match attempt p req with
  | Ok canvas =>
      Answered
        (mkResponse 200
           [ ContentType "image/webp"; ContentLength;
             CacheControl "public, max-age=3600" ]
           (Window canvas))
  | Throw error =>
      match createErrorImage p (message error) with
      | Ok errorBuffer =>
          Answered
            (mkResponse 500 [ContentType "image/webp"; ContentLength]
               (Placeholder errorBuffer))
      | Throw e => Rejected e
      end
  end.

(** A description without portrait URL. *)
Definition withoutPortrait (cfg : Config) : Config :=
  mkConfig (container cfg) None (characterImage cfg) (characterName cfg)
    (characterNameStyle cfg) (affectionValue cfg) (format cfg)
    (maxAffection cfg) (affectionBar cfg).

End Affection.

(** ** A concrete affection window

    The bucket [kbd] serves the description [mina.json]: a gauge out of 100
    in the default layout and a portrait at a URL that answers 404 and that
    the decoder cannot load either.  Numbers are printed by their integer
    part, which serves the integers used here, and arithmetic results are
    rounded down to a multiple of 1/1024. *)

Module AffectionDemo.

Definition noLabel : Affection.Label :=
  Affection.mkLabel None None None None None None.

Definition config : Affection.Config :=
  Affection.mkConfig
    (Affection.mkContainer None None None (Some 0%Q) None None)
    (Some "https://o.nfarmer.uk/kbd/mina.png")
    (Affection.mkPortrait None None None None None None None)
    (Some "Mina") noLabel noLabel (Some "fraction") None
    (Affection.mkBar None None None None None None None).

(** A description that switches the border off with a negative width. *)
Definition borderless : Affection.Container :=
  Affection.mkContainer None None None (Some (-1)%Q) None None.

(** A rounding: to the multiple of 1/1024 at or below. *)
Definition roundQ (q : Q) : Q := (Qfloor (q * 1024) # 1024).

Definition fetch (url : string) : FetchResult :=
  if isStr url "https://o.nfarmer.uk/kbd/mina.json"
  then FetchResponse 200 "OK" "{...}"
  else FetchResponse 404 "Not Found" EmptyString.

Definition world : World :=
  mkWorld fetch Demo.json Demo.loadImage Demo.measureText
    (fun url => showNat (String.length url))
    (fun url => Ok "/") (fun path => ".ttf")
    (fun path fontFamily => Ok true)
    "/srv/.font_cache" None.

Definition parseConfig (body : string) : result Affection.Config :=
  if isStr body "{...}" then Ok config
  else Throw (PlatformError "Unexpected end of JSON input").

Definition platform : Affection.Platform :=
  Affection.mkPlatform world parseConfig
    (fun url => Throw (PlatformError "Unsupported image type"))
    (fun v => match v with Some "75" => Some 75%Z | _ => None end)
    (fun q => showZ (Qfloor q))
    (fun value max => showZ (Qfloor (value / max * 100 + (1 # 2))))
    roundQ
    (fun mime canvas => None).

(** The same platform with a WebP encoder that is out of order. *)
Definition noWebp : Affection.Platform :=
  Affection.mkPlatform world parseConfig
    (fun url => Throw (PlatformError "Unsupported image type"))
    (fun v => match v with Some "75" => Some 75%Z | _ => None end)
    (fun q => showZ (Qfloor q))
    (fun value max => showZ (Qfloor (value / max * 100 + (1 # 2))))
    roundQ
    (fun mime canvas =>
       if isStr mime "image/webp"
       then Some (PlatformError "Failed to encode") else None).

(** A request for a description the bucket does not hold. *)
Definition missing : Affection.Request :=
  Affection.mkRequest "kbd" "nobody" None.

Definition request : Affection.Request :=
  Affection.mkRequest "kbd" "mina" (Some "75").

End AffectionDemo.

(** * Properties *)

(** ** Splitting and joining *)

Section SplitJoin.
Variable sep : ascii.

Lemma split_not_nil (s : string) : Js.split sep s <> [].
Proof.
  destruct s as [|c s]; simpl; [discriminate|].
  destruct (Ascii.eqb c sep); [discriminate|].
  destruct (Js.split sep s); discriminate.
Qed.

(** No segment of a split contains the separator. *)
Lemma split_free (s w : string) :
  In w (Js.split sep s) -> Js.includes sep w = false.
Proof.
  revert w. induction s as [|c s IH]; simpl; intros w Hin.
  - destruct Hin as [<-|[]]. reflexivity.
  - destruct (Ascii.eqb c sep) eqn:Hc.
    + destruct Hin as [<-|Hin]; [reflexivity|auto].
    + destruct (Js.split sep s) as [|v vs] eqn:Hs.
      * destruct Hin as [<-|[]]. simpl. now rewrite Hc.
      * destruct Hin as [<-|Hin].
        -- simpl. rewrite Hc. apply IH. now left.
        -- apply IH. now right.
Qed.

(** A string without the separator is its own single segment. *)
Lemma split_one (w : string) :
  Js.includes sep w = false -> Js.split sep w = [w].
Proof.
  induction w as [|c w IH]; simpl; [reflexivity|].
  intros H. apply orb_false_iff in H as [Hc Hw].
  rewrite Hc, (IH Hw). reflexivity.
Qed.

Lemma split_app_sep (w rest : string) :
  Js.includes sep w = false ->
  Js.split sep (w +:+ String sep rest) = w :: Js.split sep rest.
Proof.
  induction w as [|c w IH]; simpl; intros H.
  - now rewrite Ascii.eqb_refl.
  - apply orb_false_iff in H as [Hc Hw].
    rewrite Hc, (IH Hw). reflexivity.
Qed.

(** Splitting the join of separator-free segments gives the segments
    back. *)
Lemma split_join (l : list string) :
  l <> [] ->
  Forall (fun w => Js.includes sep w = false) l ->
  Js.split sep (Js.join (String sep EmptyString) l) = l.
Proof.
  induction l as [|w l IH]; [congruence|].
  intros _ Hall. inversion Hall as [|? ? Hw Hl]; subst.
  destruct l as [|v l'].
  - simpl. now apply split_one.
  - change (Js.join (String sep EmptyString) (w :: v :: l'))
      with (w +:+ String sep (Js.join (String sep EmptyString) (v :: l'))).
    rewrite split_app_sep by assumption.
    f_equal. apply IH; [discriminate|assumption].
Qed.

(** The number of segments is one more than the number of separators. *)
Lemma split_length (s : string) :
  length (Js.split sep s) = S (Js.count sep s).
Proof.
  induction s as [|c s IH]; simpl; [reflexivity|].
  destruct (Ascii.eqb c sep).
  - simpl. now rewrite IH.
  - destruct (Js.split sep s) as [|v vs] eqn:Hs.
    + now destruct (split_not_nil s).
    + simpl in *. exact IH.
Qed.

End SplitJoin.

Lemma startsWith_iff (s p : string) :
  Js.startsWith s p = true <-> exists rest, s = p +:+ rest.
Proof.
  unfold Js.startsWith. revert s.
  induction p as [|c p IH]; intros s; simpl.
  - split; [intros _; exists s; reflexivity|].
    intros _. now destruct s.
  - destruct s as [|d s]; simpl.
    + split; [discriminate|]. intros [rest H]. discriminate.
    + destruct (ascii_dec c d) as [->|Hne].
      * rewrite IH. split; intros [rest H]; exists rest.
        -- now rewrite H.
        -- simpl in H. injection H as H. exact H.
      * split; [discriminate|]. intros [rest H]. simpl in H.
        injection H as Hd _. congruence.
Qed.

(** ** The path descriptor resolver *)

Lemma pathParts_free (p : string) :
  Forall (fun w => Js.includes slash w = false) (pathParts p).
Proof.
  unfold pathParts, Js.filterBoolean. apply List.Forall_forall. intros w Hin.
  apply List.filter_In in Hin as [Hin _]. eapply split_free, Hin.
Qed.

(** The resource sub-path of a path with at least three segments splits
    back into the segments after the bucket. *)
Lemma resource_roundtrip (p bucket : string) (resource : list string) :
  pathParts p = bucket :: resource ->
  resource <> [] ->
  Js.split slash (Js.join "/" resource) = resource.
Proof.
  intros Hp Hne.
  pose proof (pathParts_free p) as Hfree. rewrite Hp in Hfree.
  inversion Hfree; subst.
  apply (split_join slash); assumption.
Qed.

(** C1 (what the code returns): for every path with at least three
    non-empty segments, [extractPathInfo] returns the first segment as
    bucket, the remaining segments joined by slashes as image path (they
    number at least two and split back unchanged), the segments before the
    last two joined by slashes as configuration directory, the
    second-to-last segment as folder name, and as configuration key always
    the directory, a slash, the folder name and [.json], also when the
    directory is empty; for [/kbd/A/A/EMO/A/1.webp] this is the descriptor
    of the documentation. *)
Theorem extractPathInfo_resolves (urlPathname : string) :
  (3 <= length (pathParts urlPathname))%nat ->
  (exists bucket resource,
     pathParts urlPathname = bucket :: resource /\
     (2 <= length resource)%nat /\
     Js.split slash (Js.join "/" resource) = resource /\
     let dir := Js.join "/" (firstn (length resource - 2) resource) in
     let folder := nth (length resource - 2) resource EmptyString in
     extractPathInfo urlPathname =
       Ok (mkPathInfo bucket (Js.join "/" resource) dir folder
             (dir +:+ "/" +:+ folder +:+ ".json")))
  /\ extractPathInfo "/kbd/A/A/EMO/A/1.webp" =
       Ok (mkPathInfo "kbd" "A/A/EMO/A/1.webp" "A/A/EMO" "A"
             "A/A/EMO/A.json").
Proof.
  intros Hlen. split; [|reflexivity].
  destruct (pathParts urlPathname) as [|bucket resource] eqn:Hp;
    [simpl in Hlen; lia|].
  simpl in Hlen.
  assert (Hres : resource <> [])
    by (destruct resource; simpl in *; [lia|discriminate]).
  pose proof (resource_roundtrip _ _ _ Hp Hres) as Hrt.
  exists bucket, resource.
  split; [reflexivity|]. split; [lia|]. split; [exact Hrt|].
  unfold extractPathInfo. rewrite Hp.
  replace (length (bucket :: resource) <? 3)%nat with false
    by (symmetry; apply Nat.ltb_ge; simpl; lia).
  cbv zeta. unfold Js.slice1, Js.slice0m2. simpl tl. simpl nth at 1.
  rewrite Hrt.
  replace (length resource <? 2)%nat with false
    by (symmetry; apply Nat.ltb_ge; lia).
  reflexivity.
Qed.

Lemma extractPathInfo_resolves_witness :
  (3 <= length (pathParts "/mybucket/B/C/D/E/2.jpg"))%nat /\
  extractPathInfo "/mybucket/B/C/D/E/2.jpg" =
    Ok (mkPathInfo "mybucket" "B/C/D/E/2.jpg" "B/C/D" "E" "B/C/D/E.json").
Proof.
  assert (H : (3 <= length (pathParts "/mybucket/B/C/D/E/2.jpg"))%nat)
    by (vm_compute; lia).
  split; [exact H|].
  destruct (extractPathInfo_resolves "/mybucket/B/C/D/E/2.jpg" H)
    as [(bucket & resource & Hp & _ & _ & Hr) _].
  vm_compute in Hp. injection Hp as <- <-. exact Hr.
Defined.

(** C1 (the code at the failing input): the configuration key of a path
    with exactly two resource segments, which the second length check lets
    through, starts with a slash.  The directory is empty and the key is
    not the bare [folder.json] of the claim, while the image path of the
    same descriptor has no leading slash; the configuration is requested
    with a doubled slash after the bucket, and so is the font file, whose
    path is built on the same directory. *)
Lemma configKey_empty_dir_counterexample :
  exists info,
    extractPathInfo "/kbd/A/1.webp" = Ok info /\
    configDir info = EmptyString /\
    configKey info = "/A.json" /\
    configKey info <> folderName info +:+ ".json" /\
    imagePath info = "A/1.webp" /\
    buildResourceUrl "https://o.nfarmer.uk" (bucketName info)
      (configKey info) = "https://o.nfarmer.uk/kbd//A.json" /\
    fontUrlOf (mkFetched info "https://o.nfarmer.uk" Demo.config "RIFF")
      = Some "https://o.nfarmer.uk/kbd//fonts/f.ttf".
Proof.
  eexists. split; [reflexivity|]. split; [reflexivity|].
  split; [reflexivity|]. split; [discriminate|].
  split; [reflexivity|]. split; reflexivity.
Qed.

(** C8: a path with fewer than three non-empty segments, or whose resource
    sub-path has fewer than two segments, makes [extractPathInfo] throw the
    matching malformed-path exception; no descriptor is returned. *)
Theorem extractPathInfo_rejects (urlPathname : string) :
  let resourcePath := Js.join "/" (Js.slice1 (pathParts urlPathname)) in
  (length (pathParts urlPathname) < 3)%nat \/
  (length (Js.split slash resourcePath) < 2)%nat ->
  (extractPathInfo urlPathname =
     Throw (PathTooShort urlPathname (pathParts urlPathname)) \/
   extractPathInfo urlPathname = Throw (ImagePathTooShort resourcePath))
  /\ forall info, extractPathInfo urlPathname <> Ok info.
Proof.
  intros resourcePath H.
  assert (Hthrow :
    extractPathInfo urlPathname =
      Throw (PathTooShort urlPathname (pathParts urlPathname)) \/
    extractPathInfo urlPathname = Throw (ImagePathTooShort resourcePath)).
  { unfold extractPathInfo. fold resourcePath.
    destruct (length (pathParts urlPathname) <? 3)%nat eqn:H3; [now left|].
    cbv zeta. fold resourcePath.
    destruct (length (Js.split slash resourcePath) <? 2)%nat eqn:H2;
      [now right|].
    apply Nat.ltb_ge in H3, H2. lia. }
  split; [exact Hthrow|].
  intros info Hok. destruct Hthrow as [Ht|Ht]; congruence.
Qed.

Lemma extractPathInfo_rejects_witness :
  ((length (pathParts "/kbd/1.webp") < 3)%nat \/
   (length (Js.split slash
      (Js.join "/" (Js.slice1 (pathParts "/kbd/1.webp")))) < 2)%nat) /\
  extractPathInfo "/kbd/1.webp" =
    Throw (PathTooShort "/kbd/1.webp" ["kbd"; "1.webp"]).
Proof.
  assert (H : (length (pathParts "/kbd/1.webp") < 3)%nat \/
              (length (Js.split slash
                 (Js.join "/" (Js.slice1 (pathParts "/kbd/1.webp")))) < 2)%nat)
    by (left; vm_compute; lia).
  split; [exact H|].
  destruct (extractPathInfo_rejects "/kbd/1.webp" H) as [[Ht|Ht] _].
  - exact Ht.
  - vm_compute in Ht. discriminate Ht.
Defined.

(** ** Resource URLs *)

Lemma fetchOk_inv (w : World) (url : string) (failed : string -> Z -> Exn)
    (body : string) :
  fetchOk w url failed = Ok body ->
  exists status statusText,
    fetch w url = FetchResponse status statusText body /\ ok status = true.
Proof.
  unfold fetchOk. destruct (fetch w url) as [r|status statusText b];
    [discriminate|].
  destruct (ok status) eqn:Hok; [|discriminate].
  intros [= ->]. eauto.
Qed.

(** A successful resolution fetched the configuration and the image from
    the URLs built on the base URL of the request. *)
Lemma resolveAndFetch_inv (w : World) (req : Request) (pathname : string)
    (f : Fetched) :
  resolveAndFetch w req pathname = Ok f ->
  extractPathInfo pathname = Ok (pathInfo f) /\
  baseUrlUsed f = customBaseUrl w req /\
  (exists status statusText configBody,
     fetch w (buildResourceUrl (customBaseUrl w req)
                (bucketName (pathInfo f)) (configKey (pathInfo f)))
       = FetchResponse status statusText configBody /\
     ok status = true /\ json w configBody = Ok (config f)) /\
  (exists status statusText,
     fetch w (buildResourceUrl (customBaseUrl w req)
                (bucketName (pathInfo f)) (imagePath (pathInfo f)))
       = FetchResponse status statusText (imageBuffer f) /\
     ok status = true).
Proof.
  unfold resolveAndFetch.
  destruct (extractPathInfo pathname) as [info|e];
    cbn [mbind result_bind]; [|discriminate].
  destruct (fetchOk w _ ConfigFetchFailed) as [configRes|e] eqn:Hc;
    cbn [mbind result_bind]; [|discriminate].
  destruct (fetchOk w _ ImageFetchFailed) as [imageRes|e] eqn:Hi;
    cbn [mbind result_bind]; [|discriminate].
  destruct (json w configRes) as [cfg|e] eqn:Hj;
    cbn [mbind result_bind mret result_ret]; [|discriminate].
  intros [= <-]. cbn [pathInfo baseUrlUsed config imageBuffer].
  apply fetchOk_inv in Hc as (s1 & t1 & Hf1 & Hok1).
  apply fetchOk_inv in Hi as (s2 & t2 & Hf2 & Hok2).
  repeat split; eauto 10.
Qed.



(** ** Greedy word-wrap *)

Lemma gt_false_le (a b : Q) : gt a b = false -> (a <= b)%Q.
Proof.
  unfold gt. intros H. apply negb_false_iff in H. now apply Qle_bool_iff.
Qed.

Lemma gt_pos (a : Q) : (0 < a)%Q -> gt a 0 = true.
Proof.
  unfold gt. intros H. apply negb_true_iff.
  destruct (Qle_bool a 0) eqn:E; [|reflexivity].
  apply Qle_bool_iff in E. exfalso. exact (Qlt_not_le _ _ H E).
Qed.

Lemma truthy_false (s : string) : Js.truthy s = false -> s = EmptyString.
Proof. destruct s; [reflexivity|discriminate]. Qed.

(** An invariant of a [forEach] holds at its end. *)
Lemma fold_left_invariant {A S} (f : S -> A -> S) (P : S -> Prop)
    (Q : A -> Prop) (l : list A) (s : S) :
  P s -> Forall Q l -> (forall s a, P s -> Q a -> P (f s a)) ->
  P (fold_left f l s).
Proof.
  intros Hs Hl Hstep. revert s Hs.
  induction Hl as [|a l Ha _ IH]; intros s Hs; simpl; [exact Hs|].
  apply IH. now apply Hstep.
Qed.

Section WrapFits.
Variable measure : string -> Q.
Variable maxWidth : Q.

Lemma wrapWord_fits (acc : list string * string) (word : string) :
  wrapInv measure maxWidth acc -> Js.includes space word = false ->
  wrapInv measure maxWidth (wrapWord measure maxWidth acc word).
Proof.
  destruct acc as [out cur]. intros [Hout Hcur] Hword.
  unfold wrapWord, wrapInv.
  destruct (gt (measure _) maxWidth) eqn:Hgt;
    destruct (Js.truthy cur) eqn:Hcurt; cbn [andb fst snd].
  - split; [|now right].
    apply Forall_app. split; [exact Hout|]. now constructor.
  - split; [exact Hout|]. right.
    apply truthy_false in Hcurt. subst cur.
    change (EmptyString +:+ EmptyString +:+ word) with word. exact Hword.
  - split; [exact Hout|]. left. now apply gt_false_le.
  - split; [exact Hout|]. left. now apply gt_false_le.
Qed.

Lemma wrapLine_fits (out : list string) (line : string) :
  Forall (fits measure maxWidth) out ->
  Forall (fits measure maxWidth) (wrapLine measure maxWidth out line).
Proof.
  intros Hout. unfold wrapLine.
  assert (Hinv : wrapInv measure maxWidth
                   (fold_left (wrapWord measure maxWidth)
                      (Js.split space line) (out, EmptyString))).
  { apply (fold_left_invariant _ (wrapInv measure maxWidth)
             (fun w => Js.includes space w = false)).
    - split; [exact Hout|now right].
    - apply Forall_forall. intros w Hw. apply list_elem_of_In in Hw.
      eapply split_free, Hw.
    - intros; now apply wrapWord_fits. }
  destruct (fold_left _ _ _) as [out' cur]. destruct Hinv as [Ho Hc].
  cbn [fst snd] in *.
  destruct (Js.truthy cur); [|exact Ho].
  apply Forall_app. split; [exact Ho|]. now constructor.
Qed.

Lemma measureLine_fits (out : list string) (line : string) :
  (0 < maxWidth)%Q ->
  Forall (fits measure maxWidth) out ->
  Forall (fits measure maxWidth) (measureLine measure maxWidth out line).
Proof.
  intros Hpos Hout. unfold measureLine. rewrite (gt_pos _ Hpos), andb_true_r.
  destruct (gt (measure line) maxWidth) eqn:Hgt.
  - now apply wrapLine_fits.
  - apply Forall_app. split; [exact Hout|].
    constructor; [|constructor]. left. now apply gt_false_le.
Qed.

(** A word on its own stays one line, whatever its width. *)
Lemma measureLine_word (out : list string) (word : string) :
  Js.truthy word = true -> Js.includes space word = false ->
  measureLine measure maxWidth out word = out ++ [word].
Proof.
  intros Ht Hs. unfold measureLine.
  destruct (_ && _); [|reflexivity].
  unfold wrapLine. rewrite (split_one space word Hs).
  cbn [fold_left wrapWord Js.truthy andb]. rewrite andb_false_r.
  cbn. change (EmptyString +:+ EmptyString +:+ word) with word.
  rewrite Ht. reflexivity.
Qed.

End WrapFits.

Lemma measuredLines_fits (measure : string -> Q) (w : Q) (text : string) :
  (0 < w)%Q -> Forall (fits measure w) (measuredLines measure w text).
Proof.
  intros Hpos. unfold measuredLines.
  apply (fold_left_invariant _ (Forall (fits measure w)) (fun _ => True)).
  - constructor.
  - apply Forall_forall. auto.
  - intros out line Hout _. now apply measureLine_fits.
Qed.

(** In every mode but [nowrap] and [pre] the element lines are the lines
    of the greedy wrap. *)
Lemma layoutLine_default (measure : string -> Q) (textWidth : Q)
    (whiteSpace : string) :
  isStr whiteSpace "nowrap" = false -> isStr whiteSpace "pre" = false ->
  Part002.layoutLine measure textWidth whiteSpace =
  measureLine measure textWidth.
Proof.
  intros Hn Hp. unfold Part002.layoutLine. now rewrite Hn, Hp.
Qed.

Lemma hardLines_default (whiteSpace text : string) :
  isStr whiteSpace "nowrap" = false ->
  Part002.hardLines whiteSpace text = Js.split newline text.
Proof.
  intros Hn. unfold Part002.hardLines. rewrite Hn.
  now destruct (_ || _).
Qed.

Lemma element_lines_default (measure : string -> Q) (textWidth : Q)
    (whiteSpace text : string) :
  isStr whiteSpace "nowrap" = false -> isStr whiteSpace "pre" = false ->
  Part002.measuredLines measure textWidth whiteSpace text =
  measuredLines measure textWidth text.
Proof.
  intros Hn Hp. unfold Part002.measuredLines, measuredLines.
  now rewrite layoutLine_default, hardLines_default.
Qed.

(** C3 (amended): when the width available to the text is positive, every
    line the greedy wrap produces measures no more than that width or is a
    single word without a space.  This holds for the element lines in every
    mode but [nowrap] and [pre], the available width being the box width
    less the left and right padding, and for the lines of the text-only
    drawing routine, the available width being the box width.  A line under
    construction is pushed only when it is not empty, so a text that is one
    non-empty word without space or line break is drawn as that one line,
    whatever its width. *)
Theorem wordwrap_lines_fit (measureText : Font.t -> string -> Q)
    (ctx : Canvas) (style : Style.t) (text : string) :
  let measure := measureText (fontOf style) in
  let whiteSpace := Part002.whiteSpaceOf style in
  isStr whiteSpace "nowrap" = false ->
  isStr whiteSpace "pre" = false ->
  ((0 < Part002.textWidthOf ctx style)%Q ->
   forall line,
     In line (Part002.measuredLines measure (Part002.textWidthOf ctx style)
                whiteSpace text) ->
     (measure line <= Part002.textWidthOf ctx style)%Q \/
     Js.includes space line = false)
  /\ ((0 < boxWidthOf ctx style)%Q ->
      forall line,
        In line (measuredLines measure (boxWidthOf ctx style) text) ->
        (measure line <= boxWidthOf ctx style)%Q \/
        Js.includes space line = false)
  /\ (Js.truthy text = true ->
      Js.includes space text = false ->
      Js.includes newline text = false ->
      Part002.measuredLines measure (Part002.textWidthOf ctx style)
        whiteSpace text = [text] /\
      measuredLines measure (boxWidthOf ctx style) text = [text]).
Proof.
  intros measure whiteSpace Hn Hp.
  split; [|split].
  - intros Hpos line Hin.
    rewrite element_lines_default in Hin by assumption.
    pose proof (measuredLines_fits measure _ text Hpos) as Hall.
    rewrite List.Forall_forall in Hall. exact (Hall line Hin).
  - intros Hpos line Hin.
    pose proof (measuredLines_fits measure _ text Hpos) as Hall.
    rewrite List.Forall_forall in Hall. exact (Hall line Hin).
  - intros Ht Hs Hnl.
    rewrite element_lines_default by assumption.
    unfold measuredLines. rewrite (split_one newline text Hnl).
    cbn [fold_left]. rewrite !measureLine_word by assumption.
    split; reflexivity.
Qed.

Lemma wordwrap_lines_fit_witness :
  isStr (Part002.whiteSpaceOf Demo.box100) "nowrap" = false /\
  isStr (Part002.whiteSpaceOf Demo.box100) "pre" = false /\
  (0 < Part002.textWidthOf Demo.surface Demo.box100)%Q /\
  Part002.measuredLines (Demo.measureText (fontOf Demo.box100))
    (Part002.textWidthOf Demo.surface Demo.box100) "pre-wrap"
    "aaa bbb ccc dddddddddddd ee"
  = ["aaa bbb"; "ccc"; "dddddddddddd"; "ee"] /\
  forall line,
    In line ["aaa bbb"; "ccc"; "dddddddddddd"; "ee"] ->
    (Demo.measureText (fontOf Demo.box100) line
       <= Part002.textWidthOf Demo.surface Demo.box100)%Q \/
    Js.includes space line = false.
Proof.
  assert (Hn : isStr (Part002.whiteSpaceOf Demo.box100) "nowrap" = false)
    by reflexivity.
  assert (Hp : isStr (Part002.whiteSpaceOf Demo.box100) "pre" = false)
    by reflexivity.
  assert (Hpos : (0 < Part002.textWidthOf Demo.surface Demo.box100)%Q)
    by reflexivity.
  repeat (split; [assumption || reflexivity|]).
  exact (proj1 (wordwrap_lines_fit Demo.measureText Demo.surface Demo.box100
                  "aaa bbb ccc dddddddddddd ee" Hn Hp) Hpos).
Defined.

(** With 10 pixels of padding on each side of a box of width 20 nothing is
    left for the text; the text [a b] is then drawn as one line of two
    words that is wider than the width available. *)
Lemma wordwrap_zero_width_counterexample :
  let measure := Demo.measureText (fontOf Demo.narrow) in
  let textWidth := Part002.textWidthOf Demo.surface Demo.narrow in
  Part002.measuredLines measure textWidth "pre-wrap" "a b" = ["a b"] /\
  ~ (measure "a b" <= textWidth)%Q /\
  Js.includes space "a b" = true.
Proof.
  split; [reflexivity|]. split; [|reflexivity].
  intros H. vm_compute in H. apply H. reflexivity.
Qed.

(** ** The lines that reach the surface *)

Lemma filledLines_app (a b : list CanvasOp) :
  filledLines (a ++ b) = filledLines a ++ filledLines b.
Proof. unfold filledLines. apply flat_map_app. Qed.

Lemma filledLines_imap (f : nat -> string -> list CanvasOp)
    (lines : list string) :
  (forall i line, filledLines (f i line) = [line]) ->
  filledLines (concat (imap f lines)) = lines.
Proof.
  revert f. induction lines as [|line lines IH]; intros f Hf; [reflexivity|].
  cbn [imap concat]. rewrite filledLines_app, Hf.
  rewrite IH; [reflexivity|]. intros i l. apply Hf.
Qed.

(** Both drawing routines fill exactly the lines of their layout, in
    order. *)
Lemma drawTextOnCanvas_lines (measureText : Font.t -> string -> Q)
    (ctx : Canvas) (text : string) (style : Style.t) :
  filledLines (ops (drawTextOnCanvas measureText ctx text style)) =
  filledLines (ops ctx)
  ++ measuredLines (measureText (fontOf style)) (boxWidthOf ctx style) text.
Proof.
  unfold drawTextOnCanvas, draw. cbn [ops].
  rewrite filledLines_app. f_equal.
  apply filledLines_imap. intros i line.
  rewrite filledLines_app. now destruct (_ && _).
Qed.

Lemma drawElementOnCanvas_lines (measureText : Font.t -> string -> Q)
    (ctx : Canvas) (text : string) (style : Style.t) :
  filledLines (ops (Part002.drawElementOnCanvas measureText ctx text style)) =
  filledLines (ops ctx)
  ++ Part002.measuredLines (measureText (fontOf style))
       (Part002.textWidthOf ctx style) (Part002.whiteSpaceOf style) text.
Proof.
  unfold Part002.drawElementOnCanvas, draw. cbn [ops].
  rewrite !filledLines_app. f_equal.
  match goal with
  | |- filledLines (if ?b then _ else _) ++ _ = _ => destruct b
  end; cbn [filledLines flat_map app]; apply filledLines_imap;
    intros i line; rewrite filledLines_app; now destruct (_ && _).
Qed.

(** ** White-space modes *)

Lemma fold_left_push {A} (l acc : list A) :
  fold_left (fun out a => out ++ [a]) l acc = acc ++ l.
Proof.
  revert acc. induction l as [|a l IH]; intros acc; simpl.
  - now rewrite app_nil_r.
  - rewrite IH, <- app_assoc. reflexivity.
Qed.

(** C4 (amended): in mode [pre] the text is split at its line breaks and
    each hard line is one output line, so a text with [k] line breaks gives
    [k + 1] lines; in mode [nowrap] the text is not split: the whole text,
    line breaks included, is the single output line.  Neither mode wraps. *)
Theorem whiteSpace_lines (measure : string -> Q) (textWidth : Q)
    (text : string) :
  Part002.measuredLines measure textWidth "pre" text = Js.split newline text
  /\ length (Part002.measuredLines measure textWidth "pre" text)
     = S (Js.count newline text)
  /\ Part002.hardLines "nowrap" text = [text]
  /\ Part002.measuredLines measure textWidth "nowrap" text = [text].
Proof.
  assert (Hpre : Part002.measuredLines measure textWidth "pre" text
                 = Js.split newline text).
  { unfold Part002.measuredLines, Part002.layoutLine.
    change (isStr "pre" "nowrap" || isStr "pre" "pre") with true.
    cbv iota. now rewrite fold_left_push. }
  split; [exact Hpre|]. split; [|split; reflexivity].
  rewrite Hpre. apply split_length.
Qed.

(** In mode [nowrap] a text with one line break is one output line, not
    two. *)
Lemma nowrap_lines_counterexample :
  let text := String "a" (String newline (String "b" EmptyString)) in
  Js.count newline text = 1%nat /\
  length (Part002.measuredLines (Demo.measureText (fontOf Style.empty)) 100
            "nowrap" text) = 1%nat.
Proof. split; reflexivity. Qed.

(** ** Decoding *)

Lemma tokens_not_nil (s : string) (ts : list Uri.token) :
  Js.truthy s = true -> Uri.tokens s = Some ts -> ts <> [].
Proof.
  destruct s as [|c s]; [discriminate|]. intros _ H Hts. subst ts.
  destruct c as [[] [] [] [] [] [] [] []]; cbn in H;
    try (destruct (Uri.tokens s); discriminate H).
  destruct s as [|h [|l rest]]; try discriminate H.
  destruct (Uri.hexDigit h), (Uri.hexDigit l), (Uri.tokens rest);
    discriminate H.
Qed.

Lemma decodeTokens_not_empty (ts : list Uri.token) (r : string) :
  ts <> [] -> Uri.decodeTokens ts = Some r -> Js.truthy r = true.
Proof.
  destruct ts as [|t ts]; [congruence|]. intros _ H.
  destruct t as [c|a]; cbn [Uri.decodeTokens] in H.
  - destruct (Uri.decodeTokens ts); [|discriminate].
    injection H as <-. reflexivity.
  - destruct (a <? 128)%nat.
    { destruct (Uri.decodeTokens ts); [|discriminate].
      injection H as <-. reflexivity. }
    destruct (Uri.within 192 223 a).
    { destruct ts as [|[|b] ts]; try discriminate.
      destruct (Uri.valid2 a b); [|discriminate].
      destruct (Uri.decodeTokens ts); [|discriminate].
      injection H as <-. reflexivity. }
    destruct (Uri.within 224 239 a).
    { destruct ts as [|[|b] [|[|c] ts]]; try discriminate.
      destruct (Uri.valid3 a b c); [|discriminate].
      destruct (Uri.decodeTokens ts); [|discriminate].
      injection H as <-. reflexivity. }
    destruct (Uri.within 240 247 a); [|discriminate].
    destruct ts as [|[|b] [|[|c] [|[|d] ts]]]; try discriminate.
    destruct (Uri.valid4 a b c d); [|discriminate].
    destruct (Uri.decodeTokens ts); [|discriminate].
    injection H as <-. reflexivity.
Qed.

Lemma replaceUnderscores_truthy (s : string) :
  Js.truthy (replaceUnderscores s) = Js.truthy s.
Proof. now destruct s. Qed.

Lemma replacePercent0A_truthy (s : string) :
  Js.truthy (replacePercent0A s) = Js.truthy s.
Proof.
  destruct s as [|c s]; [reflexivity|]. cbn [replacePercent0A].
  destruct c as [[] [] [] [] [] [] [] []]; try reflexivity.
  destruct s as [|z s]; [reflexivity|].
  destruct z as [[] [] [] [] [] [] [] []]; try reflexivity.
  destruct s as [|a s]; [reflexivity|]. now destruct (_ || _).
Qed.

(** Only the empty text decodes to the empty string. *)
Lemma decodeText_empty_iff (text : string) :
  decodeText text = Ok EmptyString <-> text = EmptyString.
Proof.
  split; [|intros ->; reflexivity].
  unfold decodeText. destruct (Js.truthy text) eqn:Ht; cbn [negb].
  - unfold Uri.decodeURIComponent.
    destruct (Uri.tokens text) as [ts|] eqn:Htok; cbn; [|discriminate].
    destruct (Uri.decodeTokens ts) as [r|] eqn:Hdec; [|discriminate].
    intros [= H].
    pose proof (decodeTokens_not_empty ts r
                  (tokens_not_nil text ts Ht Htok) Hdec) as Hr.
    rewrite <- replaceUnderscores_truthy, <- replacePercent0A_truthy in Hr.
    rewrite H in Hr. discriminate.
  - intros _. now apply truthy_false.
Qed.

(** ** Empty texts *)

(** C7 (amended): an element whose text decodes to the empty string is
    skipped: the iteration returns the surface as it received it, without
    any drawing call and without raising an exception, in the text-only
    handler and in the handler with backgrounds alike. *)
Theorem empty_text_skipped (w : World) (fontSettings : Descriptor.FontSettings)
    (queryParams : gmap string string) (defaultStyle : Style.t)
    (ctx : Canvas) (element : Descriptor.Element) :
  decodeText
    (orDefault EmptyString
       (Descriptor.query element ≫= fun q => queryParams !! q))
    = Ok EmptyString ->
  Server.drawElement w fontSettings queryParams defaultStyle ctx element
    = Ok ctx
  /\ forall available,
       Part002.drawElement w fontSettings available queryParams defaultStyle
         ctx element = Ok ctx.
Proof.
  intros Hd. unfold Server.drawElement, Part002.drawElement.
  rewrite Hd. split; [reflexivity|]. intros; reflexivity.
Qed.

Lemma empty_text_skipped_witness :
  decodeText
    (orDefault EmptyString
       (Descriptor.query Demo.element ≫= fun q => Demo.blank !! q))
    = Ok EmptyString /\
  Server.drawElement (Demo.world false)
    (fontSettingsOf Demo.config) Demo.blank Demo.declared Demo.surface
    Demo.element = Ok Demo.surface.
Proof.
  assert (H : decodeText
            (orDefault EmptyString
               (Descriptor.query Demo.element ≫= fun q => Demo.blank !! q))
            = Ok EmptyString) by reflexivity.
  split; [exact H|].
  exact (proj1 (empty_text_skipped (Demo.world false)
                  (fontSettingsOf Demo.config) Demo.blank Demo.declared
                  Demo.surface Demo.element H)).
Defined.

(** A text of one underscore decodes to one space, a whitespace-only
    string, and the element is drawn: the surface receives a text call. *)
Lemma whitespace_text_drawn_counterexample :
  decodeText "_" = Ok " " /\
  exists ctx st x y,
    Server.drawElement (Demo.world false) (fontSettingsOf Demo.config)
      Demo.underscore Demo.declared Demo.surface Demo.element = Ok ctx /\
    ops ctx = [FillText st " " x y] /\
    ops ctx <> ops Demo.surface.
Proof.
  split; [reflexivity|].
  do 4 eexists. split; [reflexivity|].
  split; [reflexivity|discriminate].
Qed.

(** ** The font cache *)

Lemma registerCached_spec (w : World) (st : ServerState)
    (cacheFile fontFamily : string) (io : list IoEvent) :
  (exists answer,
     registerFromPath w cacheFile fontFamily = Ok answer /\
     registerCached w st cacheFile fontFamily io =
       (Ok tt, addRegistered fontFamily st,
        io ++ [FontRegister cacheFile fontFamily]))
  \/ (exists e,
        registerFromPath w cacheFile fontFamily = Throw e /\
        registerCached w st cacheFile fontFamily io =
          (Throw e, st, io ++ [FontRegister cacheFile fontFamily])).
Proof.
  unfold registerCached.
  destruct (registerFromPath w cacheFile fontFamily) as [answer|e];
    [left; exists answer|right; exists e]; split; reflexivity.
Qed.

(** What a call that does not return at once can come to: an exception
    with the set of registered families as it was, or a return after the
    call of the backend returned, whatever its answer, with the family
    added. *)
Lemma registerFontFromUrl_cases (w : World) (st : ServerState)
    (fontUrl fontFamily : string) :
  fontFamily ∉ registeredFonts st ->
  (exists e st' io,
     registerFontFromUrl w st fontUrl fontFamily = (Throw e, st', io) /\
     registeredFonts st' = registeredFonts st)
  \/ (exists st' io cacheFile,
        registerFontFromUrl w st fontUrl fontFamily
          = (Ok tt, st', io ++ [FontRegister cacheFile fontFamily]) /\
        (exists answer, registerFromPath w cacheFile fontFamily = Ok answer) /\
        registeredFonts st' = {[fontFamily]} ∪ registeredFonts st).
Proof.
  intros Hnot. unfold registerFontFromUrl.
  rewrite bool_decide_eq_false_2 by exact Hnot.
  destruct (urlPathname w fontUrl) as [urlPath|urlError];
    [|left; eauto 6].
  cbv zeta.
  set (cacheFile := FONT_CACHE_DIR w +:+ _).
  destruct (files st !! cacheFile) as [fontBuffer|].
  - destruct (registerCached_spec w st cacheFile fontFamily
                [FsExists cacheFile; FsRead cacheFile])
      as [(answer & Hr & ->)|(e & Hr & ->)].
    + right. eauto 8.
    + left. eauto 6.
  - destruct (fetch w fontUrl) as [reason|status statusText fontBuffer];
      [left; eauto 6|].
    destruct (ok status); cbn [negb]; [|left; eauto 6].
    destruct (Js.truthy fontBuffer); cbn [negb]; [|left; eauto 6].
    destruct (registerCached_spec w (writeFile cacheFile fontBuffer st)
                cacheFile fontFamily
                ([FsExists cacheFile; NetFetch fontUrl]
                 ++ [FsWrite cacheFile fontBuffer]))
      as [(answer & Hr & ->)|(e & Hr & ->)].
    + right. eauto 8.
    + left. eauto 6.
Qed.

Lemma registerFontFromUrl_returned_in (w : World)
    (st : ServerState) (fontUrl fontFamily : string) (st1 : ServerState)
    (io1 : list IoEvent) :
  registerFontFromUrl w st fontUrl fontFamily = (Ok tt, st1, io1) ->
  fontFamily ∈ registeredFonts st1.
Proof.
  intros H1.
  destruct (decide (fontFamily ∈ registeredFonts st)) as [Hin|Hnot].
  - unfold registerFontFromUrl in H1.
    rewrite bool_decide_eq_true_2 in H1 by exact Hin.
    now injection H1 as <- _.
  - destruct (registerFontFromUrl_cases w st fontUrl fontFamily Hnot)
      as [(e & st' & io & Heq & _)|(st' & io & cf & Heq & _ & Hset)];
      rewrite Heq in H1; [discriminate|].
    injection H1 as <- _. rewrite Hset.
    apply elem_of_union_l. now apply elem_of_singleton.
Qed.

Lemma registerFontFromUrl_registered (w : World) (st : ServerState)
    (fontUrl fontFamily : string) :
  fontFamily ∈ registeredFonts st ->
  registerFontFromUrl w st fontUrl fontFamily = (Ok tt, st, []).
Proof.
  intros Hin. unfold registerFontFromUrl.
  now rewrite bool_decide_eq_true_2 by exact Hin.
Qed.

(** Once a call of [registerFontFromUrl] has returned for a family, the
    family is in the registered set, and a later call for that family, with
    any URL and in any world, returns at once: the state is unchanged and no
    access to the disk, the network or the font backend is made.  A call
    that throws leaves the registered set as it was, and a call that adds
    the family does so right after the call of the backend returned, the
    last access it makes, whatever the backend answered. *)
Theorem registerFontFromUrl_at_most_once (w1 w2 : World)
    (st st2 : ServerState) (url1 url2 fontFamily : string) :
  (forall st1 io1,
     registerFontFromUrl w1 st url1 fontFamily = (Ok tt, st1, io1) ->
     fontFamily ∈ registeredFonts st1 /\
     (registeredFonts st1 ⊆ registeredFonts st2 ->
      registerFontFromUrl w2 st2 url2 fontFamily = (Ok tt, st2, [])))
  /\ (forall e st1 io1,
        registerFontFromUrl w1 st url1 fontFamily = (Throw e, st1, io1) ->
        registeredFonts st1 = registeredFonts st)
  /\ (forall st1 io1,
        fontFamily ∉ registeredFonts st ->
        registerFontFromUrl w1 st url1 fontFamily = (Ok tt, st1, io1) ->
        registeredFonts st1 = {[fontFamily]} ∪ registeredFonts st /\
        exists io0 cacheFile answer,
          io1 = io0 ++ [FontRegister cacheFile fontFamily] /\
          registerFromPath w1 cacheFile fontFamily = Ok answer).
Proof.
  split; [|split].
  - intros st1 io1 H1.
    assert (Hin : fontFamily ∈ registeredFonts st1).
    { destruct (decide (fontFamily ∈ registeredFonts st)) as [Hin|Hnot].
      - rewrite registerFontFromUrl_registered in H1 by exact Hin.
        now injection H1 as <- _.
      - destruct (registerFontFromUrl_cases w1 st url1 fontFamily Hnot)
          as [(e & st' & io & Heq & _)|(st' & io & cf & Heq & _ & Hset)];
          rewrite Heq in H1; [discriminate|].
        injection H1 as <- _. rewrite Hset.
        apply elem_of_union_l. now apply elem_of_singleton. }
    split; [exact Hin|].
    intros Hsub. apply registerFontFromUrl_registered. exact (Hsub _ Hin).
  - intros e st1 io1 H1.
    destruct (decide (fontFamily ∈ registeredFonts st)) as [Hin|Hnot].
    + rewrite registerFontFromUrl_registered in H1 by exact Hin.
      discriminate.
    + destruct (registerFontFromUrl_cases w1 st url1 fontFamily Hnot)
        as [(e' & st' & io & Heq & Hset)|(st' & io & cf & Heq & _)];
        rewrite Heq in H1; [|discriminate].
      now injection H1 as _ <- _.
  - intros st1 io1 Hnot H1.
    destruct (registerFontFromUrl_cases w1 st url1 fontFamily Hnot)
      as [(e' & st' & io & Heq & _)
         |(st' & io & cf & Heq & (answer & Hr) & Hset)];
      rewrite Heq in H1; [discriminate|].
    injection H1 as <- <-. split; [exact Hset|]. eauto.
Qed.

Lemma registerFontFromUrl_at_most_once_witness :
  exists st1 io1,
    registerFontFromUrl (Demo.world true) Demo.fresh Demo.fontUrl
      "CustomR2Font" = (Ok tt, st1, io1) /\
    io1 <> [] /\
    registerFontFromUrl Demo.offline st1 "https://elsewhere.example/g.otf"
      "CustomR2Font" = (Ok tt, st1, []).
Proof.
  destruct (registerFontFromUrl (Demo.world true) Demo.fresh Demo.fontUrl
              "CustomR2Font") as [[r st1] io1] eqn:H1.
  assert (Hr : r = Ok tt /\ io1 <> []).
  { vm_compute in H1. injection H1 as <- _ <-. split; [reflexivity|].
    discriminate. }
  destruct Hr as [-> Hio].
  exists st1, io1. split; [reflexivity|]. split; [exact Hio|].
  destruct (registerFontFromUrl_at_most_once (Demo.world true) Demo.offline
              Demo.fresh st1 Demo.fontUrl "https://elsewhere.example/g.otf"
              "CustomR2Font") as [Hfirst _].
  destruct (Hfirst st1 io1 H1) as [_ Hsecond].
  apply Hsecond. intros x Hx. exact Hx.
Defined.

(** A call that reaches the backend with the font file at hand returns
    with the family added, whatever the backend answers. *)
Lemma registerFontFromUrl_answered (w : World) (st : ServerState)
    (fontUrl fontFamily urlPath : string) (answer : bool) :
  fontFamily ∉ registeredFonts st ->
  urlPathname w fontUrl = Ok urlPath ->
  (is_Some (files st !! cacheFileOf w fontUrl urlPath) \/
   exists status statusText fontBuffer,
     fetch w fontUrl = FetchResponse status statusText fontBuffer /\
     ok status = true /\ Js.truthy fontBuffer = true) ->
  registerFromPath w (cacheFileOf w fontUrl urlPath) fontFamily
    = Ok answer ->
  exists st1 io0,
    registerFontFromUrl w st fontUrl fontFamily =
      (Ok tt, st1,
       io0 ++ [FontRegister (cacheFileOf w fontUrl urlPath) fontFamily]) /\
    fontFamily ∈ registeredFonts st1.
Proof.
  intros Hnot Hpath Hfile Hanswer.
  unfold registerFontFromUrl.
  rewrite bool_decide_eq_false_2 by exact Hnot.
  rewrite Hpath. cbv zeta. fold (cacheFileOf w fontUrl urlPath).
  set (cacheFile := cacheFileOf w fontUrl urlPath) in *.
  assert (Hadd : forall st0,
            fontFamily ∈ registeredFonts (addRegistered fontFamily st0)).
  { intros st0. cbn [registeredFonts addRegistered].
    apply elem_of_union_l. now apply elem_of_singleton. }
  destruct (files st !! cacheFile) as [bytes|] eqn:Hcached.
  - unfold registerCached. rewrite Hanswer. eauto.
  - destruct Hfile
      as [[bytes Hsome]|(status & statusText & body & Hf & Hok & Hbody)];
      [discriminate Hsome|].
    rewrite Hf, Hok, Hbody. cbn [negb].
    unfold registerCached. rewrite Hanswer. eauto.
Qed.

(** C9 (the code at the failing input): the family is added to the
    registered set after a registration that did not succeed.  When the font
    file is at hand (in the cache, or downloaded with a success status and a
    non-empty body) and the backend refuses it, answering [false] without
    throwing, [registerFontFromUrl] returns as after a success: the refused
    registration is its last access, the family is in the registered set,
    and every later call for the family returns at once without any access,
    so the registration is never tried again. *)
Theorem registerFontFromUrl_refused_registered (w : World)
    (st : ServerState) (fontUrl fontFamily urlPath : string) :
  fontFamily ∉ registeredFonts st ->
  urlPathname w fontUrl = Ok urlPath ->
  (is_Some (files st !! cacheFileOf w fontUrl urlPath) \/
   exists status statusText fontBuffer,
     fetch w fontUrl = FetchResponse status statusText fontBuffer /\
     ok status = true /\ Js.truthy fontBuffer = true) ->
  registerFromPath w (cacheFileOf w fontUrl urlPath) fontFamily = Ok false ->
  exists st1 io0,
    registerFontFromUrl w st fontUrl fontFamily =
      (Ok tt, st1,
       io0 ++ [FontRegister (cacheFileOf w fontUrl urlPath) fontFamily]) /\
    fontFamily ∈ registeredFonts st1 /\
    forall (w2 : World) (st2 : ServerState) (url2 : string),
      registeredFonts st1 ⊆ registeredFonts st2 ->
      registerFontFromUrl w2 st2 url2 fontFamily = (Ok tt, st2, []).
Proof.
  intros Hnot Hpath Hfile Hrefused.
  destruct (registerFontFromUrl_answered w st fontUrl fontFamily urlPath
              false Hnot Hpath Hfile Hrefused)
    as (st1 & io0 & Hcall & Hin).
  exists st1, io0. split; [exact Hcall|]. split; [exact Hin|].
  intros w2 st2 url2 Hsub.
  apply registerFontFromUrl_registered. exact (Hsub _ Hin).
Qed.

Lemma registerFontFromUrl_refused_registered_witness :
  registerFromPath Demo.refusing
    (cacheFileOf Demo.refusing Demo.fontUrl "/kbd/A/A/EMO/fonts/f.ttf")
    "CustomR2Font" = Ok false /\
  exists st1 io0,
    registerFontFromUrl Demo.refusing Demo.fresh Demo.fontUrl "CustomR2Font"
      = (Ok tt, st1,
         io0 ++ [FontRegister
                   (cacheFileOf Demo.refusing Demo.fontUrl
                      "/kbd/A/A/EMO/fonts/f.ttf") "CustomR2Font"]) /\
    "CustomR2Font" ∈ registeredFonts st1 /\
    registerFontFromUrl (Demo.world true) st1 Demo.fontUrl "CustomR2Font"
      = (Ok tt, st1, []).
Proof.
  assert (Hrefused :
    registerFromPath Demo.refusing
      (cacheFileOf Demo.refusing Demo.fontUrl "/kbd/A/A/EMO/fonts/f.ttf")
      "CustomR2Font" = Ok false) by reflexivity.
  split; [exact Hrefused|].
  destruct (registerFontFromUrl_refused_registered Demo.refusing Demo.fresh
              Demo.fontUrl "CustomR2Font" "/kbd/A/A/EMO/fonts/f.ttf")
    as (st1 & io0 & Hcall & Hin & Hlater).
  - apply not_elem_of_empty.
  - reflexivity.
  - right. exists 200%Z, "OK", "OTTO". repeat split; reflexivity.
  - exact Hrefused.
  - exists st1, io0. split; [exact Hcall|]. split; [exact Hin|].
    apply Hlater. intros x Hx. exact Hx.
Defined.

(** ** Failures of the wildcard handler *)

(** In server.js every exception of the [try] block is answered with
    status 500 and the placeholder drawn locally, an encoded WebP image of
    800 by 600. *)
Lemma server_failure_placeholder (w : World) (st st' : ServerState)
    (req : Request) (e : Exn) :
  reserved w (pathnameOf req) = None ->
  Server.render w st req (pathnameOf req) = (Throw e, st') ->
  exists c,
    Server.handler w st req =
      (Responded (mkResponse 500 [("Content-Type", Str "image/webp")]
                    (Binary (Encoded "image/webp" c))), st') /\
    canvasWidth c = 800%Q /\ canvasHeight c = 600%Q /\ ops c <> [].
Proof.
  intros Hres Hr. unfold Server.handler. rewrite Hres, Hr.
  eexists. split; [reflexivity|].
  split; [reflexivity|]. split; [reflexivity|].
  cbn. discriminate.
Qed.

(** The stages whose failure the handler of server.js turns into an
    exception of the [try] block: path resolution, either fetch, and the
    decoding of the configuration or of the image. *)
Lemma server_stage_failures (w : World) (st : ServerState) (req : Request)
    (pathname : string) :
  (forall e, extractPathInfo pathname = Throw e ->
     Server.render w st req pathname = (Throw e, st))
  /\ (forall e, resolveAndFetch w req pathname = Throw e ->
        Server.render w st req pathname = (Throw e, st))
  /\ (forall f e, resolveAndFetch w req pathname = Ok f ->
        loadImage w (imageBuffer f) = Throw e ->
        fst (Server.render w st req pathname) = Throw e).
Proof.
  split; [|split].
  - intros e He. unfold Server.render, resolveAndFetch. now rewrite He.
  - intros e He. unfold Server.render. now rewrite He.
  - intros f e Hf He. unfold Server.render. rewrite Hf.
    destruct (Server.surfaceSize _) as [width height].
    destruct (loadFont w st (fontUrlOf f)) as [fontLoaded st'].
    cbn [fst]. now rewrite He.
Qed.

Lemma resolveAndFetch_failures (w : World) (req : Request)
    (pathname : string) (info : PathInfo) :
  extractPathInfo pathname = Ok info ->
  let configUrl :=
    buildResourceUrl (customBaseUrl w req) (bucketName info)
      (configKey info) in
  let imageUrl :=
    buildResourceUrl (customBaseUrl w req) (bucketName info)
      (imagePath info) in
  (forall status statusText body,
     fetch w configUrl = FetchResponse status statusText body ->
     ok status = false ->
     resolveAndFetch w req pathname
       = Throw (ConfigFetchFailed configUrl status))
  /\ (forall status statusText body,
        fetchOk w configUrl ConfigFetchFailed = Ok body ->
        fetch w imageUrl = FetchResponse status statusText body ->
        ok status = false ->
        resolveAndFetch w req pathname
          = Throw (ImageFetchFailed imageUrl status)).
Proof.
  intros Hinfo configUrl imageUrl. subst configUrl imageUrl.
  unfold resolveAndFetch. rewrite Hinfo.
  cbn [mbind result_bind]. cbv zeta.
  split.
  - intros status statusText body Hf Hok.
    unfold fetchOk. now rewrite Hf, Hok.
  - intros status statusText body Hc Hf Hok.
    rewrite Hc. cbn [mbind result_bind].
    unfold fetchOk. now rewrite Hf, Hok.
Qed.

(** In unnamed/part_002 every exception of the [try] block hands the
    answer over to the fetch of the hosted placeholder. *)
Lemma part002_failure_fetches (w : World) (st st' : ServerState)
    (req : Request) (e : Exn) :
  reserved w (pathnameOf req) = None ->
  Part002.render w st req (pathnameOf req) = (Throw e, st') ->
  Part002.handler w st req = (Part002.sendErrorImage w, st').
Proof.
  intros Hres Hr. unfold Part002.handler. now rewrite Hres, Hr.
Qed.

(** C2 (the code at the failing input): in unnamed/part_002 a request for
    the malformed path [/kbd/1.webp], made while the hosted placeholder
    answers 404 with an empty body, is answered with status 500 and an
    empty body; made while no connection is possible, it is not answered
    at all, the handler rejecting with the fetch.  The handler of server.js
    answers the same request with status 500 and its locally drawn WebP
    placeholder. *)
Theorem part002_placeholder_unchecked :
  Part002.handler (Demo.world false) Demo.fresh Demo.malformed =
    (Responded
       (mkResponse 500
          [ ("Content-Type", Str "image/webp");
            ("Content-Length", LengthOf (Bytes EmptyString)) ]
          (Binary (Bytes EmptyString))),
     Demo.fresh)
  /\ Part002.handler Demo.offline Demo.fresh Demo.malformed =
       (Unhandled (PlatformError "connect ECONNREFUSED"), Demo.fresh)
  /\ exists c,
       Server.handler Demo.offline Demo.fresh Demo.malformed =
         (Responded
            (mkResponse 500 [("Content-Type", Str "image/webp")]
               (Binary (Encoded "image/webp" c))),
          Demo.fresh).
Proof.
  split; [reflexivity|]. split; [reflexivity|].
  eexists. reflexivity.
Qed.

(** ** The size of the surface *)

(** The sequential text-only variant gives the surface the size of the
    configuration when it has one, else the natural size of the image, and
    800 by 600 only when neither is usable. *)
Lemma part001_surfaceSize_spec (imageSize : Descriptor.ImageSize)
    (image : Img.t) (w h : Q) :
  (Descriptor.width imageSize = Some w -> truthyNum w = true ->
   fst (Part001.surfaceSize imageSize image) = w)
  /\ (Descriptor.height imageSize = Some h -> truthyNum h = true ->
      snd (Part001.surfaceSize imageSize image) = h)
  /\ (Descriptor.width imageSize = None ->
      truthyNum (Img.width image) = true ->
      fst (Part001.surfaceSize imageSize image) = Img.width image)
  /\ (Descriptor.height imageSize = None ->
      truthyNum (Img.height image) = true ->
      snd (Part001.surfaceSize imageSize image) = Img.height image).
Proof.
  unfold Part001.surfaceSize, orNum. cbn [fst snd].
  repeat split; intros H1 H2; now rewrite H1, ?H2.
Qed.

(** In server.js and in unnamed/part_002 the size is fixed from the
    configuration alone. *)
Lemma server_surfaceSize_default (c : Descriptor.Config) :
  Descriptor.imageSize c = None ->
  Server.surfaceSize (imageSizeOf c) = (800%Q, 600%Q) /\
  Part002.surfaceSize (imageSizeOf c) = (800%Q, 600%Q).
Proof.
  intros H. unfold imageSizeOf. rewrite H. split; reflexivity.
Qed.

(** C5 (the code at the failing input): with a configuration that declares
    no image size and a base image of 1024 by 768, the handler of server.js
    answers 200 with a surface of 800 by 600 onto which the image is scaled,
    and so does the handler of unnamed/part_002; the sequential text-only
    variant computes 1024 by 768 for the same input. *)
Theorem server_surface_ignores_image :
  Descriptor.imageSize Demo.config = None /\
  loadImage (Demo.world false) "RIFF" = Ok (Img.mk 1024 768) /\
  (exists c st',
     Server.handler (Demo.world false) Demo.fresh Demo.request =
       (Responded (sendImage (Encoded "image/webp" c)), st') /\
     canvasWidth c = 800%Q /\ canvasHeight c = 600%Q /\
     In (DrawImage (Img.mk 1024 768) 0 0 800 600) (ops c)) /\
  (exists c st',
     Part002.handler (Demo.world false) Demo.fresh Demo.request =
       (Responded (sendImage (Encoded "image/webp" c)), st') /\
     canvasWidth c = 800%Q /\ canvasHeight c = 600%Q) /\
  Part001.surfaceSize (imageSizeOf Demo.config) (Img.mk 1024 768) =
    (1024%Q, 768%Q).
Proof.
  split; [reflexivity|]. split; [reflexivity|].
  split; [|split; [|reflexivity]].
  - do 2 eexists. split; [reflexivity|].
    split; [reflexivity|]. split; [reflexivity|]. left. reflexivity.
  - do 2 eexists. split; [reflexivity|]. split; reflexivity.
Qed.

(** ** The custom font *)

(** A registration that throws makes the custom font unavailable, and an
    element is then drawn in unnamed/part_002 with the style it declares. *)
Lemma part002_failed_font_declared (w : World) (st : ServerState)
    (url : string) (fontSettings : Descriptor.FontSettings)
    (defaultStyle : Style.t) (element : Descriptor.Element) :
  fst (fst (registerFontFromUrl w st url "CustomR2Font")) <> Ok tt ->
  let '(fontLoaded, st') := loadFont w st (Some url) in
  fontLoaded = false /\
  Part002.r2FontAvailable (Some url) fontLoaded st' = false /\
  Part002.styleOf fontSettings
    (Part002.r2FontAvailable (Some url) fontLoaded st') defaultStyle element
  = Style.spread defaultStyle
      (orDefault Style.empty (Descriptor.style element)).
Proof.
  intros Hfail. unfold loadFont.
  destruct (registerFontFromUrl w st url "CustomR2Font") as [[[[]|e] st'] io].
  - now destruct Hfail.
  - split; [reflexivity|].
    assert (Hav : Part002.r2FontAvailable (Some url) false st' = false).
    { unfold Part002.r2FontAvailable. now rewrite andb_false_r. }
    split; [exact Hav|]. rewrite Hav.
    unfold Part002.styleOf. now rewrite andb_false_r.
Qed.

(** In server.js the style of an element that asks for the custom font
    under mode [r2] carries the custom family, whatever became of the
    registration. *)
Lemma server_style_custom_family (w : World)
    (fontSettings : Descriptor.FontSettings)
    (queryParams : gmap string string) (defaultStyle : Style.t)
    (ctx : Canvas) (element : Descriptor.Element) (text : string) :
  Descriptor.useR2Font element = true ->
  modeIsR2 fontSettings = true ->
  decodeText
    (orDefault EmptyString
       (Descriptor.query element ≫= fun q => queryParams !! q)) = Ok text ->
  Js.truthy text = true ->
  Server.drawElement w fontSettings queryParams defaultStyle ctx element =
    Ok (drawTextOnCanvas (measureText w) ctx text
          (Style.setFontFamily "CustomR2Font"
             (Style.spread defaultStyle
                (orDefault Style.empty (Descriptor.style element))))).
Proof.
  intros Hu Hm Hd Ht. unfold Server.drawElement.
  rewrite Hu, Hm, Hd. cbn [andb mbind result_bind]. now rewrite Ht.
Qed.

(** C6 (the code at the failing input): the font file answers 404, so the
    registration of the custom font throws; the configuration declares
    [Arial] for the element bound to [t], which asks for the custom font
    under mode [r2].  The handler of server.js answers 200 and draws the
    element with the family [CustomR2Font]; the handler of unnamed/part_002
    answers 200 and draws it with [Arial]. *)
Theorem server_failed_font_custom_family :
  fst (fst (registerFontFromUrl (Demo.world false) Demo.fresh Demo.fontUrl
              "CustomR2Font")) = Throw (FontHttpStatus 404 "Not Found") /\
  fontUrlOf (mkFetched
               (mkPathInfo "kbd" "A/A/EMO/A/1.webp" "A/A/EMO" "A"
                  "A/A/EMO/A.json")
               "https://o.nfarmer.uk" Demo.config "RIFF")
    = Some Demo.fontUrl /\
  Style.fontFamily
    (Style.spread (defaultStyleOf Demo.config)
       (orDefault Style.empty (Descriptor.style Demo.element)))
    = Some "Arial" /\
  (exists c st',
     Server.handler (Demo.world false) Demo.fresh Demo.request =
       (Responded (sendImage (Encoded "image/webp" c)), st') /\
     textFamilies c = ["CustomR2Font"]) /\
  (exists c st',
     Part002.handler (Demo.world false) Demo.fresh Demo.request =
       (Responded (sendImage (Encoded "image/webp" c)), st') /\
     textFamilies c = ["Arial"]).
Proof.
  split; [reflexivity|]. split; [reflexivity|]. split; [reflexivity|].
  split; do 2 eexists; split; reflexivity.
Qed.

(** ** Paths built from segments *)

Lemma append_cons (x : ascii) (a b : string) :
  String x a +:+ b = String x (a +:+ b).
Proof. reflexivity. Qed.

Lemma append_assoc (a b c : string) : (a +:+ b) +:+ c = a +:+ (b +:+ c).
Proof.
  induction a as [|x a IH]; [reflexivity|].
  rewrite !append_cons. now rewrite IH.
Qed.

Lemma append_nil_r (a : string) : a +:+ EmptyString = a.
Proof.
  induction a as [|x a IH]; [reflexivity|].
  rewrite append_cons. now rewrite IH.
Qed.

Lemma startsWith_cons (c : ascii) (s : string) :
  Js.startsWith (String c s) (String c EmptyString) = true.
Proof.
  unfold Js.startsWith. simpl.
  destruct (ascii_dec c c) as [_|Hne]; [now destruct s|now destruct Hne].
Qed.

(** Empty segments are dropped wherever they stand: the segments of a path
    written from slash-free segments are the non-empty ones, in order. *)
Theorem pathParts_of_segments (parts : list string) :
  Forall (fun w => Js.includes slash w = false) parts ->
  pathParts ("/" +:+ Js.join "/" parts) = Js.filterBoolean parts.
Proof.
  intros Hfree. unfold pathParts.
  change ("/" +:+ Js.join "/" parts) with (String slash (Js.join "/" parts)).
  rewrite (startsWith_cons slash). cbn [Js.substring1].
  destruct parts as [|w ws]; [reflexivity|].
  f_equal. apply (split_join slash); [discriminate|exact Hfree].
Qed.

Lemma pathParts_of_segments_witness :
  Forall (fun w => Js.includes slash w = false)
    ["kbd"; EmptyString; "A"; "1.webp"; EmptyString] /\
  pathParts "/kbd//A/1.webp/" = ["kbd"; "A"; "1.webp"].
Proof.
  assert (H : Forall (fun w => Js.includes slash w = false)
                ["kbd"; EmptyString; "A"; "1.webp"; EmptyString])
    by (repeat constructor).
  split; [exact H|].
  exact (pathParts_of_segments _ H).
Defined.

(** The descriptor of a path whose segments are known. *)
Lemma extractPathInfo_of_parts (p bucket : string) (resource : list string) :
  pathParts p = bucket :: resource ->
  (2 <= length resource)%nat ->
  extractPathInfo p =
    Ok (mkPathInfo bucket (Js.join "/" resource)
          (Js.join "/" (firstn (length resource - 2) resource))
          (nth (length resource - 2) resource EmptyString)
          (Js.join "/" (firstn (length resource - 2) resource)
           +:+ "/" +:+ nth (length resource - 2) resource EmptyString
           +:+ ".json")).
Proof.
  intros Hp Hlen.
  assert (Hres : resource <> [])
    by (destruct resource; simpl in *; [lia|discriminate]).
  pose proof (resource_roundtrip _ _ _ Hp Hres) as Hrt.
  unfold extractPathInfo. rewrite Hp.
  replace (length (bucket :: resource) <? 3)%nat with false
    by (symmetry; apply Nat.ltb_ge; simpl; lia).
  cbv zeta. unfold Js.slice1, Js.slice0m2. simpl tl. simpl nth at 1.
  rewrite Hrt.
  replace (length resource <? 2)%nat with false
    by (symmetry; apply Nat.ltb_ge; lia).
  reflexivity.
Qed.

Lemma join_snoc (sep : string) (l : list string) (w : string) :
  l <> [] -> Js.join sep (l ++ [w]) = Js.join sep l +:+ sep +:+ w.
Proof.
  induction l as [|v l IH]; [congruence|]. intros _.
  destruct l as [|u l'].
  - reflexivity.
  - change (Js.join sep ((v :: u :: l') ++ [w]))
      with (v +:+ sep +:+ Js.join sep ((u :: l') ++ [w])).
    rewrite IH by discriminate.
    change (Js.join sep (v :: u :: l'))
      with (v +:+ sep +:+ Js.join sep (u :: l')).
    now rewrite !append_assoc.
Qed.

(** A list of at least two elements is its front, its second-to-last and
    its last element. *)
Lemma list_last_two {A} (d : A) (l : list A) :
  (2 <= length l)%nat ->
  l = firstn (length l - 2) l ++ [nth (length l - 2) l d] ++ [List.last l d].
Proof.
  induction l as [|a l IH]; simpl; [lia|]. intros Hlen.
  destruct l as [|b l']; [simpl in Hlen; lia|].
  destruct l' as [|c l''].
  - reflexivity.
  - assert (H2 : (2 <= length (b :: c :: l''))%nat) by (simpl; lia).
    specialize (IH H2).
    replace (length (b :: c :: l'') - 1)%nat
      with (S (length (b :: c :: l'') - 2)) by (simpl; lia).
    cbn [firstn nth]. cbn [app]. f_equal.
    change (List.last (a :: b :: c :: l'') d)
      with (List.last (b :: c :: l'') d).
    exact IH.
Qed.

(** The configuration sits beside the folder of the image: for a path of
    at least four segments the image path is the configuration directory,
    the folder name and the file name joined by slashes, and the
    configuration key is the same directory and folder name with [.json]
    in place of the file. *)
Theorem imagePath_under_config (urlPathname : string) :
  (4 <= length (pathParts urlPathname))%nat ->
  exists info,
    extractPathInfo urlPathname = Ok info /\
    imagePath info =
      configDir info +:+ "/" +:+ folderName info +:+ "/"
      +:+ List.last (pathParts urlPathname) EmptyString /\
    configKey info = configDir info +:+ "/" +:+ folderName info +:+ ".json".
Proof.
  intros Hlen.
  destruct (pathParts urlPathname) as [|bucket resource] eqn:Hp;
    [simpl in Hlen; lia|].
  simpl in Hlen.
  eexists. split.
  { apply (extractPathInfo_of_parts _ _ _ Hp). lia. }
  cbn [imagePath configDir folderName configKey]. split; [|reflexivity].
  assert (Hlast : List.last (bucket :: resource) EmptyString
                  = List.last resource EmptyString).
  { destruct resource; [simpl in Hlen; lia|reflexivity]. }
  rewrite Hlast.
  rewrite (list_last_two EmptyString resource) at 1 by lia.
  rewrite app_assoc, join_snoc.
  - rewrite join_snoc.
    + now rewrite !append_assoc.
    + intros Hnil. apply (f_equal (@length string)) in Hnil.
      rewrite length_firstn in Hnil. simpl in Hnil. lia.
  - destruct (firstn _ resource); discriminate.
Qed.

Lemma imagePath_under_config_witness :
  (4 <= length (pathParts "/kbd/A/A/EMO/A/1.webp"))%nat /\
  exists info,
    extractPathInfo "/kbd/A/A/EMO/A/1.webp" = Ok info /\
    imagePath info =
      configDir info +:+ "/" +:+ folderName info +:+ "/" +:+ "1.webp".
Proof.
  assert (H : (4 <= length (pathParts "/kbd/A/A/EMO/A/1.webp"))%nat)
    by (vm_compute; lia).
  split; [exact H|].
  destruct (imagePath_under_config _ H) as (info & Hok & Himg & _).
  exists info. split; [exact Hok|exact Himg].
Defined.

(** ** URLs always carry a scheme *)

Lemma startsWith_append (s p rest : string) :
  Js.startsWith s p = true -> Js.startsWith (s +:+ rest) p = true.
Proof.
  intros H. apply startsWith_iff in H as [r ->].
  apply startsWith_iff. exists (r +:+ rest). apply append_assoc.
Qed.

(** Whatever the base URL, the bucket and the resource path, the URL built
    starts with [http://] or [https://] and ends with a slash, the bucket,
    a slash and the resource path; a base URL that has a scheme is not
    given a second one. *)
Theorem buildResourceUrl_scheme (baseUrl bucket resourcePath : string) :
  (Js.startsWith (buildResourceUrl baseUrl bucket resourcePath) "http://"
     = true \/
   Js.startsWith (buildResourceUrl baseUrl bucket resourcePath) "https://"
     = true)
  /\ (exists origin,
        buildResourceUrl baseUrl bucket resourcePath =
          origin +:+ "/" +:+ bucket +:+ "/" +:+ resourcePath /\
        (origin = baseUrl \/ origin = "https://" +:+ baseUrl))
  /\ buildResourceUrl (buildResourceUrl baseUrl bucket resourcePath)
       bucket resourcePath
     = buildResourceUrl baseUrl bucket resourcePath
       +:+ "/" +:+ bucket +:+ "/" +:+ resourcePath.
Proof.
  assert (Hscheme :
    Js.startsWith (buildResourceUrl baseUrl bucket resourcePath) "http://"
      = true \/
    Js.startsWith (buildResourceUrl baseUrl bucket resourcePath) "https://"
      = true).
  { unfold buildResourceUrl.
    destruct (Js.startsWith baseUrl "http://") eqn:E1.
    { left. now apply startsWith_append. }
    destruct (Js.startsWith baseUrl "https://") eqn:E2.
    { right. now apply startsWith_append. }
    right. apply startsWith_iff. eexists. reflexivity. }
  split; [exact Hscheme|]. split.
  - unfold buildResourceUrl. destruct (_ || _).
    + exists baseUrl. split; [reflexivity|now left].
    + exists ("https://" +:+ baseUrl). split; [|now right].
      now rewrite append_assoc.
  - unfold buildResourceUrl at 1.
    destruct Hscheme as [-> | ->]; [reflexivity|].
    now rewrite orb_true_r.
Qed.

(** ** The path of a request *)

Lemma includes_app_sep (c : ascii) (p q : string) :
  Js.includes c (p +:+ String c q) = true.
Proof.
  induction p as [|d p IH].
  - change (EmptyString +:+ String c q) with (String c q).
    cbn [Js.includes]. now rewrite Ascii.eqb_refl.
  - rewrite append_cons. cbn [Js.includes]. rewrite IH. apply orb_true_r.
Qed.

(** The path handed to the resolver is the request URL up to its first
    question mark, and the whole URL when it has none. *)
Theorem pathnameOf_cuts_query (p q : string) (query : gmap string string) :
  Js.includes "?" p = false ->
  pathnameOf (mkRequest p query) = p /\
  pathnameOf (mkRequest (p +:+ "?" +:+ q) query) = p.
Proof.
  intros Hp. unfold pathnameOf. cbn [originalUrl]. split.
  - now rewrite Hp.
  - change (p +:+ "?" +:+ q) with (p +:+ String "?" q).
    rewrite includes_app_sep, split_app_sep by exact Hp. reflexivity.
Qed.

Lemma pathnameOf_cuts_query_witness :
  Js.includes "?" "/kbd/A/1.webp" = false /\
  pathnameOf (mkRequest "/kbd/A/1.webp?t=a?b" ∅) = "/kbd/A/1.webp".
Proof.
  assert (H : Js.includes "?" "/kbd/A/1.webp" = false) by reflexivity.
  split; [exact H|].
  exact (proj2 (pathnameOf_cuts_query "/kbd/A/1.webp" "t=a?b" ∅ H)).
Defined.

(** ** Decoding texts without escapes, and texts that cannot be decoded *)

Lemma tokens_cons_lit (c : ascii) (s : string) :
  Ascii.eqb c percent = false ->
  Uri.tokens (String c s) = cons (Uri.Lit c) <$> Uri.tokens s.
Proof.
  intros Hc.
  destruct c as [[] [] [] [] [] [] [] []]; try discriminate Hc;
    cbn [Uri.tokens]; now destruct (Uri.tokens s).
Qed.

Lemma replacePercent0A_cons (c : ascii) (s : string) :
  Ascii.eqb c percent = false ->
  replacePercent0A (String c s) = String c (replacePercent0A s).
Proof.
  intros Hc.
  destruct c as [[] [] [] [] [] [] [] []]; try discriminate Hc; reflexivity.
Qed.

Lemma decodeURIComponent_plain (s : string) :
  Js.includes percent s = false -> Uri.decodeURIComponent s = Some s.
Proof.
  intros H. unfold Uri.decodeURIComponent.
  assert (Ht : Uri.tokens s = Some (lits s)).
  { induction s as [|c s IH]; [reflexivity|].
    cbn [Js.includes] in H. apply orb_false_iff in H as [Hc Hs].
    rewrite (tokens_cons_lit c s Hc), (IH Hs). reflexivity. }
  rewrite Ht. cbn. clear.
  induction s as [|c s IH]; [reflexivity|].
  cbn [lits Uri.decodeTokens]. now rewrite IH.
Qed.

Lemma replacePercent0A_plain (s : string) :
  Js.includes percent s = false -> replacePercent0A s = s.
Proof.
  induction s as [|c s IH]; [reflexivity|].
  cbn [Js.includes]. intros H. apply orb_false_iff in H as [Hc Hs].
  rewrite (replacePercent0A_cons c s Hc), (IH Hs). reflexivity.
Qed.

Lemma replaceUnderscores_percent (s : string) :
  Js.includes percent (replaceUnderscores s) = Js.includes percent s.
Proof.
  induction s as [|c s IH]; [reflexivity|].
  cbn [replaceUnderscores Js.includes]. rewrite IH. f_equal.
  destruct (Ascii.eqb c "_") eqn:Hc; [|reflexivity].
  apply Ascii.eqb_eq in Hc. now subst c.
Qed.

(** A text without a percent sign decodes to itself with every underscore
    turned into a space; nothing else changes. *)
Theorem decodeText_plain (text : string) :
  Js.includes percent text = false ->
  decodeText text = Ok (replaceUnderscores text).
Proof.
  intros H. unfold decodeText.
  destruct (Js.truthy text) eqn:Ht; cbn [negb].
  - rewrite (decodeURIComponent_plain text H).
    rewrite replacePercent0A_plain; [reflexivity|].
    now rewrite replaceUnderscores_percent.
  - apply truthy_false in Ht. now subst text.
Qed.

Lemma decodeText_plain_witness :
  Js.includes percent "Hello_World" = false /\
  decodeText "Hello_World" = Ok "Hello World".
Proof.
  assert (H : Js.includes percent "Hello_World" = false) by reflexivity.
  split; [exact H|]. exact (decodeText_plain "Hello_World" H).
Defined.

Lemma replaceUnderscores_clean (s : string) :
  Js.includes "_" (replaceUnderscores s) = false.
Proof.
  induction s as [|c s IH]; [reflexivity|].
  cbn [replaceUnderscores Js.includes]. rewrite IH, orb_false_r.
  destruct (Ascii.eqb c "_") eqn:Hc; [reflexivity|exact Hc].
Qed.

Lemma replacePercent0A_clean (n : nat) (s : string) :
  (String.length s <= n)%nat ->
  Js.includes "_" s = false -> Js.includes "_" (replacePercent0A s) = false.
Proof.
  revert s. induction n as [|n IH]; intros s Hlen Hs.
  - destruct s; [reflexivity|simpl in Hlen; lia].
  - destruct s as [|c s]; [reflexivity|].
    cbn [String.length] in Hlen. cbn [Js.includes] in Hs.
    apply orb_false_iff in Hs as [Hc Hs].
    assert (Hkeep : Js.includes "_" (String c (replacePercent0A s)) = false).
    { cbn [Js.includes]. rewrite Hc. apply IH; [lia|exact Hs]. }
    destruct (Ascii.eqb c percent) eqn:Hp;
      [|now rewrite replacePercent0A_cons].
    apply Ascii.eqb_eq in Hp. subst c.
    destruct s as [|z s]; [exact Hkeep|].
    destruct z as [[] [] [] [] [] [] [] []]; try exact Hkeep.
    destruct s as [|a s]; [exact Hkeep|].
    cbn [replacePercent0A].
    destruct (Ascii.eqb a "A" || Ascii.eqb a "a"); [|exact Hkeep].
    cbn [Js.includes String.length] in *.
    apply orb_false_iff in Hs as [_ Hs].
    apply orb_false_iff in Hs as [_ Hs].
    cbn. apply IH; [lia|exact Hs].
Qed.

(** No decoded text contains an underscore: whether written as such or as
    the escape [%5F], it reaches the drawing routine as a space. *)
Theorem decodeText_no_underscore (text decoded : string) :
  decodeText text = Ok decoded -> Js.includes "_" decoded = false.
Proof.
  unfold decodeText. destruct (negb (Js.truthy text)).
  - intros [= <-]. reflexivity.
  - destruct (Uri.decodeURIComponent text) as [s|]; [|discriminate].
    intros [= <-].
    apply (replacePercent0A_clean (String.length (replaceUnderscores s)));
      [lia|apply replaceUnderscores_clean].
Qed.

Lemma decodeText_no_underscore_witness :
  decodeText "a_b%5Fc" = Ok "a b c" /\ Js.includes "_" "a b c" = false.
Proof.
  assert (H : decodeText "a_b%5Fc" = Ok "a b c") by reflexivity.
  split; [exact H|]. exact (decodeText_no_underscore _ _ H).
Defined.

Lemma tokens_trailing_percent (n : nat) (s : string) :
  (String.length s <= n)%nat -> Uri.tokens (s +:+ "%") = None.
Proof.
  revert s. induction n as [|n IH]; intros s Hlen.
  - destruct s; [reflexivity|simpl in Hlen; lia].
  - destruct s as [|c s]; [reflexivity|].
    cbn [String.length] in Hlen. rewrite append_cons.
    destruct (Ascii.eqb c percent) eqn:Hp.
    + apply Ascii.eqb_eq in Hp. subst c.
      destruct s as [|h [|l rest]]; [reflexivity| |].
      * change (String h EmptyString +:+ "%")
          with (String h (String percent EmptyString)).
        cbn [Uri.tokens]. now destruct (Uri.hexDigit h).
      * rewrite !append_cons. cbn [Uri.tokens String.length] in *.
        rewrite (IH rest) by lia.
        now destruct (Uri.hexDigit h), (Uri.hexDigit l).
    + rewrite (tokens_cons_lit c _ Hp), (IH s) by lia. reflexivity.
Qed.

Lemma truthy_append (s t : string) :
  Js.truthy t = true -> Js.truthy (s +:+ t) = true.
Proof. destruct s; [intros H; exact H|reflexivity]. Qed.

(** A text that ends with a percent sign cannot be decoded: [decodeText]
    throws, and so does the drawing of an element bound to such a text, in
    either handler, before anything is drawn. *)
Theorem trailing_percent_throws (text : string) :
  decodeText (text +:+ "%") = Throw URIError
  /\ forall (w : World) (fontSettings : Descriptor.FontSettings)
       (queryParams : gmap string string) (defaultStyle : Style.t)
       (ctx : Canvas) (element : Descriptor.Element) (q : string),
       Descriptor.query element = Some q ->
       queryParams !! q = Some (text +:+ "%") ->
       Server.drawElement w fontSettings queryParams defaultStyle ctx element
         = Throw URIError
       /\ forall available,
            Part002.drawElement w fontSettings available queryParams
              defaultStyle ctx element = Throw URIError.
Proof.
  assert (Hd : decodeText (text +:+ "%") = Throw URIError).
  { unfold decodeText, Uri.decodeURIComponent.
    rewrite truthy_append by reflexivity. cbn [negb].
    now rewrite (tokens_trailing_percent (String.length text) text). }
  split; [exact Hd|].
  intros w fs qp ds ctx el q Hq Hqp.
  unfold Server.drawElement, Part002.drawElement.
  rewrite Hq. cbn [mbind option_bind]. rewrite Hqp. cbn [orDefault].
  rewrite Hd. split; [reflexivity|]. intros; reflexivity.
Qed.

Lemma trailing_percent_throws_witness :
  Descriptor.query Demo.element = Some "t" /\
  ({["t" := "100%"]} : gmap string string) !! "t" = Some ("100" +:+ "%") /\
  Server.drawElement (Demo.world false) (fontSettingsOf Demo.config)
    {["t" := "100%"]} Demo.declared Demo.surface Demo.element
  = Throw URIError.
Proof.
  assert (Hq : Descriptor.query Demo.element = Some "t") by reflexivity.
  assert (Hqp : ({["t" := "100%"]} : gmap string string) !! "t"
                = Some ("100" +:+ "%")) by reflexivity.
  split; [exact Hq|]. split; [exact Hqp|].
  exact (proj1 (proj2 (trailing_percent_throws "100") (Demo.world false)
                  (fontSettingsOf Demo.config) {["t" := "100%"]}
                  Demo.declared Demo.surface Demo.element "t" Hq Hqp)).
Defined.

(** ** What wrapping keeps *)

Lemma split_app (sep : ascii) (a b : string) :
  Js.split sep (a +:+ String sep b) = Js.split sep a ++ Js.split sep b.
Proof.
  induction a as [|c a IH].
  - change (EmptyString +:+ String sep b) with (String sep b).
    cbn [Js.split]. now rewrite Ascii.eqb_refl.
  - rewrite append_cons. cbn [Js.split]. rewrite IH.
    destruct (Ascii.eqb c sep); [reflexivity|].
    destruct (Js.split sep a) as [|v vs] eqn:Ha;
      [now destruct (split_not_nil sep a)|reflexivity].
Qed.

Lemma wordsOf_app (a b : list string) :
  wordsOf (a ++ b) = wordsOf a ++ wordsOf b.
Proof.
  unfold wordsOf, Js.filterBoolean.
  now rewrite flat_map_app, List.filter_app.
Qed.

Lemma wordsOf_one (line : string) :
  wordsOf [line] = Js.filterBoolean (Js.split space line).
Proof. unfold wordsOf. cbn [flat_map]. now rewrite app_nil_r. Qed.

Lemma wordsOf_word (w : string) :
  Js.includes space w = false -> wordsOf [w] = Js.filterBoolean [w].
Proof. intros H. now rewrite wordsOf_one, (split_one space w H). Qed.

Lemma wrapWord_words (measure : string -> Q) (maxWidth : Q)
    (acc : list string * string) (word : string) :
  Js.includes space word = false ->
  let acc' := wrapWord measure maxWidth acc word in
  wordsOf (fst acc' ++ [snd acc']) =
  wordsOf (fst acc ++ [snd acc]) ++ Js.filterBoolean [word].
Proof.
  intros Hw. destruct acc as [out cur]. unfold wrapWord. cbn [fst snd].
  destruct (Js.truthy cur) eqn:Hcur.
  - destruct (gt _ maxWidth); cbn [andb fst snd].
    + now rewrite (wordsOf_app (out ++ [cur])), wordsOf_word.
    + rewrite !wordsOf_app, !wordsOf_one.
      change (cur +:+ " " +:+ word) with (cur +:+ String space word).
      rewrite split_app, (split_one space word Hw).
      unfold Js.filterBoolean. now rewrite List.filter_app, app_assoc.
  - rewrite andb_false_r. cbn [fst snd].
    apply truthy_false in Hcur. subst cur.
    change (EmptyString +:+ EmptyString +:+ word) with word.
    rewrite !wordsOf_app, (wordsOf_word word Hw).
    now rewrite wordsOf_one, app_nil_r.
Qed.

Lemma wrapLine_words (measure : string -> Q) (maxWidth : Q)
    (out : list string) (line : string) :
  wordsOf (wrapLine measure maxWidth out line) =
  wordsOf out ++ wordsOf [line].
Proof.
  unfold wrapLine.
  assert (Hfold : forall ws acc,
    Forall (fun w => Js.includes space w = false) ws ->
    let acc' := fold_left (wrapWord measure maxWidth) ws acc in
    wordsOf (fst acc' ++ [snd acc']) =
    wordsOf (fst acc ++ [snd acc]) ++ Js.filterBoolean ws).
  { induction ws as [|w ws IH]; intros acc Hall; cbn [fold_left].
    - cbn. now rewrite app_nil_r.
    - inversion Hall as [|? ? Hw Hws]; subst.
      cbv zeta. rewrite (IH _ Hws).
      rewrite (wrapWord_words measure maxWidth acc w Hw).
      cbn [Js.filterBoolean List.filter]. rewrite <- app_assoc.
      f_equal. unfold Js.filterBoolean. cbn [List.filter].
      now destruct (Js.truthy w). }
  specialize (Hfold (Js.split space line) (out, EmptyString)).
  cbv zeta in Hfold. cbn [fst snd] in Hfold.
  rewrite wordsOf_one.
  assert (Hfree : Forall (fun w => Js.includes space w = false)
                    (Js.split space line)).
  { apply List.Forall_forall. intros w Hw. eapply split_free, Hw. }
  specialize (Hfold Hfree).
  rewrite (wordsOf_app out [EmptyString]), app_nil_r in Hfold.
  rewrite <- Hfold.
  destruct (fold_left _ _ _) as [out' cur]. cbn [fst snd].
  destruct (Js.truthy cur) eqn:Hcur; [reflexivity|].
  apply truthy_false in Hcur. subst cur.
  now rewrite wordsOf_app, app_nil_r.
Qed.

Lemma measureLine_words (measure : string -> Q) (maxWidth : Q)
    (out : list string) (line : string) :
  wordsOf (measureLine measure maxWidth out line) =
  wordsOf out ++ wordsOf [line].
Proof.
  unfold measureLine. destruct (_ && _).
  - apply wrapLine_words.
  - apply wordsOf_app.
Qed.

Lemma layoutLine_words (measure : string -> Q) (textWidth : Q)
    (whiteSpace : string) (out : list string) (line : string) :
  wordsOf (Part002.layoutLine measure textWidth whiteSpace out line) =
  wordsOf out ++ wordsOf [line].
Proof.
  unfold Part002.layoutLine. destruct (_ || _).
  - apply wordsOf_app.
  - apply measureLine_words.
Qed.

Lemma fold_words (step : list string -> string -> list string)
    (lines out : list string) :
  (forall out line, wordsOf (step out line) = wordsOf out ++ wordsOf [line]) ->
  wordsOf (fold_left step lines out) = wordsOf out ++ wordsOf lines.
Proof.
  intros Hstep. revert out.
  induction lines as [|l lines IH]; intros out; cbn [fold_left].
  - unfold wordsOf at 3. cbn. now rewrite app_nil_r.
  - rewrite IH, Hstep, <- app_assoc. f_equal.
    now rewrite <- wordsOf_app.
Qed.

(** Wrapping loses no word and changes no order: the words of the lines
    drawn are the words of the hard lines, in both routines and in every
    white-space mode. *)
Theorem wrapping_keeps_words (measure : string -> Q) (w : Q)
    (whiteSpace text : string) :
  wordsOf (measuredLines measure w text) = wordsOf (Js.split newline text)
  /\ wordsOf (Part002.measuredLines measure w whiteSpace text)
     = wordsOf (Part002.hardLines whiteSpace text).
Proof.
  split.
  - unfold measuredLines. rewrite fold_words; [reflexivity|].
    apply measureLine_words.
  - unfold Part002.measuredLines. rewrite fold_words; [reflexivity|].
    apply layoutLine_words.
Qed.

Lemma fold_left_ext_in {A S} (f g : S -> A -> S) (l : list A) (s : S) :
  (forall s a, In a l -> f s a = g s a) ->
  fold_left f l s = fold_left g l s.
Proof.
  revert s. induction l as [|a l IH]; intros s H; cbn [fold_left];
    [reflexivity|].
  rewrite (H s a) by now left.
  apply IH. intros s' a' Hin. apply H. now right.
Qed.

Lemma le_gt_false (a b : Q) : (a <= b)%Q -> gt a b = false.
Proof.
  intros H. unfold gt. apply negb_false_iff. now apply Qle_bool_iff.
Qed.

(** A text whose hard lines all fit is not broken anywhere else: the lines
    drawn are the hard lines. *)
Theorem fitting_text_unchanged (measure : string -> Q) (w : Q)
    (text : string) :
  Forall (fun line => (measure line <= w)%Q) (Js.split newline text) ->
  measuredLines measure w text = Js.split newline text.
Proof.
  intros Hfit. unfold measuredLines.
  rewrite (fold_left_ext_in _ (fun out line => out ++ [line])).
  - now rewrite fold_left_push.
  - intros out line Hin. unfold measureLine.
    rewrite List.Forall_forall in Hfit.
    now rewrite (le_gt_false _ _ (Hfit line Hin)).
Qed.

Lemma fitting_text_unchanged_witness :
  let text := String "a" (String newline (String newline "bc d")) in
  Forall (fun line => (Demo.measureText (fontOf Style.empty) line <= 100)%Q)
    (Js.split newline text) /\
  measuredLines (Demo.measureText (fontOf Style.empty)) 100 text
    = ["a"; EmptyString; "bc d"].
Proof.
  intros text.
  assert (H : Forall
            (fun line =>
               (Demo.measureText (fontOf Style.empty) line <= 100)%Q)
            (Js.split newline text)).
  { repeat constructor; vm_compute; discriminate. }
  split; [exact H|].
  exact (fitting_text_unchanged _ _ text H).
Defined.

Lemma wrapLine_truthy (measure : string -> Q) (maxWidth : Q)
    (out : list string) (line : string) :
  Forall (fun l => Js.truthy l = true) out ->
  Forall (fun l => Js.truthy l = true) (wrapLine measure maxWidth out line).
Proof.
  intros Hout. unfold wrapLine.
  assert (Hinv : Forall (fun l => Js.truthy l = true)
                   (fst (fold_left (wrapWord measure maxWidth)
                           (Js.split space line) (out, EmptyString)))).
  { apply (fold_left_invariant _
             (fun acc => Forall (fun l => Js.truthy l = true) (fst acc))
             (fun _ => True)).
    - exact Hout.
    - apply Forall_forall. auto.
    - intros [o cur] word Ho _. unfold wrapWord. cbn [fst] in *.
      destruct (Js.truthy cur) eqn:Hcur;
        destruct (gt _ maxWidth); cbn [andb fst]; try exact Ho.
      apply Forall_app. split; [exact Ho|]. now constructor. }
  destruct (fold_left _ _ _) as [out' cur]. cbn [fst] in Hinv.
  destruct (Js.truthy cur) eqn:Hcur; [|exact Hinv].
  apply Forall_app. split; [exact Hinv|]. now constructor.
Qed.

(** The layout invents no blank line: when no hard line of the text is
    empty, no line drawn is empty. *)
Theorem no_blank_line_added (measure : string -> Q) (w : Q)
    (text : string) :
  Forall (fun l => Js.truthy l = true) (Js.split newline text) ->
  Forall (fun l => Js.truthy l = true) (measuredLines measure w text).
Proof.
  intros Hhard. unfold measuredLines.
  apply (fold_left_invariant _ (Forall (fun l => Js.truthy l = true))
           (fun l => Js.truthy l = true)).
  - constructor.
  - rewrite Forall_forall. rewrite List.Forall_forall in Hhard.
    intros l Hl. apply Hhard. now apply list_elem_of_In.
  - intros out line Hout Hline. unfold measureLine. destruct (_ && _).
    + now apply wrapLine_truthy.
    + apply Forall_app. split; [exact Hout|]. now constructor.
Qed.

Lemma no_blank_line_added_witness :
  Forall (fun l => Js.truthy l = true) (Js.split newline "aaa bbb  ccc") /\
  Forall (fun l => Js.truthy l = true)
    (measuredLines (Demo.measureText (fontOf Style.empty)) 40
       "aaa bbb  ccc").
Proof.
  assert (H : Forall (fun l => Js.truthy l = true)
                (Js.split newline "aaa bbb  ccc"))
    by (repeat constructor).
  split; [exact H|]. exact (no_blank_line_added _ _ _ H).
Defined.

(** ** The text calls of a drawing routine *)

Lemma flat_map_concat_imap {A B C} (proj : A -> list B)
    (f : nat -> C -> list A) (l : list C) :
  flat_map proj (concat (imap f l)) =
  concat (imap (fun i x => flat_map proj (f i x)) l).
Proof.
  revert f. induction l as [|x l IH]; intros f; [reflexivity|].
  cbn [imap concat]. rewrite flat_map_app. f_equal. apply IH.
Qed.

Lemma concat_imap_const {B C} (g : C -> list B) (l : list C) :
  concat (imap (fun _ x => g x) l) = flat_map g l.
Proof.
  induction l as [|x l IH]; [reflexivity|].
  cbn [imap concat flat_map]. f_equal. exact IH.
Qed.

Lemma textCalls_app (a b : list CanvasOp) :
  textCalls (a ++ b) = textCalls a ++ textCalls b.
Proof. unfold textCalls. apply flat_map_app. Qed.

(** Every line of the layout is filled once, in order, and nothing else is
    written; when the style has a positive stroke width and a non-empty
    stroke colour each line is outlined just before it is filled, and
    otherwise no outline is drawn at all. *)
Theorem stroke_under_fill (measureText : Font.t -> string -> Q)
    (ctx : Canvas) (text : string) (style : Style.t) :
  let outlined :=
    gt (orDefault 0%Q (Style.strokeWidth style)) 0
    && Js.truthy (orDefault "#ffffff" (Style.stroke style)) in
  let calls (line : string) :=
    if outlined then [(true, line); (false, line)] else [(false, line)] in
  textCalls (ops (drawTextOnCanvas measureText ctx text style)) =
    textCalls (ops ctx)
    ++ flat_map calls
         (measuredLines (measureText (fontOf style)) (boxWidthOf ctx style)
            text)
  /\ textCalls (ops (Part002.drawElementOnCanvas measureText ctx text style))
     = textCalls (ops ctx)
       ++ flat_map calls
            (Part002.measuredLines (measureText (fontOf style))
               (Part002.textWidthOf ctx style) (Part002.whiteSpaceOf style)
               text).
Proof.
  intros outlined calls. split.
  - unfold drawTextOnCanvas, draw. cbn [ops].
    rewrite textCalls_app. f_equal.
    unfold textCalls at 1. rewrite flat_map_concat_imap.
    rewrite <- (concat_imap_const calls). f_equal.
    apply imap_ext. intros i line _. subst calls outlined. cbv beta.
    now destruct (_ && _).
  - unfold Part002.drawElementOnCanvas, draw. cbn [ops].
    rewrite !textCalls_app. f_equal.
    match goal with
    | |- textCalls (if ?b then _ else _) ++ _ = _ => destruct b
    end; cbn [textCalls flat_map app];
      (unfold textCalls at 1 || fold (textCalls));
      rewrite flat_map_concat_imap;
      rewrite <- (concat_imap_const calls); f_equal;
      apply imap_ext; intros i line _; subst calls outlined; cbv beta;
      now destruct (_ && _).
Qed.

(** ** The extended routine without its extensions *)

Lemma gt_Qeq_r (a w w' : Q) : (w == w')%Q -> gt a w = gt a w'.
Proof. intros H. unfold gt. now rewrite H. Qed.

Lemma gt_Qeq_l (w w' b : Q) : (w == w')%Q -> gt w b = gt w' b.
Proof. intros H. unfold gt. now rewrite H. Qed.

Lemma measureLine_Qeq (measure : string -> Q) (w w' : Q)
    (out : list string) (line : string) :
  (w == w')%Q ->
  measureLine measure w out line = measureLine measure w' out line.
Proof.
  intros H. unfold measureLine, wrapLine.
  rewrite (gt_Qeq_r _ w w' H), (gt_Qeq_l w w' 0 H).
  rewrite (fold_left_ext_in (wrapWord measure w) (wrapWord measure w'));
    [reflexivity|].
  intros [o cur] word _. unfold wrapWord.
  now rewrite (gt_Qeq_r _ w w' H).
Qed.

(** A style without usable padding and in a wrapping mode is laid out by
    the extended routine exactly as by the text-only routine. *)
Theorem layout_without_padding (measureText : Font.t -> string -> Q)
    (ctx : Canvas) (style : Style.t) (text : string) :
  Part002.parsePadding (Style.padding style) = Part002.noPadding ->
  isStr (Part002.whiteSpaceOf style) "nowrap" = false ->
  isStr (Part002.whiteSpaceOf style) "pre" = false ->
  Part002.measuredLines (measureText (fontOf style))
    (Part002.textWidthOf ctx style) (Part002.whiteSpaceOf style) text
  = measuredLines (measureText (fontOf style)) (boxWidthOf ctx style) text.
Proof.
  intros Hpad Hn Hp.
  rewrite element_lines_default by assumption.
  unfold measuredLines. apply fold_left_ext_in. intros out line _.
  apply measureLine_Qeq.
  unfold Part002.textWidthOf. rewrite Hpad. cbn [Part002.left Part002.right
    Part002.noPadding]. lra.
Qed.

Lemma layout_without_padding_witness :
  Part002.parsePadding (Style.padding Demo.box100) = Part002.noPadding /\
  Part002.measuredLines (Demo.measureText (fontOf Demo.box100))
    (Part002.textWidthOf Demo.surface Demo.box100)
    (Part002.whiteSpaceOf Demo.box100) "aaa bbb ccc dddddddddddd ee"
  = measuredLines (Demo.measureText (fontOf Demo.box100))
      (boxWidthOf Demo.surface Demo.box100) "aaa bbb ccc dddddddddddd ee".
Proof.
  assert (Hpad : Part002.parsePadding (Style.padding Demo.box100)
                 = Part002.noPadding) by reflexivity.
  split; [exact Hpad|].
  apply (layout_without_padding Demo.measureText Demo.surface Demo.box100 _
           Hpad); reflexivity.
Defined.

(** ** The message of the placeholder *)

Lemma errorImage_step_wrap (measure : string -> Q) (words : list string)
    (out : list CanvasOp) (line : string) (y : Q) :
  let '(out', line', _) :=
    fold_left (ErrorImage.step measure) words (out, line, y) in
  fold_left (wrapWord measure 750) words (filledLines out, line)
  = (filledLines out', line').
Proof.
  revert out line y.
  induction words as [|word words IH]; intros out line y; [reflexivity|].
  cbn [fold_left]. unfold ErrorImage.step at 2, wrapWord at 2.
  destruct (gt _ 750 && Js.truthy line).
  - specialize (IH (out ++ [FillText (plainText (arial None 18)) line 400 y])
                   word (y + 25)%Q).
    rewrite filledLines_app in IH. exact IH.
  - apply IH.
Qed.

(** The placeholder is an 800 by 600 WebP surface that carries its four
    fixed lines and then the message, wrapped by the greedy rule at 750
    pixels: no word of the message is lost, and every message line
    measures at most 750 pixels or is a single word. *)
Theorem placeholder_message_wrapped (w : World) (message : string) :
  let measure := measureText w (arial None 18) in
  exists c,
    createErrorImage w message = Encoded "image/webp" c /\
    canvasWidth c = 800%Q /\ canvasHeight c = 600%Q /\
    filledLines (ops c) =
      [ "404"; "Not Found";
        "이 이미지는 오류가 발생했을 때 출력되는 이미지입니다.";
        "!디버깅 필요." ]
      ++ wrapLine measure 750 [] message /\
    wordsOf (wrapLine measure 750 [] message) = wordsOf [message] /\
    Forall (fits measure 750) (wrapLine measure 750 [] message).
Proof.
  intros measure. eexists. split; [reflexivity|].
  split; [reflexivity|]. split; [reflexivity|]. split; [|split].
  - cbn [ops draw createCanvas]. rewrite filledLines_app. cbn [app].
    change (filledLines [FillRect "#C5C5C5" 0 0 800 600;
              FillText (plainText (arial (Some "bold") 120)) "404" 400 200;
              FillText (plainText (arial (Some "bold") 48)) "Not Found"
                400 280;
              FillText (plainText (arial None 24))
                "이 이미지는 오류가 발생했을 때 출력되는 이미지입니다."
                400 360;
              FillText (plainText (arial None 24)) "!디버깅 필요." 400 400])
      with ["404"; "Not Found";
            "이 이미지는 오류가 발생했을 때 출력되는 이미지입니다.";
            "!디버깅 필요."].
    f_equal. fold measure. unfold ErrorImage.messageOps, wrapLine.
    destruct (Js.truthy message) eqn:Hm.
    + pose proof (errorImage_step_wrap measure (Js.split space message)
                    [] EmptyString 450%Q) as Hrel.
      destruct (fold_left (ErrorImage.step measure) _ _) as [[out line] y].
      cbn [filledLines flat_map] in Hrel. rewrite Hrel.
      destruct (Js.truthy line); [|reflexivity].
      now rewrite filledLines_app.
    + apply truthy_false in Hm. subst message.
      cbn [Js.split fold_left wrapWord Js.truthy]. rewrite andb_false_r.
      reflexivity.
  - rewrite wrapLine_words. reflexivity.
  - apply wrapLine_fits. constructor.
Qed.

(** ** Padding *)

Lemma pxValues_digit (c : ascii) (k : nat) (s : string) (run : option nat) :
  Part002.digit c = Some k ->
  Part002.pxValues (String c s) run
  = Part002.pxValues s (Some (10 * orDefault 0 run + k)).
Proof. intros H. cbn [Part002.pxValues]. now rewrite H. Qed.

Lemma pxValues_digits (d : Decimal.uint) (rest : string) (run : option nat) :
  Part002.pxValues (NilEmpty.string_of_uint d +:+ rest) run =
  Part002.pxValues rest
    (match d with
     | Decimal.Nil => run
     | _ => Some (Nat.of_uint_acc d (orDefault 0 run))
     end).
Proof.
  revert run.
  induction d as [|d IH|d IH|d IH|d IH|d IH|d IH|d IH|d IH|d IH|d IH];
    intros run; [reflexivity|..];
    cbn [NilEmpty.string_of_uint]; rewrite append_cons;
    (erewrite pxValues_digit by reflexivity);
    rewrite IH; f_equal;
    destruct d; cbn [Nat.of_uint_acc orDefault];
    rewrite ?Nat.tail_mul_spec; f_equal; try f_equal;
    match goal with
    | |- context [(nat_of_ascii ?c - 48)%nat] =>
        let k := eval vm_compute in (nat_of_ascii c - 48)%nat in
        change (nat_of_ascii c - 48)%nat with k
    end; lia.
Qed.

Lemma to_uint_not_nil (n : nat) : Nat.to_uint n <> Decimal.Nil.
Proof.
  rewrite <- (DecimalNat.Unsigned.of_to n) at 1.
  rewrite DecimalNat.Unsigned.to_of. unfold Decimal.unorm.
  destruct (Decimal.nzhead (Nat.to_uint n)); discriminate.
Qed.

(** A pixel length written in decimal is read back as its value. *)
Lemma pxValues_px (n : nat) (rest : string) :
  Part002.pxValues (showNat n +:+ "px" +:+ rest) None
  = n :: Part002.pxValues rest None.
Proof.
  unfold showNat. rewrite pxValues_digits.
  pose proof (to_uint_not_nil n) as Hnil.
  pose proof (DecimalNat.Unsigned.of_to n) as Hval.
  unfold Nat.of_uint in Hval.
  destruct (Nat.to_uint n); [congruence|..];
    cbn [orDefault]; rewrite Hval; reflexivity.
Qed.

Lemma pxValues_space (s : string) :
  Part002.pxValues (" " +:+ s) None = Part002.pxValues s None.
Proof. reflexivity. Qed.

Lemma pxValues_last (n : nat) : Part002.pxValues (px n) None = [n].
Proof.
  unfold px.
  change (showNat n +:+ "px") with (showNat n +:+ "px" +:+ EmptyString).
  now rewrite pxValues_px.
Qed.

Lemma px_truthy (n : nat) (rest : string) :
  Js.truthy (px n +:+ rest) = true.
Proof.
  unfold px. rewrite append_assoc. apply truthy_append. reflexivity.
Qed.

(** The padding shorthand with lengths written in decimal, each within
    the integers [parseInt] reads exactly: one length sets all four sides,
    two set the vertical and the horizontal sides, four set top, right,
    bottom and left, and three give no padding. *)
Theorem parsePadding_shorthand (a b c d : nat) :
  Part002.safeInteger a -> Part002.safeInteger b ->
  Part002.safeInteger c -> Part002.safeInteger d ->
  Part002.parsePadding (Some (px a))
    = Part002.mkPadding (ofNat a) (ofNat a) (ofNat a) (ofNat a)
  /\ Part002.parsePadding (Some (px a +:+ " " +:+ px b))
     = Part002.mkPadding (ofNat a) (ofNat b) (ofNat a) (ofNat b)
  /\ Part002.parsePadding (Some (px a +:+ " " +:+ px b +:+ " " +:+ px c))
     = Part002.noPadding
  /\ Part002.parsePadding
       (Some (px a +:+ " " +:+ px b +:+ " " +:+ px c +:+ " " +:+ px d))
     = Part002.mkPadding (ofNat a) (ofNat b) (ofNat c) (ofNat d).
Proof.
  intros _ _ _ _.
  assert (Hstep : forall n rest,
    Part002.pxValues (px n +:+ " " +:+ rest) None
    = n :: Part002.pxValues rest None).
  { intros n rest. unfold px. rewrite append_assoc, pxValues_px.
    now rewrite pxValues_space. }
  unfold Part002.parsePadding.
  repeat split.
  - rewrite <- (append_nil_r (px a)) at 1. rewrite px_truthy.
    cbn [negb]. now rewrite pxValues_last.
  - rewrite px_truthy. cbn [negb]. now rewrite Hstep, pxValues_last.
  - rewrite px_truthy. cbn [negb]. now rewrite !Hstep, pxValues_last.
  - rewrite px_truthy. cbn [negb]. now rewrite !Hstep, pxValues_last.
Qed.

Lemma parsePadding_shorthand_witness :
  Part002.safeInteger 12 /\ Part002.safeInteger 16 /\
  Part002.parsePadding (Some "12px 16px") = Part002.mkPadding 12 16 12 16 /\
  Part002.parsePadding (Some "12px 16px 1px") = Part002.noPadding.
Proof.
  assert (H12 : Part002.safeInteger 12) by (vm_compute; discriminate).
  assert (H16 : Part002.safeInteger 16) by (vm_compute; discriminate).
  assert (H1 : Part002.safeInteger 1) by (vm_compute; discriminate).
  split; [exact H12|]. split; [exact H16|].
  destruct (parsePadding_shorthand 12 16 1 1 H12 H16 H1 H1)
    as (_ & Htwo & Hthree & _).
  split; [exact Htwo|exact Hthree].
Defined.

Lemma pxValues_no_p (s : string) (run : option nat) :
  Js.includes "p" s = false -> Part002.pxValues s run = [].
Proof.
  revert run. induction s as [|c s IH]; intros run H; [reflexivity|].
  cbn [Js.includes] in H. apply orb_false_iff in H as [Hc Hs].
  cbn [Part002.pxValues]. destruct (Part002.digit c); [now apply IH|].
  destruct c as [[] [] [] [] [] [] [] []]; try discriminate Hc;
    destruct run; now apply IH.
Qed.

(** A padding that names no pixel length, such as a bare number or a
    length in another unit, is no padding at all. *)
Theorem padding_without_px (padding : string) :
  Js.includes "p" padding = false ->
  Part002.parsePadding (Some padding) = Part002.noPadding.
Proof.
  intros H. unfold Part002.parsePadding.
  destruct (negb (Js.truthy padding)); [reflexivity|].
  now rewrite (pxValues_no_p padding None H).
Qed.

Lemma padding_without_px_witness :
  Js.includes "p" "12 1.5em" = false /\
  Part002.parsePadding (Some "12 1.5em") = Part002.noPadding /\
  Part002.textWidthOf Demo.surface
    (Style.mk None None (Some 100%Q) None None None None None None None
       None None None None (Some "12 1.5em") None None None None None)
  = (100 - 0 - 0)%Q.
Proof.
  assert (H : Js.includes "p" "12 1.5em" = false) by reflexivity.
  split; [exact H|].
  pose proof (padding_without_px "12 1.5em" H) as Hpad.
  split; [exact Hpad|].
  unfold Part002.textWidthOf. cbn [Style.padding]. rewrite Hpad. reflexivity.
Defined.

(** ** The font cache over time *)

Lemma grows_refl (st : ServerState) : grows st st.
Proof. split; reflexivity. Qed.

Lemma grows_trans (a b c : ServerState) : grows a b -> grows b c -> grows a c.
Proof. intros [H1 H2] [H3 H4]. split; etrans; eassumption. Qed.

Lemma registerCached_grows (w : World) (st : ServerState)
    (cacheFile fontFamily : string) (io : list IoEvent) :
  grows st (snd (fst (registerCached w st cacheFile fontFamily io))).
Proof.
  unfold registerCached.
  destruct (registerFromPath w cacheFile fontFamily); cbn [fst snd].
  - split; cbn [registeredFonts files addRegistered];
      [apply union_subseteq_r|reflexivity].
  - apply grows_refl.
Qed.

Lemma registerFontFromUrl_grows (w : World) (st : ServerState)
    (fontUrl fontFamily : string) :
  grows st (snd (fst (registerFontFromUrl w st fontUrl fontFamily))).
Proof.
  unfold registerFontFromUrl.
  destruct (bool_decide _); [apply grows_refl|].
  destruct (urlPathname w fontUrl); [|apply grows_refl].
  cbv zeta. set (cacheFile := FONT_CACHE_DIR w +:+ _).
  destruct (files st !! cacheFile) eqn:Hfile; [apply registerCached_grows|].
  destruct (fetch w fontUrl) as [|status statusText body];
    [apply grows_refl|].
  destruct (negb (ok status)); [apply grows_refl|].
  destruct (negb (Js.truthy body)); [apply grows_refl|].
  eapply grows_trans; [|apply registerCached_grows].
  split; cbn [registeredFonts files writeFile]; [reflexivity|].
  now apply insert_subseteq.
Qed.

Lemma loadFont_grows (w : World) (st : ServerState)
    (fontUrl : option string) :
  grows st (snd (loadFont w st fontUrl)).
Proof.
  unfold loadFont. destruct fontUrl as [url|]; [|apply grows_refl].
  pose proof (registerFontFromUrl_grows w st url "CustomR2Font") as H.
  destruct (registerFontFromUrl w st url "CustomR2Font") as [[[|] st'] io];
    exact H.
Qed.

(** Across any request the state only grows, in both handlers: a family
    once registered stays registered, and a file once in the cache is
    neither removed nor rewritten, whatever the outcome of the request. *)
Theorem handler_state_grows (w : World) (st : ServerState) (req : Request) :
  grows st (snd (Server.handler w st req))
  /\ grows st (snd (Part002.handler w st req)).
Proof.
  split.
  - unfold Server.handler. destruct (reserved w _); [apply grows_refl|].
    assert (H : grows st (snd (Server.render w st req (pathnameOf req)))).
    { unfold Server.render.
      destruct (resolveAndFetch w req _) as [f|e]; [|apply grows_refl].
      destruct (Server.surfaceSize _) as [width height].
      pose proof (loadFont_grows w st (fontUrlOf f)) as Hf.
      destruct (loadFont w st (fontUrlOf f)) as [loaded st']. exact Hf. }
    destruct (Server.render w st req (pathnameOf req)) as [[|] st']; exact H.
  - unfold Part002.handler. destruct (reserved w _); [apply grows_refl|].
    assert (H : grows st (snd (Part002.render w st req (pathnameOf req)))).
    { unfold Part002.render.
      destruct (resolveAndFetch w req _) as [f|e]; [|apply grows_refl].
      destruct (Part002.surfaceSize _) as [width height].
      pose proof (loadFont_grows w st (fontUrlOf f)) as Hf.
      destruct (loadFont w st (fontUrlOf f)) as [loaded st']. exact Hf. }
    destruct (Part002.render w st req (pathnameOf req)) as [[|] st']; exact H.
Qed.

Lemma registerCached_files (w : World) (st : ServerState)
    (cacheFile fontFamily : string) (io : list IoEvent) :
  files (snd (fst (registerCached w st cacheFile fontFamily io))) = files st.
Proof.
  unfold registerCached.
  now destruct (registerFromPath w cacheFile fontFamily).
Qed.

(** After a registration that was carried out, the font file is in the
    cache. *)
Lemma registered_file_cached (w : World) (st st1 : ServerState)
    (fontUrl fontFamily : string) (io1 : list IoEvent) :
  fontFamily ∉ registeredFonts st ->
  registerFontFromUrl w st fontUrl fontFamily = (Ok tt, st1, io1) ->
  exists urlPath bytes,
    urlPathname w fontUrl = Ok urlPath /\
    files st1 !! cacheFileOf w fontUrl urlPath = Some bytes.
Proof.
  intros Hnot. unfold registerFontFromUrl.
  rewrite bool_decide_eq_false_2 by exact Hnot.
  destruct (urlPathname w fontUrl) as [urlPath|e]; [|discriminate].
  cbv zeta. fold (cacheFileOf w fontUrl urlPath).
  set (cacheFile := cacheFileOf w fontUrl urlPath).
  destruct (files st !! cacheFile) as [bytes|] eqn:Hfile.
  - intros H. exists urlPath, bytes. split; [reflexivity|].
    pose proof (registerCached_files w st cacheFile fontFamily
                  [FsExists cacheFile; FsRead cacheFile]) as Hf.
    rewrite H in Hf. cbn [fst snd] in Hf. now rewrite Hf.
  - destruct (fetch w fontUrl) as [|status statusText body]; [discriminate|].
    destruct (negb (ok status)); [discriminate|].
    destruct (negb (Js.truthy body)); [discriminate|].
    intros H. exists urlPath, body. split; [reflexivity|].
    pose proof (registerCached_files w (writeFile cacheFile body st)
                  cacheFile fontFamily
                  ([FsExists cacheFile; NetFetch fontUrl]
                   ++ [FsWrite cacheFile body])) as Hf.
    rewrite H in Hf. cbn [fst snd] in Hf. rewrite Hf.
    cbn [files writeFile]. apply lookup_insert_eq.
Qed.

(** A font file is downloaded at most once: after a registration from a
    URL was carried out, no later registration from that URL, for whatever
    family and whatever the network has become, makes a network request;
    the file is read from the cache directory. *)
Theorem font_downloaded_once (w w2 : World) (st st1 st2 : ServerState)
    (fontUrl family1 family2 : string) (io1 : list IoEvent) :
  family1 ∉ registeredFonts st ->
  registerFontFromUrl w st fontUrl family1 = (Ok tt, st1, io1) ->
  grows st1 st2 ->
  md5hex w2 fontUrl = md5hex w fontUrl ->
  urlPathname w2 fontUrl = urlPathname w fontUrl ->
  (forall p, extname w2 p = extname w p) ->
  FONT_CACHE_DIR w2 = FONT_CACHE_DIR w ->
  Forall offNetwork (snd (registerFontFromUrl w2 st2 fontUrl family2)).
Proof.
  intros Hnot H1 [_ Hfiles] Hmd5 Hurl Hext Hdir.
  destruct (registered_file_cached w st st1 fontUrl family1 io1 Hnot H1)
    as (urlPath & bytes & Hpath & Hcached).
  unfold registerFontFromUrl.
  destruct (bool_decide _); [constructor|].
  rewrite Hurl, Hpath. cbv zeta.
  rewrite Hmd5, !Hext, Hdir. fold (cacheFileOf w fontUrl urlPath).
  rewrite (lookup_weaken _ _ _ _ Hcached Hfiles).
  unfold registerCached.
  destruct (registerFromPath w2 _ family2); cbn [snd];
    repeat constructor.
Qed.

Lemma font_downloaded_once_witness :
  exists st1 io1,
    registerFontFromUrl (Demo.world true) Demo.fresh Demo.fontUrl
      "CustomR2Font" = (Ok tt, st1, io1) /\
    ~ Forall offNetwork io1 /\
    Forall offNetwork
      (snd (registerFontFromUrl Demo.offline st1 Demo.fontUrl "Headline")).
Proof.
  destruct (registerFontFromUrl (Demo.world true) Demo.fresh Demo.fontUrl
              "CustomR2Font") as [[r st1] io1] eqn:H1.
  assert (Hr : r = Ok tt /\ ~ Forall offNetwork io1).
  { vm_compute in H1. injection H1 as <- _ <-. split; [reflexivity|].
    intros Hall. inversion Hall as [|? ? _ Hrest]; subst.
    inversion Hrest as [|? ? Hnet _]; subst. exact Hnet. }
  destruct Hr as [-> Hio].
  exists st1, io1. split; [reflexivity|]. split; [exact Hio|].
  apply (font_downloaded_once (Demo.world true) Demo.offline Demo.fresh st1
           st1 Demo.fontUrl "CustomR2Font" "Headline" io1);
    try reflexivity.
  - apply not_elem_of_empty.
  - exact H1.
  - apply grows_refl.
Defined.

(** ** What the handlers answer *)

Lemma reserved_favicon (w : World) (rest : string) :
  reserved w ("/favicon" +:+ rest) = Some (mkResponse 404 [] NoBody).
Proof.
  unfold reserved.
  change (isStr ("/favicon" +:+ rest) "/health") with false. cbv iota.
  assert (H : Js.startsWith ("/favicon" +:+ rest) "/favicon" = true)
    by (apply startsWith_iff; eauto).
  now rewrite H, orb_true_r.
Qed.

Lemma reserved_well_known (w : World) (rest : string) :
  reserved w ("/.well-known" +:+ rest) = Some (mkResponse 404 [] NoBody).
Proof.
  unfold reserved.
  change (isStr ("/.well-known" +:+ rest) "/health") with false.
  change (isStr ("/.well-known" +:+ rest) "/favicon.ico") with false.
  change (Js.startsWith ("/.well-known" +:+ rest) "/favicon") with false.
  change (isStr ("/.well-known" +:+ rest) "/robots.txt") with false.
  cbv iota. cbn [orb].
  assert (H : Js.startsWith ("/.well-known" +:+ rest) "/.well-known" = true)
    by (apply startsWith_iff; eauto).
  now rewrite H.
Qed.

(** The reserved paths are answered before any path resolution, without
    a fetch and without a change of state, for every request the router
    hands to the handler: [/health] gets status 200 and the health
    document, every path that starts with [/favicon] or with
    [/.well-known], and [/robots.txt], get status 404 without a body,
    whether or not the resolver would accept the path. *)
Theorem reserved_paths_short_circuit (w : World) (st : ServerState)
    (req : Request) :
  routed (pathnameOf req) = true ->
  (pathnameOf req = "/health" ->
   Server.handler w st req =
     (Responded (mkResponse 200 [] (HealthJson (BASE_URL w))), st) /\
   Part002.handler w st req =
     (Responded (mkResponse 200 [] (HealthJson (BASE_URL w))), st))
  /\ ((exists rest, pathnameOf req = "/favicon" +:+ rest) \/
      pathnameOf req = "/robots.txt" \/
      (exists rest, pathnameOf req = "/.well-known" +:+ rest) ->
      Server.handler w st req = (Responded (mkResponse 404 [] NoBody), st) /\
      Part002.handler w st req = (Responded (mkResponse 404 [] NoBody), st)).
Proof.
  intros _. split.
  - intros Hp. unfold Server.handler, Part002.handler. rewrite Hp.
    split; reflexivity.
  - intros H.
    assert (Hres : reserved w (pathnameOf req)
                   = Some (mkResponse 404 [] NoBody)).
    { destruct H as [[rest ->]|[->|[rest ->]]];
        [apply reserved_favicon|reflexivity|apply reserved_well_known]. }
    unfold Server.handler, Part002.handler. rewrite Hres.
    split; reflexivity.
Qed.

Lemma reserved_paths_short_circuit_witness :
  routed (pathnameOf (mkRequest "/favicons/A/1.webp?t=hi" ∅)) = true /\
  (exists rest,
     pathnameOf (mkRequest "/favicons/A/1.webp?t=hi" ∅)
     = "/favicon" +:+ rest) /\
  (exists info, extractPathInfo "/favicons/A/1.webp" = Ok info) /\
  Server.handler Demo.offline Demo.fresh
    (mkRequest "/favicons/A/1.webp?t=hi" ∅)
  = (Responded (mkResponse 404 [] NoBody), Demo.fresh).
Proof.
  assert (Hr : routed (pathnameOf (mkRequest "/favicons/A/1.webp?t=hi" ∅))
               = true) by reflexivity.
  assert (H : exists rest,
            pathnameOf (mkRequest "/favicons/A/1.webp?t=hi" ∅)
            = "/favicon" +:+ rest)
    by (exists "s/A/1.webp"; reflexivity).
  split; [exact Hr|]. split; [exact H|].
  split; [eexists; reflexivity|].
  exact (proj1 (proj2 (reserved_paths_short_circuit Demo.offline Demo.fresh
                         (mkRequest "/favicons/A/1.webp?t=hi" ∅) Hr)
                  (or_introl H))).
Defined.

(** An element is bound to a text only through a non-empty query key
    other than [baseUrl]: an element without key, with an empty key or with
    the key [baseUrl] matches no request, whatever its parameters.  The
    filter calls [queryParams.hasOwnProperty], which a parameter of that
    name would shadow with a string; such a request is left out. *)
Theorem baseUrl_is_no_text_key (req : Request) (element : Descriptor.Element) :
  reqQuery req !! "hasOwnProperty" = None ->
  Descriptor.query element = None \/
  Descriptor.query element = Some EmptyString \/
  Descriptor.query element = Some "baseUrl" ->
  matches (queryParamsOf req) element = false.
Proof.
  intros _ [H|[H|H]]; unfold matches; rewrite H; [reflexivity..|].
  unfold queryParamsOf. rewrite lookup_delete_eq. cbn [Js.truthy andb].
  apply bool_decide_eq_false_2. intros [x Hx]. discriminate Hx.
Qed.

Lemma baseUrl_is_no_text_key_witness :
  reqQuery Demo.localRequest !! "hasOwnProperty" = None /\
  Descriptor.query (Descriptor.mkElement (Some "baseUrl") None false)
    = Some "baseUrl" /\
  matches (queryParamsOf Demo.localRequest)
    (Descriptor.mkElement (Some "baseUrl") None false) = false.
Proof.
  assert (H : Descriptor.query
                (Descriptor.mkElement (Some "baseUrl") None false)
              = Some "baseUrl") by reflexivity.
  assert (Hown : reqQuery Demo.localRequest !! "hasOwnProperty" = None)
    by (vm_compute; reflexivity).
  split; [exact Hown|]. split; [exact H|].
  apply (baseUrl_is_no_text_key _ _ Hown). right; right. exact H.
Defined.

Lemma filter_none {A} (f : A -> bool) (l : list A) :
  Forall (fun a => f a = false) l -> List.filter f l = [].
Proof.
  induction 1 as [|a l Ha _ IH]; [reflexivity|].
  cbn [List.filter]. now rewrite Ha.
Qed.

(** A request that gives no text to any element is not an error: when the
    configuration and the image are fetched and decoded and no element
    matches the query, both handlers encode the surface with the base image
    scaled onto it and nothing else.  (A parameter named [hasOwnProperty]
    would make the filter itself throw; such a request is left out.) *)
Theorem unmatched_request_base_image (w : World) (st : ServerState)
    (req : Request) (pathname : string) (f : Fetched) (image : Img.t) :
  reqQuery req !! "hasOwnProperty" = None ->
  resolveAndFetch w req pathname = Ok f ->
  loadImage w (imageBuffer f) = Ok image ->
  Forall (fun el => matches (queryParamsOf req) el = false)
    (Descriptor.elements (config f)) ->
  let '(width, height) := Server.surfaceSize (imageSizeOf (config f)) in
  let base :=
    Encoded "image/webp"
      (mkCanvas width height [DrawImage image 0 0 width height]) in
  fst (Server.render w st req pathname) = Ok base /\
  fst (Part002.render w st req pathname) = Ok base.
Proof.
  intros _ Hf Himg Hnone.
  unfold Server.render, Part002.render. rewrite Hf.
  change (Part002.surfaceSize (imageSizeOf (config f)))
    with (Server.surfaceSize (imageSizeOf (config f))).
  destruct (Server.surfaceSize _) as [width height].
  destruct (loadFont w st (fontUrlOf f)) as [loaded st']. cbn [fst].
  rewrite Himg, (filter_none _ _ Hnone). split; reflexivity.
Qed.

Lemma unmatched_request_base_image_witness :
  exists f image,
    reqQuery (mkRequest "/kbd/A/A/EMO/A/1.webp" ∅) !! "hasOwnProperty"
      = None /\
    resolveAndFetch (Demo.world false)
      (mkRequest "/kbd/A/A/EMO/A/1.webp" ∅) "/kbd/A/A/EMO/A/1.webp" = Ok f /\
    loadImage (Demo.world false) (imageBuffer f) = Ok image /\
    fst (Server.render (Demo.world false) Demo.fresh
           (mkRequest "/kbd/A/A/EMO/A/1.webp" ∅) "/kbd/A/A/EMO/A/1.webp")
    = Ok (Encoded "image/webp"
            (mkCanvas 800 600 [DrawImage image 0 0 800 600])).
Proof.
  destruct (resolveAndFetch (Demo.world false)
              (mkRequest "/kbd/A/A/EMO/A/1.webp" ∅) "/kbd/A/A/EMO/A/1.webp")
    as [f|e] eqn:Hf; [|vm_compute in Hf; discriminate Hf].
  assert (Hcfg : config f = Demo.config /\ imageBuffer f = "RIFF").
  { vm_compute in Hf. injection Hf as <-. split; reflexivity. }
  destruct Hcfg as [Hcfg Hbuf].
  exists f, (Img.mk 1024 768).
  assert (Himg : loadImage (Demo.world false) (imageBuffer f)
                 = Ok (Img.mk 1024 768)) by (rewrite Hbuf; reflexivity).
  assert (Hnone : Forall
            (fun el =>
               matches (queryParamsOf (mkRequest "/kbd/A/A/EMO/A/1.webp" ∅))
                 el = false)
            (Descriptor.elements (config f)))
    by (rewrite Hcfg; repeat constructor).
  split; [reflexivity|]. split; [reflexivity|]. split; [exact Himg|].
  pose proof (unmatched_request_base_image (Demo.world false) Demo.fresh
                (mkRequest "/kbd/A/A/EMO/A/1.webp" ∅)
                "/kbd/A/A/EMO/A/1.webp" f (Img.mk 1024 768) eq_refl
                Hf Himg Hnone)
    as H.
  rewrite Hcfg in H. exact (proj1 H).
Defined.

Lemma decodeText_empty_iff_witness :
  decodeText EmptyString = Ok EmptyString /\
  decodeText "%20" <> Ok EmptyString.
Proof.
  split.
  - exact (proj2 (decodeText_empty_iff EmptyString) eq_refl).
  - intros H. apply (proj1 (decodeText_empty_iff "%20")) in H.
    discriminate H.
Defined.

(** The guard of unnamed/part_002 on the custom font.  The font is flagged
    available exactly when [registerFontFromUrl] returned; an element is
    drawn with the family it declares when the flag is down, as after a
    registration that threw.  The flag does not tell whether the backend
    took the font: when the file is at hand and the backend refuses it
    without throwing, the flag is up, and an element that asks for the
    custom font under mode [r2] is drawn with the family [CustomR2Font]. *)
Theorem part002_font_guard (w : World) (st : ServerState)
    (url urlPath : string) (fontSettings : Descriptor.FontSettings)
    (defaultStyle : Style.t) (element : Descriptor.Element) :
  let available :=
    Part002.r2FontAvailable (Some url)
      (fst (loadFont w st (Some url))) (snd (loadFont w st (Some url))) in
  let declared :=
    Style.spread defaultStyle
      (orDefault Style.empty (Descriptor.style element)) in
  (available = true <->
   fst (fst (registerFontFromUrl w st url "CustomR2Font")) = Ok tt)
  /\ (available = false ->
      Part002.styleOf fontSettings available defaultStyle element = declared)
  /\ ("CustomR2Font" ∉ registeredFonts st ->
      urlPathname w url = Ok urlPath ->
      (is_Some (files st !! cacheFileOf w url urlPath) \/
       exists status statusText fontBuffer,
         fetch w url = FetchResponse status statusText fontBuffer /\
         ok status = true /\ Js.truthy fontBuffer = true) ->
      registerFromPath w (cacheFileOf w url urlPath) "CustomR2Font"
        = Ok false ->
      available = true /\
      (Descriptor.useR2Font element = true ->
       modeIsR2 fontSettings = true ->
       Part002.styleOf fontSettings available defaultStyle element
       = Style.setFontFamily "CustomR2Font" declared)).
Proof.
  intros available declared.
  assert (Hiff : available = true <->
            fst (fst (registerFontFromUrl w st url "CustomR2Font")) = Ok tt).
  { subst available. unfold loadFont, Part002.r2FontAvailable.
    destruct (registerFontFromUrl w st url "CustomR2Font")
      as [[[[]|e] st'] io] eqn:Hcall; cbn [fst snd].
    - split; [reflexivity|]. intros _.
      pose proof (registerFontFromUrl_returned_in w st url
                    "CustomR2Font" st' io Hcall) as Hin.
      rewrite (bool_decide_eq_true_2 _ Hin).
      rewrite bool_decide_eq_true_2 by eauto. reflexivity.
    - rewrite andb_false_r. split; discriminate. }
  split; [exact Hiff|]. split.
  - intros Hdown. unfold Part002.styleOf. rewrite Hdown.
    now rewrite andb_false_r.
  - intros Hnot Hpath Hfile Hrefused.
    destruct (registerFontFromUrl_answered w st url "CustomR2Font" urlPath
                false Hnot Hpath Hfile Hrefused)
      as (st1 & io0 & Hcall & _).
    assert (Hup : available = true)
      by (apply Hiff; now rewrite Hcall).
    split; [exact Hup|].
    intros Huse Hmode. unfold Part002.styleOf.
    now rewrite Huse, Hmode, Hup.
Qed.

Lemma part002_font_guard_witness :
  registerFromPath Demo.refusing
    (cacheFileOf Demo.refusing Demo.fontUrl "/kbd/A/A/EMO/fonts/f.ttf")
    "CustomR2Font" = Ok false /\
  Style.fontFamily
    (Part002.styleOf (fontSettingsOf Demo.config)
       (Part002.r2FontAvailable (Some Demo.fontUrl)
          (fst (loadFont Demo.refusing Demo.fresh (Some Demo.fontUrl)))
          (snd (loadFont Demo.refusing Demo.fresh (Some Demo.fontUrl))))
       (defaultStyleOf Demo.config) Demo.element)
  = Some "CustomR2Font" /\
  exists c st',
    Part002.handler Demo.refusing Demo.fresh Demo.request =
      (Responded (sendImage (Encoded "image/webp" c)), st') /\
    textFamilies c = ["CustomR2Font"].
Proof.
  assert (Hrefused :
    registerFromPath Demo.refusing
      (cacheFileOf Demo.refusing Demo.fontUrl "/kbd/A/A/EMO/fonts/f.ttf")
      "CustomR2Font" = Ok false) by reflexivity.
  split; [exact Hrefused|]. split.
  - destruct (part002_font_guard Demo.refusing Demo.fresh Demo.fontUrl
                "/kbd/A/A/EMO/fonts/f.ttf" (fontSettingsOf Demo.config)
                (defaultStyleOf Demo.config) Demo.element)
      as (_ & _ & Hguard).
    destruct Hguard as [_ Hstyle].
    + apply not_elem_of_empty.
    + reflexivity.
    + right. exists 200%Z, "OK", "OTTO". repeat split; reflexivity.
    + exact Hrefused.
    + rewrite Hstyle; reflexivity.
  - do 2 eexists. split; reflexivity.
Defined.

(** ** The affection window *)

Lemma gt_true_lt (a b : Q) : gt a b = true -> (b < a)%Q.
Proof.
  unfold gt. intros H. apply negb_true_iff in H.
  apply Qnot_le_lt. intros Hle. apply Qle_bool_iff in Hle. congruence.
Qed.

Section Gauge.
Variable p : Affection.Platform.
Hypothesis Hrounds : Affection.rounds p.

Lemma fl_mono (x y : Q) :
  (x <= y)%Q -> (Affection.fl p x <= Affection.fl p y)%Q.
Proof. apply Hrounds. Qed.

Lemma fl_eq (x y : Q) :
  (x == y)%Q -> (Affection.fl p x == Affection.fl p y)%Q.
Proof.
  intros H. apply Qle_antisym; apply fl_mono; rewrite H; apply Qle_refl.
Qed.

Lemma fl_nonneg (x : Q) : (0 <= x)%Q -> (0 <= Affection.fl p x)%Q.
Proof.
  intros H. destruct Hrounds as (_ & H0 & _).
  rewrite <- H0. now apply fl_mono.
Qed.

Lemma fl_nonpos (x : Q) : (x <= 0)%Q -> (Affection.fl p x <= 0)%Q.
Proof.
  intros H. destruct Hrounds as (_ & H0 & _).
  rewrite <- H0. now apply fl_mono.
Qed.

Lemma fillPercent_bounds (value maxAffection : Q) :
  (0 <= Affection.fillPercent p value maxAffection)%Q /\
  (Affection.fillPercent p value maxAffection <= 100)%Q.
Proof.
  unfold Affection.fillPercent. split.
  - apply Q.min_glb; [discriminate|apply Q.le_max_l].
  - apply Q.le_min_l.
Qed.

Lemma fillPercent_empty (value maxAffection : Q) :
  (0 < maxAffection)%Q -> (value <= 0)%Q ->
  (Affection.fillPercent p value maxAffection == 0)%Q.
Proof.
  intros Hm Hv. unfold Affection.fillPercent.
  assert (Hq : (Affection.fl p (value / maxAffection) <= 0)%Q).
  { apply fl_nonpos, Qle_shift_div_r; [exact Hm|]. lra. }
  assert (Hx : (Affection.fl p (Affection.fl p (value / maxAffection) * 100)
                <= 0)%Q).
  { apply fl_nonpos.
    set (q := Affection.fl p (value / maxAffection)) in *. clearbody q. lra. }
  rewrite (Q.max_l _ _ Hx). apply Q.min_r. discriminate.
Qed.

Lemma fillPercent_full (value maxAffection : Q) :
  (0 < maxAffection)%Q -> (maxAffection <= value)%Q ->
  (Affection.fillPercent p value maxAffection == 100)%Q.
Proof.
  intros Hm Hv. unfold Affection.fillPercent.
  destruct Hrounds as (_ & _ & H1 & H100).
  assert (Hq : (1 <= Affection.fl p (value / maxAffection))%Q).
  { rewrite <- H1. apply fl_mono, Qle_shift_div_l; [exact Hm|]. lra. }
  assert (Hx : (100 <= Affection.fl p
                         (Affection.fl p (value / maxAffection) * 100))%Q).
  { rewrite <- H100 at 1. apply fl_mono.
    set (q := Affection.fl p (value / maxAffection)) in *. clearbody q. lra. }
  apply Q.min_l. apply (Qle_trans _ _ _ Hx). apply Q.le_max_r.
Qed.

Lemma fillPercent_mono (v1 v2 maxAffection : Q) :
  (0 < maxAffection)%Q -> (v1 <= v2)%Q ->
  (Affection.fillPercent p v1 maxAffection
   <= Affection.fillPercent p v2 maxAffection)%Q.
Proof.
  intros Hm Hv. unfold Affection.fillPercent.
  apply Q.min_le_compat_l, Q.max_le_compat_l, fl_mono.
  apply Qmult_le_compat_r; [|discriminate].
  apply fl_mono. unfold Qdiv. apply Qmult_le_compat_r; [exact Hv|].
  apply Qlt_le_weak, Qinv_lt_0_compat, Hm.
Qed.

Lemma fillWidth_of_percent (w a b : Q) :
  (a == b)%Q ->
  (Affection.fl p (Affection.fl p (w * a) / 100)
   == Affection.fl p (Affection.fl p (w * b) / 100))%Q.
Proof.
  intros H. apply fl_eq. apply Qmult_comp; [|reflexivity].
  apply fl_eq. now rewrite H.
Qed.

Lemma fillWidth_le (w a b : Q) :
  (0 <= w)%Q -> (a <= b)%Q ->
  (Affection.fl p (Affection.fl p (w * a) / 100)
   <= Affection.fl p (Affection.fl p (w * b) / 100))%Q.
Proof.
  intros Hw H. apply fl_mono.
  apply Qmult_le_compat_r; [|discriminate].
  apply fl_mono. rewrite !(Qmult_comm w).
  now apply Qmult_le_compat_r.
Qed.

Lemma fillWidth_zero (w : Q) :
  (Affection.fl p (Affection.fl p (w * 0) / 100) == 0)%Q.
Proof.
  destruct Hrounds as (_ & H0 & _).
  assert (Hin : (Affection.fl p (w * 0) == 0)%Q).
  { rewrite <- H0 at 2. apply fl_eq. ring. }
  rewrite <- H0 at 2. apply fl_eq. rewrite Hin. reflexivity.
Qed.

End Gauge.


Lemma roundQ_rounds : Affection.rounds AffectionDemo.platform.
Proof.
  split; [|repeat split].
  intros x y Hxy. cbn [Affection.fl AffectionDemo.platform].
  unfold AffectionDemo.roundQ, Qle. cbn [Qnum Qden].
  apply Z.mul_le_mono_nonneg_r; [discriminate|].
  apply Qfloor_resp_le. apply Qmult_le_compat_r; [exact Hxy|discriminate].
Qed.


(** The border of the window cannot be switched off with a width of zero:
    a width that is absent or zero is drawn as a border of width 2, inset
    by half its width, and only a negative width leaves the border out. *)
Theorem frame_border (c : Affection.Container) :
  let width := orNum (Affection.containerWidth c) 400 in
  let height := orNum (Affection.containerHeight c) 200 in
  let radius := orNum (Affection.borderRadius c) 10 in
  let box :=
    Affection.FillRounded (orString (Affection.backgroundColor c) "#f0f0f0")
      0 0 width height radius in
  ((forall b, Affection.borderWidth c = Some b -> (0 <= b)%Q) ->
   exists lineWidth,
     (0 < lineWidth)%Q /\
     (forall b, Affection.borderWidth c = Some b -> (b == 0)%Q ->
                lineWidth = 2%Q) /\
     (Affection.borderWidth c = None -> lineWidth = 2%Q) /\
     Affection.frame c =
       [ box;
         Affection.StrokeRounded
           (orString (Affection.borderColor c) "#333") lineWidth
           (lineWidth / 2) (lineWidth / 2)
           (width - lineWidth) (height - lineWidth)
           (radius - lineWidth / 2) ])
  /\ (forall b, Affection.borderWidth c = Some b -> (b < 0)%Q ->
      Affection.frame c = [box]).
Proof.
  intros width height radius box. split.
  - intros Hnonneg. exists (orNum (Affection.borderWidth c) 2).
    assert (Hpos : (0 < orNum (Affection.borderWidth c) 2)%Q).
    { unfold orNum. destruct (Affection.borderWidth c) as [b|];
        [|reflexivity].
      destruct (truthyNum b) eqn:Hb; [|reflexivity].
      specialize (Hnonneg b eq_refl).
      unfold truthyNum in Hb. apply negb_true_iff in Hb.
      destruct (Qlt_le_dec 0 b) as [Hlt|Hle]; [exact Hlt|].
      exfalso. assert (Heq : (b == 0)%Q) by lra.
      apply Qeq_bool_iff in Heq. congruence. }
    split; [exact Hpos|]. split; [|split].
    + intros b Hb Hzero. unfold orNum. rewrite Hb.
      unfold truthyNum. apply Qeq_bool_iff in Hzero. now rewrite Hzero.
    + intros Hnone. unfold orNum. now rewrite Hnone.
    + unfold Affection.frame. fold width height radius. fold box.
      now rewrite (gt_pos _ Hpos).
  - intros b Hb Hneg. unfold Affection.frame.
    fold width height radius. fold box.
    assert (Hor : orNum (Affection.borderWidth c) 2 = b).
    { unfold orNum. rewrite Hb. unfold truthyNum.
      destruct (Qeq_bool b 0) eqn:E; [|reflexivity].
      apply Qeq_bool_iff in E. lra. }
    rewrite Hor, le_gt_false; [reflexivity|]. lra.
Qed.

Lemma frame_border_witness :
  Affection.borderWidth (Affection.container AffectionDemo.config)
    = Some 0%Q /\
  Affection.frame (Affection.container AffectionDemo.config) =
    [ Affection.FillRounded "#f0f0f0" 0 0 400 200 10;
      Affection.StrokeRounded "#333" 2 (2 / 2) (2 / 2) (400 - 2) (200 - 2)
        (10 - 2 / 2) ] /\
  (-1 < 0)%Q /\
  Affection.frame AffectionDemo.borderless =
    [Affection.FillRounded "#f0f0f0" 0 0 400 200 10].
Proof.
  split; [reflexivity|]. split.
  - destruct (proj1 (frame_border
                       (Affection.container AffectionDemo.config)))
      as (lw & _ & Hzero & _ & Hframe).
    + intros b Hb. injection Hb as <-. discriminate.
    + rewrite (Hzero 0%Q eq_refl (Qeq_refl 0)) in Hframe. exact Hframe.
  - assert (Hneg : (-1 < 0)%Q) by reflexivity.
    split; [exact Hneg|].
    exact (proj2 (frame_border AffectionDemo.borderless) (-1)%Q eq_refl Hneg).
Defined.

Lemma affection_step_wrap (measure : string -> Q) (words : list string)
    (out : list CanvasOp) (line : string) (y : Q) :
  let '(out', line', _) :=
    fold_left (Affection.step measure) words (out, line, y) in
  fold_left (wrapWord measure 700) words (filledLines out, line)
  = (filledLines out', line').
Proof.
  revert out line y.
  induction words as [|word words IH]; intros out line y; [reflexivity|].
  cbn [fold_left]. unfold Affection.step at 2, wrapWord at 2.
  destruct (gt _ 700 && Js.truthy line).
  - specialize (IH (out ++ [FillText (plainText (arial None 24)) line 400 y])
                   word (y + 30)%Q).
    rewrite filledLines_app in IH. exact IH.
  - apply IH.
Qed.

Lemma affection_messageOps_lines (measure : string -> Q) (message : string) :
  filledLines (Affection.messageOps measure message) =
  wrapLine measure 700 []
    (if Js.truthy message then message else "Unknown error").
Proof.
  unfold Affection.messageOps, wrapLine.
  set (text := if Js.truthy message then message else "Unknown error").
  pose proof (affection_step_wrap measure (Js.split space text)
                [] EmptyString 320%Q) as Hrel.
  destruct (fold_left (Affection.step measure) _ _) as [[out line] y].
  cbn [filledLines flat_map] in Hrel. rewrite Hrel.
  destruct (Js.truthy line); [|reflexivity].
  now rewrite filledLines_app.
Qed.

Lemma portrait_missing (p : Affection.Platform) (cfg : Affection.Config)
    (url : string) :
  Affection.imageUrl cfg = Some url ->
  (exists bytes e,
     fetchOk (Affection.world p) url ImageFetchFailed = Ok bytes /\
     loadImage (Affection.world p) bytes = Throw e)
  \/ (exists e e',
        fetchOk (Affection.world p) url ImageFetchFailed = Throw e /\
        Affection.loadImageUrl p url = Throw e') ->
  Affection.portrait p cfg (Affection.download p cfg) = [].
Proof.
  intros Hurl Hfail. unfold Affection.portrait, Affection.download.
  rewrite Hurl. destruct (Js.truthy url); [|reflexivity].
  destruct Hfail as [(bytes & e & -> & ->)|(e & e' & -> & ->)];
    reflexivity.
Qed.



(** What a failed affection request is answered with.  The placeholder is
    an 800 by 600 surface with the line [Error] and then the message of the
    failure ([Unknown error] when it is empty) wrapped by the greedy rule at
    700 pixels.  It is sent with status 500 as WebP; when the WebP encoder
    throws it is sent as PNG, still under the content type [image/webp];
    when the PNG encoder throws on it too, a bare image with the line
    [Error] is sent as PNG under the same content type; and when that
    cannot be encoded either, the handler rejects and no answer is sent.
    A description that is served with a failure status is such a failure,
    and its message names the URL and the status. *)
Theorem affection_failure_answer (p : Affection.Platform)
    (req : Affection.Request) :
  let sent (b : Buffer) :=
    Affection.Answered
      (Affection.mkResponse 500
         [Affection.ContentType "image/webp"; Affection.ContentLength]
         (Affection.Placeholder b)) in
  (forall status statusText body,
     fetch (Affection.world p) (Affection.jsonUrlOf p req)
       = FetchResponse status statusText body ->
     ok status = false ->
     Affection.attempt p req =
       Throw (Affection.jsonUnavailable (Affection.jsonUrlOf p req) status))
  /\ forall e,
       Affection.attempt p req = Throw e ->
       let c := Affection.errorCanvas (Affection.world p) (message e) in
         canvasWidth c = 800%Q /\ canvasHeight c = 600%Q /\
         filledLines (ops c) =
           "Error"
           :: wrapLine (measureText (Affection.world p) (arial None 24))
                700 []
                (if Js.truthy (message e) then message e
                 else "Unknown error") /\
         (Affection.toBufferError p "image/webp" c = None ->
          Affection.handler p req = sent (Encoded "image/webp" c)) /\
         (Affection.toBufferError p "image/webp" c <> None ->
          Affection.toBufferError p "image/png" c = None ->
          Affection.handler p req = sent (Encoded "image/png" c)) /\
         (Affection.toBufferError p "image/webp" c <> None ->
          Affection.toBufferError p "image/png" c <> None ->
          Affection.toBufferError p "image/png" Affection.bareErrorImage
            = None ->
          Affection.handler p req =
            sent (Encoded "image/png" Affection.bareErrorImage)) /\
         (forall e3,
            Affection.toBufferError p "image/webp" c <> None ->
            Affection.toBufferError p "image/png" c <> None ->
            Affection.toBufferError p "image/png" Affection.bareErrorImage
              = Some e3 ->
            Affection.handler p req = Affection.Rejected e3).
Proof.
  intros sent. split.
  - intros status statusText body Hfetch Hok.
    unfold Affection.attempt, fetchOk. now rewrite Hfetch, Hok.
  - intros e He c. unfold Affection.handler. rewrite He.
    unfold Affection.createErrorImage, Affection.toBuffer. fold c.
    split; [reflexivity|]. split; [reflexivity|].
    split; [|repeat split].
    + unfold c, Affection.errorCanvas.
      cbn [ops draw createCanvas]. rewrite filledLines_app.
      rewrite affection_messageOps_lines. reflexivity.
    + intros ->. reflexivity.
    + intros Hwebp ->.
      destruct (Affection.toBufferError p "image/webp" _);
        [reflexivity|now destruct Hwebp].
    + intros Hwebp Hpng ->.
      destruct (Affection.toBufferError p "image/webp" _);
        [|now destruct Hwebp].
      destruct (Affection.toBufferError p "image/png" _);
        [reflexivity|now destruct Hpng].
    + intros e3 Hwebp Hpng ->.
      destruct (Affection.toBufferError p "image/webp" _);
        [|now destruct Hwebp].
      destruct (Affection.toBufferError p "image/png" _);
        [reflexivity|now destruct Hpng].
Qed.

Lemma affection_failure_answer_witness :
  Affection.attempt AffectionDemo.noWebp AffectionDemo.missing =
    Throw (Affection.jsonUnavailable "https://o.nfarmer.uk/kbd/nobody.json"
             404) /\
  exists c,
    filledLines (ops c) =
      ["Error"; "JSON 파일을 가져올 수 없습니다:";
       "https://o.nfarmer.uk/kbd/nobody.json (404)"] /\
    Affection.handler AffectionDemo.noWebp AffectionDemo.missing =
      Affection.Answered
        (Affection.mkResponse 500
           [Affection.ContentType "image/webp"; Affection.ContentLength]
           (Affection.Placeholder (Encoded "image/png" c))).
Proof.
  destruct (affection_failure_answer AffectionDemo.noWebp
              AffectionDemo.missing) as [Hthrow Hanswer].
  assert (He : Affection.attempt AffectionDemo.noWebp AffectionDemo.missing =
               Throw (Affection.jsonUnavailable
                        "https://o.nfarmer.uk/kbd/nobody.json" 404))
    by exact (Hthrow 404%Z "Not Found" EmptyString eq_refl eq_refl).
  split; [exact He|].
  destruct (Hanswer _ He) as (_ & _ & Hlines & _ & Hpng & _).
  eexists. split.
  - rewrite Hlines. vm_compute. reflexivity.
  - apply Hpng; [discriminate|reflexivity].
Defined.
